(** * Products API (server.js): a shallow embedding and its specification

    The program is an Express service keeping a list of products in one
    JSON file.  This development embeds

    - the JavaScript values the handlers manipulate (section [Values]),
    - the validator [validateProductInput],
    - the store ([readProducts], [writeProducts]) over an explicit file
      system state with an I/O trace,
    - the handlers of the six routes, as functions from a request and a
      world to a reply and a world,

    and proves the properties stated in the specification.

    Modelling conventions.
    - A JavaScript number is [NaN], an infinity, or the rational a finite
      double stands for; the sign of zero is outside the model.  Comparisons
      of doubles are exact.  A sum is rounded by the runtime: it is taken
      through the interface [Arithmetic], whose laws are facts of IEEE 754
      binary64 arithmetic.
    - A string is a sequence of code units below 256.
    - [JSON.parse] and [JSON.stringify] belong to the language runtime, not to
      the program; they are taken through the interface [JsonRuntime].
    - A handler runs from start to end without interleaving. *)

From Stdlib Require Import QArith Qcanon Ascii Sorted.
From stdpp Require Import base option list strings gmap countable pretty.

Local Open Scope string_scope.
Set Warnings "-register-all".

(* ================================================================== *)
(** ** Numbers *)

Inductive number : Type :=
  | NaN
  | PosInf
  | NegInf
  | Fin (q : Qc).

(** The integer literal [z]. *)
Definition num_of_Z (z : Z) : number := Fin (Q2Qc (inject_Z z)).

(** [Number.isFinite]. *)
Definition isFinite (n : number) : bool :=
  match n with Fin _ => true | _ => false end.

(** [Number.isInteger]: a finite number with denominator one. *)
Definition isInteger (n : number) : bool :=
  match n with
  | Fin q => bool_decide (Qden (this q) = 1%positive)
  | _ => false
  end.

(** [a < b] on numbers; every comparison with [NaN] is false. *)
Definition num_lt (a b : number) : bool :=
  match a, b with
  | NaN, _ | _, NaN => false
  | Fin x, Fin y => match (x ?= y)%Qc with Lt => true | _ => false end
  | NegInf, NegInf => false
  | NegInf, _ => true
  | _, NegInf => false
  | PosInf, _ => false
  | Fin _, PosInf => true
  end.

(** [a === b] on numbers. *)
Definition num_eq (a b : number) : bool :=
  match a, b with
  | Fin x, Fin y => bool_decide (x = y)
  | PosInf, PosInf | NegInf, NegInf => true
  | _, _ => false
  end.

(** [a <= b]. *)
Definition num_le (a b : number) : bool := num_lt a b || num_eq a b.

(** The integers from [-2^53] to [2^53] are doubles, and the sum of two of
    them is exact when it is one of them.  Beyond, a sum is rounded:
    [2^53 + 1] is [2^53]. *)
Definition SAFE_LIMIT : Z := 2 ^ 53.

(** [a + b]: the sum of two doubles, as the runtime computes it (IEEE 754
    binary64, rounded to the nearest double, ties to even).  The laws are
    the three facts of that arithmetic the program's [maxId + 1] is subject
    to: a sum of integers is exact up to [2^53]; [2^53 + 1] rounds to
    [2^53]; adding one to a finite double never overflows. *)
Class Arithmetic : Type := {
  num_add : number → number → number;
  num_add_exact : ∀ a b : Z,
    (Z.abs a ≤ SAFE_LIMIT)%Z → (Z.abs b ≤ SAFE_LIMIT)%Z →
    (Z.abs (a + b) ≤ SAFE_LIMIT)%Z →
    num_add (num_of_Z a) (num_of_Z b) = num_of_Z (a + b);
  num_add_rounds : num_add (num_of_Z SAFE_LIMIT) (num_of_Z 1) = num_of_Z SAFE_LIMIT;
  num_add_one_finite : ∀ x, isFinite (num_add (Fin x) (num_of_Z 1)) = true
}.

(* ================================================================== *)
(** ** Strings *)

(** White space as [String.prototype.trim] sees it, among the code units
    below 256: TAB, LF, VT, FF, CR, SPACE and NBSP. *)
Definition is_ws (c : ascii) : bool :=
  let n := nat_of_ascii c in
  bool_decide (n = 9 ∨ n = 10 ∨ n = 11 ∨ n = 12 ∨ n = 13 ∨ n = 32 ∨ n = 160)%nat.

Fixpoint trimStart (s : string) : string :=
  match s with
  | String c r => if is_ws c then trimStart r else s
  | EmptyString => EmptyString
  end.

Fixpoint trimEnd (s : string) : string :=
  match s with
  | EmptyString => EmptyString
  | String c r =>
      match trimEnd r with
      | EmptyString => if is_ws c then EmptyString else String c EmptyString
      | r' => String c r'
      end
  end.

(** [s.trim()]. *)
Definition trim (s : string) : string := trimEnd (trimStart s).

(** First and last code unit of a string. *)
Definition first_char (s : string) : option ascii :=
  match s with String c _ => Some c | EmptyString => None end.

Fixpoint last_char (s : string) : option ascii :=
  match s with
  | EmptyString => None
  | String c EmptyString => Some c
  | String _ r => last_char r
  end.

(** A string with no leading and no trailing white space. *)
Definition no_outer_ws (s : string) : Prop :=
  (∀ c, first_char s = Some c → is_ws c = false) ∧
  (∀ c, last_char s = Some c → is_ws c = false).

(* ================================================================== *)
(** ** Values *)

(** The values the program handles: what [JSON.parse] builds, plus
    [undefined] (an absent property, an absent body).  An object is the
    list of its own properties in enumeration order. *)
Inductive value : Type :=
  | VUndefined
  | VNull
  | VBool (b : bool)
  | VNum (n : number)
  | VStr (s : string)
  | VArr (elems : list value)
  | VObj (props : list (string * value)).

(** [typeof v]. *)
Definition typeof (v : value) : string :=
  match v with
  | VUndefined => "undefined"
  | VNull => "object"
  | VBool _ => "boolean"
  | VNum _ => "number"
  | VStr _ => "string"
  | VArr _ => "object"
  | VObj _ => "object"
  end.

(** Truthiness, as [&&], [||] and [!] test it. *)
Definition truthy (v : value) : bool :=
  match v with
  | VUndefined | VNull => false
  | VBool b => b
  | VNum n => negb (num_eq n (num_of_Z 0)) && negb (match n with NaN => true | _ => false end)
  | VStr s => negb (bool_decide (s = ""))
  | VArr _ | VObj _ => true
  end.

(** [Array.isArray]. *)
Definition isArray (v : value) : bool :=
  match v with VArr _ => true | _ => false end.

(** [v === w] where one side is a primitive, which is every use the program
    makes of it; two objects are equal only by identity, which a value does
    not carry, so they compare unequal here. *)
Definition strict_eq (v w : value) : bool :=
  match v, w with
  | VUndefined, VUndefined => true
  | VNull, VNull => true
  | VBool a, VBool b => bool_decide (a = b)
  | VNum a, VNum b => num_eq a b
  | VStr a, VStr b => bool_decide (a = b)
  | _, _ => false
  end.

(** *** Objects as ordered property lists *)

Fixpoint assoc (k : string) (ps : list (string * value)) : option value :=
  match ps with
  | [] => None
  | (k', v) :: r => if decide (k' = k) then Some v else assoc k r
  end.

(** Defining property [k]: an existing property keeps its place, a new one
    goes last (the keys the program defines are never array indices, which
    would be ordered first). *)
Fixpoint obj_set (k : string) (v : value) (ps : list (string * value))
  : list (string * value) :=
  match ps with
  | [] => [(k, v)]
  | (k', v') :: r =>
      if decide (k' = k) then (k, v) :: r else (k', v') :: obj_set k v r
  end.

Fixpoint string_chars (s : string) : list value :=
  match s with
  | EmptyString => []
  | String c r => VStr (String c EmptyString) :: string_chars r
  end.

(** The own enumerable properties of a value, in order: those of an object,
    the indices of an array or of a string, none for the other primitives. *)
Definition own_props (v : value) : list (string * value) :=
  match v with
  | VObj ps => ps
  | VArr l => imap (λ i x, (pretty i, x)) l
  | VStr s => imap (λ i x, (pretty i, x)) (string_chars s)
  | _ => []
  end.

(** [Object.keys(v)] for a [v] that is neither [null] nor [undefined]. *)
Definition Object_keys (v : value) : list string := (own_props v).*1.

(** [{ ...target, ...src }]: the own properties of [src] defined over
    [target] one after the other. *)
Definition spread (src : value) (target : list (string * value))
  : list (string * value) :=
  foldl (λ acc kv, obj_set kv.1 kv.2 acc) target (own_props src).

(** The elements of an array. *)
Definition elements (v : value) : list value :=
  match v with VArr l => l | _ => [] end.

(** [v.k] for a [v] that is neither [null] nor [undefined], and a key [k]
    that is not inherited (the program reads [id], [name], [price],
    [inStock]): an own property of an object, [undefined] otherwise. *)
Definition prop (v : value) (k : string) : value :=
  match v with
  | VObj ps => default VUndefined (assoc k ps)
  | _ => VUndefined
  end.

(** A value [JSON.stringify] writes and [JSON.parse] gives back unchanged:
    no [undefined], only finite numbers, and objects whose property names
    are pairwise distinct. *)
Fixpoint json_value (v : value) : bool :=
  match v with
  | VUndefined => false
  | VNull | VBool _ | VStr _ => true
  | VNum n => isFinite n
  | VArr l => forallb json_value l
  | VObj ps =>
      forallb (λ kv, match kv with (_, x) => json_value x end) ps
      && bool_decide (NoDup ps.*1)
  end.

(* ================================================================== *)
(** ** Exceptions *)

(** An error object: [err.code] (absent on a [TypeError]) and
    [err.message]. *)
Record js_error : Type := JsError {
  err_code : option string;
  err_message : string
}.

Definition TypeError (msg : string) : js_error :=
  {| err_code := None; err_message := msg |}.

(** How an evaluation ends: with a value or with a thrown error. *)
Inductive completion (A : Type) : Type :=
  | Normal (a : A)
  | Throw (e : js_error).
Arguments Normal {A} a.
Arguments Throw {A} e.

#[global] Instance completion_ret : MRet completion := λ A a, Normal a.
#[global] Instance completion_bind : MBind completion := λ A B f m,
  match m with
  | Normal a => f a
  | Throw e => Throw e
  end.

(** [v.k] on any value: reading a property of [null] or [undefined]
    throws. *)
Definition member (v : value) (k : string) : completion value :=
  match v with
  | VUndefined | VNull =>
      Throw (TypeError ("Cannot read properties of null or undefined, reading " +:+ k))
  | _ => Normal (prop v k)
  end.

(** [v?.k]. *)
Definition opt_member (v : value) (k : string) : value :=
  match v with
  | VUndefined | VNull => VUndefined
  | _ => prop v k
  end.

(** [k in v]: throws unless [v] is an object; an array has its indices and
    [length].  Inherited members are left out: the program asks for
    [name], [price] and [inStock], which no prototype defines. *)
Definition has_property (k : string) (v : value) : completion bool :=
  match v with
  | VObj ps => Normal (bool_decide (k ∈ ps.*1))
  | VArr _ => Normal (bool_decide (k ∈ Object_keys v ∨ k = "length"))
  | _ => Throw (TypeError ("Cannot use 'in' operator to search for " +:+ k))
  end.

(** [v.trim()]: [trim] exists on strings only. *)
Definition trim_method (v : value) : completion value :=
  match v with
  | VStr s => Normal (VStr (trim s))
  | VUndefined | VNull =>
      Throw (TypeError "Cannot read properties of null or undefined, reading trim")
  | _ => Throw (TypeError "trim is not a function")
  end.

(* ================================================================== *)
(** ** The validator *)

Definition allowedKeys : list string := ["name"; "price"; "inStock"].

Definition name_error : string := "name must be a non-empty string".
Definition price_error : string := "price must be a non-negative number".
Definition inStock_error : string := "inStock must be a boolean".
Definition unknown_error (k : string) : string := "Unknown field: " +:+ k.

(** [typeof x !== 'string' || x.trim() === ''] *)
Definition name_invalid (x : value) : bool :=
  negb (bool_decide (typeof x = "string"))
  || match x with VStr s => bool_decide (trim s = "") | _ => false end.

(** [typeof x !== 'number' || !Number.isFinite(x) || x < 0] *)
Definition price_invalid (x : value) : bool :=
  negb (bool_decide (typeof x = "number"))
  || match x with
     | VNum n => negb (isFinite n) || num_lt n (num_of_Z 0)
     | _ => false
     end.

(** [typeof x !== 'boolean'] *)
Definition inStock_invalid (x : value) : bool :=
  negb (bool_decide (typeof x = "boolean")).

(** [if (c) errors.push(msg)] *)
Definition push_if (c : bool) (msg : string) (errors : list string) : list string :=
  if c then (errors ++ [msg])%list else errors.

(** [body || {}] *)
Definition or_empty (body : value) : value :=
  if truthy body then body else VObj [].

Definition validateProductInput (body : value) (isPartial : bool)
  : completion (list string) :=
  let errors := [] in
  let keys := Object_keys (or_empty body) in
  let errors :=
    foldl (λ errors k,
             push_if (negb (bool_decide (k ∈ allowedKeys))) (unknown_error k) errors)
          errors keys in
  if negb isPartial then
    let errors := push_if (name_invalid (opt_member body "name")) name_error errors in
    let errors := push_if (price_invalid (opt_member body "price")) price_error errors in
    let errors := push_if (inStock_invalid (opt_member body "inStock")) inStock_error errors in
    Normal errors
  else
    has_name ← has_property "name" body;
    let errors := push_if (has_name && name_invalid (prop body "name")) name_error errors in
    has_price ← has_property "price" body;
    let errors := push_if (has_price && price_invalid (prop body "price")) price_error errors in
    has_inStock ← has_property "inStock" body;
    let errors :=
      push_if (has_inStock && inStock_invalid (prop body "inStock")) inStock_error errors in
    Normal errors.

(* ================================================================== *)
(** ** The file system and the runtime *)

(** What the program asks of the file system, in the order it asks. *)
Inductive fs_event : Type :=
  | EvReadFile (path : string)
  | EvWriteFile (path data : string)
  | EvRename (src dst : string).

(** The failures of the file system other than a missing file, which the
    presence of the file decides. *)
Inductive fault : Type :=
  | EACCES | EPERM | EIO | EISDIR | EMFILE | ENOSPC | EROFS.

Definition fault_code (f : fault) : string :=
  match f with
  | EACCES => "EACCES"
  | EPERM => "EPERM"
  | EIO => "EIO"
  | EISDIR => "EISDIR"
  | EMFILE => "EMFILE"
  | ENOSPC => "ENOSPC"
  | EROFS => "EROFS"
  end.

Definition fault_error (f : fault) (path : string) : js_error :=
  {| err_code := Some (fault_code f);
     err_message := fault_code f +:+ ": " +:+ path |}.

(** A failure of [fs.writeFile].  The call opens the file with flag ['w'],
    which creates it or empties it, then writes the data.  When the file
    cannot be opened nothing has changed ([written] is [None]); when the
    failure comes later the file is left with what was written until then,
    the first [n] code units of the data ([written] is [Some n], and [n] may
    be zero). *)
Record write_failure : Type := WriteFailure {
  write_error : fault;
  written : option nat
}.

(** The world a handler runs in: the files by path, the failure (if any)
    the file system currently answers each kind of call with, and the calls
    made so far. *)
Record world : Type := World {
  files : gmap string string;
  read_fault : option fault;
  write_fault : option write_failure;
  rename_fault : option fault;
  trace : list fs_event
}.

Definition log (ev : fs_event) (w : world) : world :=
  {| files := files w; read_fault := read_fault w; write_fault := write_fault w;
     rename_fault := rename_fault w; trace := (trace w ++ [ev])%list |}.

Definition set_files (fs : gmap string string) (w : world) : world :=
  {| files := fs; read_fault := read_fault w; write_fault := write_fault w;
     rename_fault := rename_fault w; trace := trace w |}.

(** A computation that settles (a promise awaited, a callback called) with a
    value or an error, and changes the world. *)
Definition io (A : Type) : Type := world → completion A * world.

#[global] Instance io_ret : MRet io := λ A a w, (Normal a, w).
#[global] Instance io_bind : MBind io := λ A B f m w,
  match m w with
  | (Normal a, w') => f a w'
  | (Throw e, w') => (Throw e, w')
  end.

Definition lift {A : Type} (c : completion A) : io A := λ w, (c, w).

Definition ENOENT (path : string) : js_error :=
  {| err_code := Some "ENOENT";
     err_message := "ENOENT: no such file or directory, " +:+ path |}.

(** [fs.readFile(path, 'utf8', callback)] *)
Definition fs_readFile (path : string) : io string := λ w,
  let w' := log (EvReadFile path) w in
  match read_fault w with
  | Some f => (Throw (fault_error f path), w')
  | None =>
      match files w !! path with
      | Some data => (Normal data, w')
      | None => (Throw (ENOENT path), w')
      end
  end.

(** [fs.writeFile(path, data, 'utf8', callback)] *)
Definition fs_writeFile (path data : string) : io unit := λ w,
  let w' := log (EvWriteFile path data) w in
  match write_fault w with
  | Some wf =>
      (Throw (fault_error (write_error wf) path),
       match written wf with
       | Some n => set_files (<[path := String.substring 0 n data]> (files w)) w'
       | None => w'
       end)
  | None => (Normal (), set_files (<[path := data]> (files w)) w')
  end.

(** [fs.rename(src, dst, callback)] *)
Definition fs_rename (src dst : string) : io unit := λ w,
  let w' := log (EvRename src dst) w in
  match rename_fault w with
  | Some f => (Throw (fault_error f src), w')
  | None =>
      match files w !! src with
      | Some data => (Normal (), set_files (<[dst := data]> (delete src (files w))) w')
      | None => (Throw (ENOENT src), w')
      end
  end.

(** The part of the language runtime the store relies on.
    [JSON_parse s] is [None] when [JSON.parse(s)] throws;
    [JSON_stringify v] is [JSON.stringify(v, null, 2)], which is a string
    for every [v] but [undefined].  The two laws are those of the
    ECMAScript definition: a text of white space only is not JSON, and a
    value that JSON carries is read back as it was written. *)
Class JsonRuntime : Type := {
  JSON_parse : string → option value;
  JSON_stringify : value → string;
  JSON_parse_blank : ∀ s, trim s = "" → JSON_parse s = None;
  JSON_parse_stringify : ∀ v, json_value v = true → JSON_parse (JSON_stringify v) = Some v
}.

(* ================================================================== *)
(** ** The store *)

(** [path.join(__dirname, 'products.json')], relative to the directory of
    the program. *)
Definition DATA_FILE : string := "products.json".

(** The path of the temporary file of [writeProducts], [DATA_FILE + '.tmp']. *)
Definition TEMP_FILE : string := DATA_FILE +:+ ".tmp".

Section Store.
Context `{JsonRuntime}.

(** What [readProducts] makes of the text of the file. *)
Definition parse_products (data : string) : list value :=
  if negb (truthy (VStr data)) || bool_decide (trim data = "") then []
  else
    match JSON_parse data with
    | Some parsed => if negb (isArray parsed) then [] else elements parsed
    | None => []
    end.

Definition readProducts : io (list value) := λ w,
  match fs_readFile DATA_FILE w with
  | (Throw err, w') =>
      if bool_decide (err_code err = Some "ENOENT") then (Normal [], w')
      else (Throw err, w')
  | (Normal data, w') => (Normal (parse_products data), w')
  end.

Definition writeProducts (products : list value) : io unit :=
  let tempFile := DATA_FILE +:+ ".tmp" in
  let json := JSON_stringify (VArr products) in
  fs_writeFile tempFile json ;;
  fs_rename tempFile DATA_FILE.

(** The collection the data file holds, as the next [readProducts] that
    reaches the file will see it. *)
Definition persisted (w : world) : list value :=
  match files w !! DATA_FILE with
  | Some data => parse_products data
  | None => []
  end.

End Store.

(* ================================================================== *)
(** ** The handlers *)

(** A request: [req.body], and the number [Number(req.params.id)] that the
    routes with an [:id] segment compute first. *)
Record request : Type := Request {
  param_id : number;
  body : value
}.

Inductive payload : Type :=
  | Json (v : value)
  | Text (s : string).

Record response : Type := Response {
  status : nat;
  sent : payload
}.

(** A handler either sends a response or ends with an error nobody
    catches. *)
Inductive reply : Type :=
  | Responds (r : response)
  | Unhandled (e : js_error).

Definition status_of (r : reply) : option nat :=
  match r with Responds r => Some (status r) | Unhandled _ => None end.

(** [{ message }] and [{ message, error: err.message }] *)
Definition message_body (msg : string) : value := VObj [("message", VStr msg)].
Definition failure_body (msg : string) (err : js_error) : value :=
  VObj [("message", VStr msg); ("error", VStr (err_message err))].
(** [{ message: 'Invalid input', errors }] *)
Definition invalid_input (errors : list string) : value :=
  VObj [("message", VStr "Invalid input"); ("errors", VArr (VStr <$> errors))].

(** [products.reduce((max, p) => (typeof p.id === 'number' && p.id > max ? p.id : max), 0)] *)
Definition max_step (max : number) (p : value) : completion number :=
  id ← member p "id";
  Normal (match id with
          | VNum n => if num_lt max n then n else max
          | _ => max
          end).

Fixpoint reduce_max (products : list value) (max : number) : completion number :=
  match products with
  | [] => Normal max
  | p :: rest => max' ← max_step max p; reduce_max rest max'
  end.

(** [products.findIndex(f)]; [None] is [-1]. *)
Fixpoint findIndex (f : value → bool) (l : list value) : option nat :=
  match l with
  | [] => None
  | x :: r => if f x then Some 0%nat else S <$> findIndex f r
  end.

(** [{ ...stored, ...body }], then
    [if (typeof updated.name === 'string') updated.name = updated.name.trim()] *)
Definition merge (stored body : value) : list (string * value) :=
  let updated := spread body (spread stored []) in
  match assoc "name" updated with
  | Some (VStr s) => obj_set "name" (VStr (trim s)) updated
  | _ => updated
  end.

(** [p => p && p.id === id] *)
Definition has_id (id : number) (p : value) : bool :=
  truthy p && strict_eq (prop p "id") (VNum id).

(** [p => p && p.id !== id] *)
Definition other_id (id : number) (p : value) : bool :=
  truthy p && negb (strict_eq (prop p "id") (VNum id)).

(** [p => p && p.inStock === true] *)
Definition in_stock (p : value) : bool :=
  truthy p && strict_eq (prop p "inStock") (VBool true).

(** [!Number.isInteger(id) || id <= 0] *)
Definition invalid_id (id : number) : bool :=
  negb (isInteger id) || num_le id (num_of_Z 0).

Section Handlers.
Context `{JsonRuntime} `{Arithmetic}.

(** [GET /products] *)
Definition get_products (req : request) : world → reply * world := λ w,
  match readProducts w with
  | (Normal products, w') => (Responds (Response 200 (Json (VArr products))), w')
  | (Throw err, w') =>
      (Responds (Response 500 (Json (failure_body "Failed to read products" err))), w')
  end.

(** [GET /products/instock] *)
Definition get_instock (req : request) : world → reply * world := λ w,
  match readProducts w with
  | (Normal products, w') =>
      (Responds (Response 200 (Json (VArr (List.filter in_stock products)))), w')
  | (Throw err, w') =>
      (Responds (Response 500 (Json (failure_body "Failed to read products" err))), w')
  end.

(** The [try] block of [POST /products]. *)
Definition post_try (body : value) : io response :=
  products ← readProducts;
  maxId ← lift (reduce_max products (num_of_Z 0));
  name ← lift (member body "name" ≫= trim_method);
  price ← lift (member body "price");
  inStock ← lift (member body "inStock");
  let newProduct :=
    VObj [("id", VNum (num_add maxId (num_of_Z 1))); ("name", name);
          ("price", price); ("inStock", inStock)] in
  let products := (products ++ [newProduct])%list in
  writeProducts products ;;
  mret (Response 201 (Json newProduct)).

(** [POST /products] *)
Definition post_products (req : request) : world → reply * world := λ w,
  match validateProductInput (body req) false with
  | Throw e => (Unhandled e, w)
  | Normal errors =>
      if negb (bool_decide (length errors = 0%nat)) then
        (Responds (Response 400 (Json (invalid_input errors))), w)
      else
        match post_try (body req) w with
        | (Normal r, w') => (Responds r, w')
        | (Throw err, w') =>
            (Responds (Response 500 (Json (failure_body "Failed to save product" err))), w')
        end
  end.

(** The [try] block of [PUT /products/:id]. *)
Definition put_try (id : number) (body : value) : io response :=
  products ← readProducts;
  match findIndex (has_id id) products with
  | None => mret (Response 404 (Json (message_body "Product not found")))
  | Some idx =>
      let updated := merge (default VUndefined (products !! idx)) body in
      let products := <[idx := VObj updated]> products in
      writeProducts products ;;
      mret (Response 200 (Json (VObj updated)))
  end.

(** [PUT /products/:id] *)
Definition put_product (req : request) : world → reply * world := λ w,
  let id := param_id req in
  if invalid_id id then
    (Responds (Response 400 (Json (message_body "Invalid id"))), w)
  else
    match validateProductInput (body req) true with
    | Throw e => (Unhandled e, w)
    | Normal errors =>
        if negb (bool_decide (length errors = 0%nat)) then
          (Responds (Response 400 (Json (invalid_input errors))), w)
        else
          match put_try id (body req) w with
          | (Normal r, w') => (Responds r, w')
          | (Throw err, w') =>
              (Responds (Response 500 (Json (failure_body "Failed to update product" err))), w')
          end
    end.

(** The [try] block of [DELETE /products/:id]. *)
Definition delete_try (id : number) : io response :=
  products ← readProducts;
  let lengthBefore := length products in
  let remaining := List.filter (other_id id) products in
  if bool_decide (length remaining = lengthBefore) then
    mret (Response 404 (Json (message_body "Product not found")))
  else
    writeProducts remaining ;;
    mret (Response 200 (Json (message_body "Product deleted successfully"))).

(** [DELETE /products/:id] *)
Definition delete_product (req : request) : world → reply * world := λ w,
  let id := param_id req in
  if invalid_id id then
    (Responds (Response 400 (Json (message_body "Invalid id"))), w)
  else
    match delete_try id w with
    | (Normal r, w') => (Responds r, w')
    | (Throw err, w') =>
        (Responds (Response 500 (Json (failure_body "Failed to delete product" err))), w')
    end.

(** [GET /] *)
Definition get_root (req : request) : world → reply * world := λ w,
  (Responds (Response 200 (Text "Products API is running")), w).

End Handlers.

(* ================================================================== *)
(** ** A runtime to run the model on

    The theorems below hold for every [JsonRuntime] and every
    [Arithmetic].  To evaluate the handlers on concrete worlds one instance
    of each is needed.  The instance of [JsonRuntime] writes a value as the
    binary digits of a code of its syntax tree.  Its text is not JSON text,
    but it meets the two laws of the interface, which is all the program
    depends on.  The instance of [Arithmetic] adds two rationals and rounds
    the sum to the nearest double, ties to even. *)

(** [floor (log2 (n / d))]: the binary exponent of the rational [n / d]. *)
Definition floor_log2 (n d : positive) : Z :=
  let e := (Z.log2 (Z.pos n) - Z.log2 (Z.pos d))%Z in
  if bool_decide (Z.pos n * 2 ^ Z.max 0 (- e) < Z.pos d * 2 ^ Z.max 0 e)%Z
  then (e - 1)%Z else e.

(** The integer nearest to [n / d], the even one of two that are as near. *)
Definition nearest_even (n d : Z) : Z :=
  let k := (n / d)%Z in
  let r := (n mod d)%Z in
  if bool_decide (2 * r < d)%Z then k
  else if bool_decide (d < 2 * r)%Z then (k + 1)%Z
  else if Z.even k then k else (k + 1)%Z.

(** The double nearest to the rational [q], ties to even: [q] rounded to a
    multiple of [2^u], where [2^u] is the unit in the last of 53
    significant bits, and [2^-1074] for the subnormal numbers; [None] when
    that is beyond the greatest double. *)
Definition round_double (q : Qc) : option Qc :=
  match Qnum (this q) with
  | Z0 => Some q
  | Zpos n | Zneg n =>
      let u := Z.max (floor_log2 n (Qden (this q)) - 52) (-1074) in
      let up := (2 ^ Z.max 0 u)%Z in
      let down := (2 ^ Z.max 0 (- u))%Z in
      let m := nearest_even (Z.pos n * down) (Z.pos (Qden (this q)) * up) in
      if bool_decide (2 ^ 1024 ≤ m * up)%Z then None
      else Some (Q2Qc (Qred ((Z.sgn (Qnum (this q)) * (m * up)) # Z.to_pos down)))
  end.

(** A number of magnitude [2^970] at least.  The sum of two doubles is
    beyond the greatest double only when both are. *)
Definition huge (q : Qc) : bool :=
  bool_decide (2 ^ 970 * Z.pos (Qden (this q)) ≤ Z.abs (Qnum (this q)))%Z.

(** The sum of two finite doubles.  An integer up to [2^53] is a double:
    there is nothing to round.  Rationals that are no doubles are added
    too; their sum is never infinite unless both are huge. *)
Definition ref_add_finite (x y : Qc) : number :=
  let sum := (x + y)%Qc in
  if bool_decide (Qden (this sum) = 1%positive ∧ (Z.abs (Qnum (this sum)) ≤ SAFE_LIMIT)%Z)
  then num_of_Z (Qnum (this sum))
  else
    match round_double sum with
    | Some r => Fin r
    | None =>
        if huge x && huge y
        then (if bool_decide (0 < Qnum (this sum))%Z then PosInf else NegInf)
        else Fin sum
    end.

Definition ref_add (a b : number) : number :=
  match a, b with
  | NaN, _ | _, NaN => NaN
  | PosInf, NegInf | NegInf, PosInf => NaN
  | PosInf, _ | _, PosInf => PosInf
  | NegInf, _ | _, NegInf => NegInf
  | Fin x, Fin y => ref_add_finite x y
  end.

Definition tree_leaf : Type := (bool + Qc + string)%type.

Fixpoint value_to_tree (v : value) : gen_tree tree_leaf :=
  match v with
  | VUndefined => GenNode 0 []
  | VNull => GenNode 1 []
  | VBool b => GenLeaf (inl (inl b))
  | VNum NaN => GenNode 2 []
  | VNum PosInf => GenNode 3 []
  | VNum NegInf => GenNode 4 []
  | VNum (Fin q) => GenLeaf (inl (inr q))
  | VStr s => GenLeaf (inr s)
  | VArr l => GenNode 5 (value_to_tree <$> l)
  | VObj ps =>
      GenNode 6 ((λ kv, match kv with
                        | (k, x) => GenNode 7 [GenLeaf (inr k); value_to_tree x]
                        end) <$> ps)
  end.

Fixpoint tree_to_value (t : gen_tree tree_leaf) : value :=
  match t with
  | GenLeaf (inl (inl b)) => VBool b
  | GenLeaf (inl (inr q)) => VNum (Fin q)
  | GenLeaf (inr s) => VStr s
  | GenNode 1 _ => VNull
  | GenNode 2 _ => VNum NaN
  | GenNode 3 _ => VNum PosInf
  | GenNode 4 _ => VNum NegInf
  | GenNode 5 ts => VArr (tree_to_value <$> ts)
  | GenNode 6 ts =>
      VObj ((λ t, match t with
                  | GenNode _ [GenLeaf (inr k); x] => (k, tree_to_value x)
                  | _ => ("", VUndefined)
                  end) <$> ts)
  | GenNode _ _ => VUndefined
  end.

Fixpoint pos_to_bits (p : positive) : string :=
  match p with
  | xH => ""
  | xO q => String "0" (pos_to_bits q)
  | xI q => String "1" (pos_to_bits q)
  end.

Fixpoint bits_to_pos (s : string) : option positive :=
  match s with
  | EmptyString => Some xH
  | String c r =>
      if decide (c = "0"%char) then xO <$> bits_to_pos r
      else if decide (c = "1"%char) then xI <$> bits_to_pos r
      else None
  end.

Definition ref_stringify (v : value) : string :=
  String "J" (pos_to_bits (encode (value_to_tree v))).

Definition ref_parse (s : string) : option value :=
  match s with
  | String c r =>
      if decide (c = "J"%char) then
        p ← bits_to_pos r; t ← decode p; Some (tree_to_value t)
      else None
  | EmptyString => None
  end.

(* ================================================================== *)
(** ** The vocabulary of the specification *)

(** The field [k] of a record: an own property of an object. *)
Definition field (v : value) (k : string) : option value :=
  match v with VObj ps => assoc k ps | _ => None end.

(** The three rules of the validator, as the specification words them:
    [name] is a string that is not empty once trimmed, [price] is a finite
    number that is at least zero, [inStock] is a boolean. *)
Definition name_rule (body : value) : bool :=
  match field body "name" with
  | Some (VStr s) => negb (bool_decide (trim s = ""))
  | _ => false
  end.

Definition price_rule (body : value) : bool :=
  match field body "price" with
  | Some (VNum (Fin q)) => bool_decide (0 ≤ q)%Qc
  | _ => false
  end.

Definition inStock_rule (body : value) : bool :=
  match field body "inStock" with
  | Some (VBool _) => true
  | _ => false
  end.

(** The errors of full validation, as the specification lists them. *)
Definition full_errors (body : value) : list string :=
  ((unknown_error <$> filter (λ k, k ∉ allowedKeys) (Object_keys body))
   ++ (if name_rule body then [] else [name_error])
   ++ (if price_rule body then [] else [price_error])
   ++ (if inStock_rule body then [] else [inStock_error]))%list.

(** A text that is empty or white space, or is not JSON, or is the JSON of
    something other than an array. *)
Definition malformed `{JsonRuntime} (data : string) : Prop :=
  trim data = "" ∨ JSON_parse data = None
  ∨ ∃ v, JSON_parse data = Some v ∧ isArray v = false.

(** A record whose [inStock] is the boolean [true]. *)
Definition stock_true (p : value) : bool :=
  match field p "inStock" with
  | Some (VBool true) => true
  | _ => false
  end.

(** The product record of the data model. *)
Definition product (id : Z) (name : string) (price : Qc) (inStock : bool) : value :=
  VObj [("id", VNum (num_of_Z id)); ("name", VStr name);
        ("price", VNum (Fin price)); ("inStock", VBool inStock)].

Inductive is_product : value → Prop :=
  | IsProduct id name price inStock :
      (0 < id)%Z →
      name ≠ "" →
      no_outer_ws name →
      (0 ≤ price)%Qc →
      is_product (product id name price inStock).

(** The [id] of a record. *)
Definition id_of (p : value) : value := prop p "id".

(** The invariant of the collection: every record is a product of the data
    model and no two records share an id. *)
Definition collection_ok (l : list value) : Prop :=
  Forall is_product l ∧ NoDup (id_of <$> l).

(** Every numeric id of the collection is an integer below [bound]. *)
Definition ids_below (bound : Z) (l : list value) : Prop :=
  ∀ n, VNum n ∈ id_of <$> l → ∃ z : Z, n = num_of_Z z ∧ (z < bound)%Z.

(** The integer an id stands for (zero when the id is no finite number). *)
Definition integer_of (v : value) : Z :=
  match v with VNum (Fin q) => Qnum (this q) | _ => 0%Z end.

(** The ids of the collection that are below [bound], as integers. *)
Definition ids_under (bound : Z) (l : list value) : list Z :=
  filter (λ z, z < bound)%Z (integer_of <$> (id_of <$> l)).

(** The invariant as the code keeps it: every record is a product of the
    data model, no id is beyond [2^53], and the ids below [2^53] are
    distinct. *)
Definition collection_kept (l : list value) : Prop :=
  Forall is_product l
  ∧ ids_below (SAFE_LIMIT + 1) l
  ∧ NoDup (ids_under SAFE_LIMIT l).

(** Whether the record has the field [k]. *)
Definition present (body : value) (k : string) : bool :=
  bool_decide (is_Some (field body k)).

(** The errors of partial validation of an object: a rule is checked only
    for a field that is present. *)
Definition partial_errors (body : value) : list string :=
  ((unknown_error <$> filter (λ k, k ∉ allowedKeys) (Object_keys body))
   ++ (if present body "name" && negb (name_rule body) then [name_error] else [])
   ++ (if present body "price" && negb (price_rule body) then [price_error] else [])
   ++ (if present body "inStock" && negb (inStock_rule body) then [inStock_error] else []))%list.

(** What the update does to the value of field [k]: [name] is trimmed when
    it is a string. *)
Definition retrim (k : string) (v : value) : value :=
  if decide (k = "name") then
    match v with VStr s => VStr (trim s) | _ => v end
  else v.

(** [m] is the greatest of zero and the numeric ids of the collection. *)
Definition is_max_id (l : list value) (m : number) : Prop :=
  (m = num_of_Z 0 ∨ VNum m ∈ id_of <$> l)
  ∧ num_le (num_of_Z 0) m = true
  ∧ ∀ n, VNum n ∈ id_of <$> l → num_lt m n = false.

(** The id of the record a reply carries. *)
Definition created_id (r : reply) : value :=
  match r with
  | Responds (Response _ (Json p)) => id_of p
  | _ => VUndefined
  end.

(** Creating one product per body, one request after the other. *)
Fixpoint post_many `{JsonRuntime} `{Arithmetic} (bodies : list value) (w : world)
  : list reply * world :=
  match bodies with
  | [] => ([], w)
  | b :: rest =>
      let (r, w1) := post_products (Request NaN b) w in
      let (rs, w2) := post_many rest w1 in
      (r :: rs, w2)
  end.

(** The specification on the reuse of ids, as it is worded: a create that
    follows a delete never assigns the id of the deleted product. *)
Definition ids_never_reused : Prop :=
  ∀ (J : JsonRuntime) (A : Arithmetic) (w w1 w2 : world) (d : number) (b : value)
    (r1 r2 : response),
    delete_product (Request d VUndefined) w = (Responds r1, w1) →
    status r1 = 200%nat →
    post_products (Request NaN b) w1 = (Responds r2, w2) →
    status r2 = 201%nat →
    created_id (Responds r2) ≠ VNum d.

(** The worlds the service reaches from an empty collection by creates,
    updates and deletes that succeed.  The body of an update is an object
    of the language: its property names are distinct. *)
Inductive reachable `{JsonRuntime} `{Arithmetic} : world → Prop :=
  | reach_empty w :
      persisted w = [] → reachable w
  | reach_create req w r w' :
      reachable w →
      post_products req w = (Responds r, w') → status r = 201%nat →
      reachable w'
  | reach_update req w r w' :
      reachable w →
      NoDup (Object_keys (body req)) →
      put_product req w = (Responds r, w') → status r = 200%nat →
      reachable w'
  | reach_delete req w r w' :
      reachable w →
      delete_product req w = (Responds r, w') → status r = 200%nat →
      reachable w'.

(** The specification on the uniqueness of ids, as it is worded: no two
    records of a collection reached from the empty one share an id. *)
Definition ids_always_unique : Prop :=
  ∀ (J : JsonRuntime) (A : Arithmetic) (w : world),
    reachable w → NoDup (id_of <$> persisted w).

(** A value that [in] accepts on its right: an object or an array. *)
Definition is_object (v : value) : bool :=
  match v with VObj _ | VArr _ => true | _ => false end.

(** The text [writeProducts] writes for a collection. *)
Definition text_of `{JsonRuntime} (products : list value) : string :=
  JSON_stringify (VArr products).

(** The calls a handler may add to the trace: none, one read of the data
    file, the read and the write of the temporary file, or these and the
    rename of the temporary file onto the data file. *)
Definition store_calls (evs : list fs_event) : Prop :=
  evs = []
  ∨ evs = [EvReadFile DATA_FILE]
  ∨ (∃ text, evs = [EvReadFile DATA_FILE; EvWriteFile TEMP_FILE text])
  ∨ (∃ text, evs = [EvReadFile DATA_FILE; EvWriteFile TEMP_FILE text;
                    EvRename TEMP_FILE DATA_FILE]).

(** Sample data. *)
Definition w_empty : world := World ∅ None None None [].

Definition sample_products : list value :=
  [product 1 "A" (Q2Qc 5) true; product 2 "B" (Q2Qc (7 # 2)) false].

(** A body the validator accepts, and the product it makes. *)
Definition sample_body : value :=
  VObj [("name", VStr "A"); ("price", VNum (num_of_Z 1)); ("inStock", VBool true)].

Definition sample_product (id : Z) : value := product id "A" (Q2Qc 1) true.

(** One round: a create, then the delete of the product of id [k]. *)
Definition create_then_delete `{JsonRuntime} `{Arithmetic} (s : Z * world) : Z * world :=
  let w1 := (post_products (Request NaN sample_body) s.2).2 in
  ((s.1 + 1)%Z, (delete_product (Request (num_of_Z s.1) VUndefined) w1).2).

(** The world after a create in the empty world and [n] rounds, each
    deleting the product created before it. *)
Definition world_after `{JsonRuntime} `{Arithmetic} (n : N) : world :=
  (N.iter n create_then_delete
     (1%Z, (post_products (Request NaN sample_body) w_empty).2)).2.

(** The world after [2^53 - 1] rounds. *)
Definition world_at_limit `{JsonRuntime} `{Arithmetic} : world :=
  world_after 9007199254740991.

(* ================================================================== *)
(** * Properties *)

(** ** The model at work *)

Example trim_inner_space : trim "  a b  " = "a b".
Proof. reflexivity. Qed.

Example trim_blank : trim "   " = "".
Proof. reflexivity. Qed.

Example validate_partial_negative_price :
  validateProductInput (VObj [("price", VNum (num_of_Z (-1)))]) true
  = Normal [price_error].
Proof. reflexivity. Qed.

Example validate_partial_blank_name :
  validateProductInput (VObj [("name", VStr "  "); ("id", VNum (num_of_Z 9))]) true
  = Normal [unknown_error "id"; name_error].
Proof. reflexivity. Qed.

Example validate_full_infinite_price :
  validateProductInput
    (VObj [("name", VStr "A"); ("price", VNum PosInf); ("inStock", VBool true)]) false
  = Normal [price_error].
Proof. reflexivity. Qed.

Example validate_array_body :
  validateProductInput (VArr [VNull]) true = Normal [unknown_error "0"].
Proof. reflexivity. Qed.

Example invalid_id_examples :
  invalid_id (num_of_Z 0) = true ∧ invalid_id (Fin (Q2Qc (3 # 2))) = true
  ∧ invalid_id NaN = true ∧ invalid_id (num_of_Z 4) = false.
Proof. by vm_compute. Qed.

(** ** Strings: [trim] *)

Lemma trimStart_first (s : string) (c : ascii) :
  first_char (trimStart s) = Some c → is_ws c = false.
Proof.
  induction s as [|a r IH]; simpl; [done|].
  destruct (is_ws a) eqn:Ha; [done|].
  simpl. by intros [= <-].
Qed.

Lemma trimStart_id (s : string) :
  (∀ c, first_char s = Some c → is_ws c = false) → trimStart s = s.
Proof.
  destruct s as [|a r]; simpl; [done|].
  intros Hc. by rewrite (Hc a eq_refl).
Qed.

Lemma trimEnd_empty_first (s : string) (c : ascii) :
  trimEnd s = "" → first_char s = Some c → is_ws c = true.
Proof.
  destruct s as [|a r]; simpl; [done|].
  destruct (trimEnd r); [|done].
  destruct (is_ws a) eqn:Ha; [|done]. by intros _ [= <-].
Qed.

Lemma trimEnd_first (s : string) (c : ascii) :
  first_char (trimEnd s) = Some c → first_char s = Some c.
Proof.
  destruct s as [|a r]; simpl; [done|].
  destruct (trimEnd r); [destruct (is_ws a)|]; simpl; done.
Qed.

Lemma trimEnd_last (s : string) (c : ascii) :
  last_char (trimEnd s) = Some c → is_ws c = false.
Proof.
  revert c. induction s as [|a r IH]; simpl; [done|].
  destruct (trimEnd r) as [|b t] eqn:Hr.
  - destruct (is_ws a) eqn:Ha; simpl; [done|]. by intros c [= <-].
  - intros c Hc. apply IH. exact Hc.
Qed.

Lemma trimEnd_id (s : string) :
  (∀ c, last_char s = Some c → is_ws c = false) → trimEnd s = s.
Proof.
  induction s as [|a r IH]; simpl; [done|].
  intros Hc. destruct r as [|b t].
  - simpl. by rewrite (Hc a eq_refl).
  - rewrite IH; [done|]. intros c Hl. apply Hc. exact Hl.
Qed.

Lemma trim_no_outer_ws (s : string) : no_outer_ws (trim s).
Proof.
  split; intros c Hc.
  - apply (trimStart_first s). by apply trimEnd_first.
  - by apply (trimEnd_last (trimStart s)).
Qed.

Lemma no_outer_ws_trim (s : string) : no_outer_ws s → trim s = s.
Proof.
  intros [Hf Hl]. unfold trim. rewrite (trimStart_id s Hf). by apply trimEnd_id.
Qed.

Lemma trim_idem (s : string) : trim (trim s) = trim s.
Proof. apply no_outer_ws_trim, trim_no_outer_ws. Qed.

(** A blank text is empty or starts with white space. *)
Lemma trim_blank_first (s : string) (c : ascii) :
  trim s = "" → first_char s = Some c → is_ws c = true.
Proof.
  unfold trim. destruct s as [|a r]; simpl; [done|].
  destruct (is_ws a) eqn:Ha.
  - by intros _ [= <-].
  - intros Ht _. exfalso.
    pose proof (trimEnd_empty_first (String a r) a Ht eq_refl). congruence.
Qed.

(** ** Numbers *)

Lemma num_lt_Fin (x y : Qc) : num_lt (Fin x) (Fin y) = bool_decide (x < y)%Qc.
Proof.
  simpl. destruct (x ?= y)%Qc eqn:Hc; symmetry.
  - apply bool_decide_eq_false. rewrite Qclt_alt. congruence.
  - apply bool_decide_eq_true. by rewrite Qclt_alt.
  - apply bool_decide_eq_false. rewrite Qclt_alt. congruence.
Qed.

Lemma num_of_Z_0 : num_of_Z 0 = Fin 0%Qc.
Proof. reflexivity. Qed.

Lemma Q2Qc_lt (x y : Q) : (Q2Qc x < Q2Qc y)%Qc ↔ (x < y)%Q.
Proof. unfold Qclt. simpl. by rewrite !Qred_correct. Qed.

Lemma num_lt_Z (a b : Z) :
  num_lt (num_of_Z a) (num_of_Z b) = bool_decide (a < b)%Z.
Proof.
  unfold num_of_Z. rewrite num_lt_Fin. apply bool_decide_ext.
  by rewrite Q2Qc_lt, <- Zlt_Qlt.
Qed.

Lemma Qcplus_Z (a b : Z) :
  (Q2Qc (inject_Z a) + Q2Qc (inject_Z b))%Qc = Q2Qc (inject_Z (a + b)).
Proof.
  apply Qc_is_canon. simpl. rewrite !Qred_correct. by rewrite inject_Z_plus.
Qed.

Lemma this_of_Z (z : Z) : this (Q2Qc (inject_Z z)) = inject_Z z.
Proof. simpl. apply inject_Z_Qred. Qed.

Lemma integer_of_Z (z : Z) : integer_of (VNum (num_of_Z z)) = z.
Proof. unfold integer_of, num_of_Z. by rewrite this_of_Z. Qed.

Lemma num_of_Z_inj (a b : Z) : num_of_Z a = num_of_Z b → a = b.
Proof.
  unfold num_of_Z. intros [= Heq]. apply inject_Z_injective.
  by rewrite <- (Qred_correct (inject_Z a)), Heq, Qred_correct.
Qed.

Lemma num_le_Z (a b : Z) :
  num_le (num_of_Z a) (num_of_Z b) = bool_decide (a ≤ b)%Z.
Proof.
  unfold num_le. rewrite num_lt_Z. unfold num_of_Z, num_eq.
  destruct (decide (a ≤ b)%Z) as [Hle|Hnle].
  - rewrite (bool_decide_eq_true_2 _ Hle). apply orb_true_iff.
    destruct (decide (a < b)%Z) as [Hlt|Hnlt].
    + left. by apply bool_decide_eq_true.
    + right. apply bool_decide_eq_true. by replace b with a by lia.
  - rewrite (bool_decide_eq_false_2 _ Hnle). apply orb_false_iff. split.
    + apply bool_decide_eq_false. lia.
    + apply bool_decide_eq_false. intros Heq.
      assert (a = b); [|lia]. apply num_of_Z_inj. unfold num_of_Z. by rewrite Heq.
Qed.

(** Up to [2^53] the successor of an integer is exact. *)
Lemma num_add_succ `{Arithmetic} (z : Z) :
  (0 ≤ z < SAFE_LIMIT)%Z →
  num_add (num_of_Z z) (num_of_Z 1) = num_of_Z (z + 1).
Proof.
  intros Hz. apply num_add_exact; unfold SAFE_LIMIT in *; lia.
Qed.

Lemma isInteger_Z (a : Z) : isInteger (num_of_Z a) = true.
Proof.
  unfold num_of_Z, isInteger. apply bool_decide_eq_true. simpl.
  by rewrite inject_Z_Qred.
Qed.

(** The order on numbers, away from [NaN]. *)
Lemma num_lt_le (a b : number) : num_lt a b = true → num_le a b = true.
Proof. unfold num_le. by intros ->. Qed.

Lemma num_le_not_lt (a b : number) : num_le a b = true → num_lt b a = false.
Proof.
  unfold num_le. intros [Hlt|Heq]%orb_true_iff.
  - destruct a as [| | |x], b as [| | |y]; try done.
    rewrite num_lt_Fin in *. apply bool_decide_eq_true in Hlt.
    apply bool_decide_eq_false. by apply Qcle_not_lt, Qclt_le_weak.
  - destruct a as [| | |x], b as [| | |y]; try done.
    simpl in Heq. apply bool_decide_eq_true in Heq as ->.
    rewrite num_lt_Fin. apply bool_decide_eq_false. apply Qcle_not_lt, Qcle_refl.
Qed.

Lemma num_le_Fin (x y : Qc) : num_le (Fin x) (Fin y) = bool_decide (x ≤ y)%Qc.
Proof.
  unfold num_le. rewrite num_lt_Fin. simpl.
  destruct (decide (x ≤ y)%Qc) as [Hle|Hnle].
  - rewrite (bool_decide_eq_true_2 _ Hle). apply Qcle_lt_or_eq in Hle as [Hlt| ->].
    + by rewrite (bool_decide_eq_true_2 _ Hlt).
    + rewrite (bool_decide_eq_true_2 (y = y)) by done. apply orb_true_r.
  - rewrite (bool_decide_eq_false_2 _ Hnle). apply orb_false_iff. split.
    + apply bool_decide_eq_false. intros Hlt. by apply Hnle, Qclt_le_weak.
    + apply bool_decide_eq_false. intros ->. apply Hnle, Qcle_refl.
Qed.

Lemma num_le_trans (a b c : number) :
  num_le a b = true → num_le b c = true → num_le a c = true.
Proof.
  destruct a as [| | |x], b as [| | |y], c as [| | |z]; try done.
  rewrite !num_le_Fin. intros H1%bool_decide_eq_true H2%bool_decide_eq_true.
  apply bool_decide_eq_true. by apply Qcle_trans with y.
Qed.

Lemma num_le_lt_trans (a b c : number) :
  num_le a b = true → num_lt b c = true → num_lt a c = true.
Proof.
  destruct a as [| | |x], b as [| | |y], c as [| | |z]; try done.
  rewrite num_le_Fin, !num_lt_Fin.
  intros H1%bool_decide_eq_true H2%bool_decide_eq_true.
  apply bool_decide_eq_true. by apply Qcle_lt_trans with y.
Qed.

Lemma num_le_refl (a : number) : a ≠ NaN → num_le a a = true.
Proof.
  destruct a as [| | |x]; try done. intros _. rewrite num_le_Fin.
  apply bool_decide_eq_true, Qcle_refl.
Qed.

Lemma num_le_not_NaN (a b : number) : num_le a b = true → b ≠ NaN.
Proof. by destruct a, b. Qed.

(** ** Objects *)

Lemma assoc_is_Some (k : string) (ps : list (string * value)) :
  is_Some (assoc k ps) ↔ k ∈ ps.*1.
Proof.
  induction ps as [|[k' v] ps IH]; csimpl.
  - split; [by intros [? ?]|by intros ?%elem_of_nil].
  - rewrite elem_of_cons. destruct (decide (k' = k)) as [->|Hne].
    + split; [auto|eauto].
    + rewrite IH. split; [auto|]. by intros [->|?].
Qed.

Lemma assoc_None (k : string) (ps : list (string * value)) :
  assoc k ps = None ↔ k ∉ ps.*1.
Proof. rewrite <- assoc_is_Some, eq_None_not_Some. done. Qed.

Lemma assoc_obj_set (k k' : string) (v : value) (ps : list (string * value)) :
  assoc k (obj_set k' v ps) = if decide (k' = k) then Some v else assoc k ps.
Proof.
  induction ps as [|[k0 v0] ps IH]; csimpl.
  - done.
  - destruct (decide (k0 = k')) as [->|Hne]; csimpl.
    + destruct (decide (k' = k)); done.
    + destruct (decide (k0 = k)) as [->|Hne2].
      * by rewrite decide_False by done.
      * exact IH.
Qed.

Lemma obj_set_keys_in (k : string) (v : value) (ps : list (string * value)) :
  k ∈ ps.*1 → (obj_set k v ps).*1 = ps.*1.
Proof.
  induction ps as [|[k0 v0] ps IH]; csimpl.
  - by intros ?%elem_of_nil.
  - rewrite elem_of_cons. destruct (decide (k0 = k)) as [->|Hne]; csimpl; [done|].
    intros [->|Hin]; [done|]. by rewrite IH.
Qed.

Lemma obj_set_fresh (k : string) (v : value) (ps : list (string * value)) :
  k ∉ ps.*1 → obj_set k v ps = (ps ++ [(k, v)])%list.
Proof.
  induction ps as [|[k0 v0] ps IH]; csimpl; [done|].
  rewrite not_elem_of_cons. intros [Hne Hin].
  rewrite decide_False by done. by rewrite IH.
Qed.

(** Setting a property to the value it has changes nothing. *)
Lemma obj_set_same (k : string) (v : value) (ps : list (string * value)) :
  assoc k ps = Some v → obj_set k v ps = ps.
Proof.
  induction ps as [|[k0 v0] ps IH]; csimpl; [done|].
  destruct (decide (k0 = k)) as [->|Hne]; [by intros [= ->]|].
  intros Hk. by rewrite IH.
Qed.

Lemma spread_fresh (ps acc : list (string * value)) :
  NoDup ps.*1 → (∀ k, k ∈ ps.*1 → k ∉ acc.*1) →
  foldl (λ acc kv, obj_set kv.1 kv.2 acc) acc ps = (acc ++ ps)%list.
Proof.
  revert acc. induction ps as [|[k v] ps IH]; intros acc Hnd Hfresh; csimpl.
  - by rewrite app_nil_r.
  - csimpl in Hnd. apply NoDup_cons in Hnd as [Hk Hnd].
    rewrite obj_set_fresh by (apply Hfresh; csimpl; apply elem_of_cons; auto).
    rewrite IH; [by rewrite <- app_assoc|done|].
    intros k' Hk'. rewrite fmap_app, elem_of_app. csimpl.
    rewrite list_elem_of_singleton. intros [Hin| ->]; [|done].
    revert Hin. apply Hfresh. csimpl. apply elem_of_cons. auto.
Qed.

(** Copying an object into a fresh one gives the same properties in the
    same order. *)
Lemma spread_copy (ps : list (string * value)) :
  NoDup ps.*1 → spread (VObj ps) [] = ps.
Proof.
  intros Hnd. unfold spread. csimpl. rewrite spread_fresh; [done|done|].
  intros k _. apply not_elem_of_nil.
Qed.

Lemma assoc_foldl_set (k : string) (bps acc : list (string * value)) :
  NoDup bps.*1 →
  assoc k (foldl (λ acc kv, obj_set kv.1 kv.2 acc) acc bps)
  = match assoc k bps with Some v => Some v | None => assoc k acc end.
Proof.
  revert acc. induction bps as [|[k' v] bps IH]; intros acc Hnd; csimpl; [done|].
  csimpl in Hnd. apply NoDup_cons in Hnd as [Hk Hnd].
  rewrite IH by done. destruct (decide (k' = k)) as [->|Hne].
  - apply assoc_None in Hk. by rewrite Hk, assoc_obj_set, decide_True.
  - by rewrite assoc_obj_set, decide_False.
Qed.

Lemma foldl_set_keys (bps acc : list (string * value)) :
  (∀ k, k ∈ bps.*1 → k ∈ acc.*1) →
  (foldl (λ acc kv, obj_set kv.1 kv.2 acc) acc bps).*1 = acc.*1.
Proof.
  revert acc. induction bps as [|[k v] bps IH]; intros acc Hin; csimpl; [done|].
  assert (k ∈ acc.*1) as Hk by (apply Hin; csimpl; apply elem_of_cons; auto).
  rewrite IH; [by apply obj_set_keys_in|].
  intros k' Hk'. rewrite obj_set_keys_in by done.
  apply Hin. csimpl. apply elem_of_cons. auto.
Qed.

(** ** The validator *)

Lemma unknown_fold (keys : list string) (errs : list string) :
  foldl (λ errors k,
           push_if (negb (bool_decide (k ∈ allowedKeys))) (unknown_error k) errors)
        errs keys
  = (errs ++ (unknown_error <$> filter (λ k, k ∉ allowedKeys) keys))%list.
Proof.
  revert errs. induction keys as [|k keys IH]; intros errs; simpl.
  - by rewrite app_nil_r.
  - rewrite IH, filter_cons. unfold push_if.
    destruct (decide (k ∈ allowedKeys)) as [Hin|Hin].
    + rewrite bool_decide_eq_true_2 by done. simpl.
      by rewrite decide_False by (by intros ?).
    + rewrite bool_decide_eq_false_2 by done. simpl.
      rewrite decide_True by done. by rewrite <- app_assoc.
Qed.

Lemma keys_or_empty (body : value) : Object_keys (or_empty body) = Object_keys body.
Proof.
  unfold or_empty. destruct (truthy body) eqn:Ht; [done|].
  destruct body as [| |b|n|s|l|ps]; try done.
  simpl in Ht. apply negb_false_iff, bool_decide_eq_true in Ht. by subst.
Qed.

Lemma opt_member_field (body : value) (k : string) :
  opt_member body k = default VUndefined (field body k).
Proof. by destruct body. Qed.

Lemma name_invalid_rule (body : value) :
  name_invalid (opt_member body "name") = negb (name_rule body).
Proof.
  rewrite opt_member_field. unfold name_rule.
  destruct (field body "name") as [[| |b|n|s|l|ps]|]; try done.
  unfold name_invalid. simpl. by rewrite negb_involutive.
Qed.

Lemma price_invalid_Fin (q : Qc) :
  price_invalid (VNum (Fin q)) = negb (bool_decide (0 ≤ q)%Qc).
Proof.
  unfold price_invalid.
  change (num_lt (Fin q) (num_of_Z 0)) with (num_lt (Fin q) (Fin 0%Qc)).
  rewrite num_lt_Fin. simpl. rewrite <- bool_decide_not.
  apply bool_decide_ext, Qclt_nge.
Qed.

Lemma price_invalid_rule (body : value) :
  price_invalid (opt_member body "price") = negb (price_rule body).
Proof.
  rewrite opt_member_field. unfold price_rule.
  destruct (field body "price") as [[| |b|[| | |q]|s|l|ps]|]; try done.
  apply price_invalid_Fin.
Qed.

Lemma inStock_invalid_rule (body : value) :
  inStock_invalid (opt_member body "inStock") = negb (inStock_rule body).
Proof.
  rewrite opt_member_field. unfold inStock_rule.
  by destruct (field body "inStock") as [[| |b|n|s|l|ps]|].
Qed.

Lemma validate_full (body : value) :
  validateProductInput body false = Normal (full_errors body).
Proof.
  unfold validateProductInput, full_errors. simpl.
  rewrite unknown_fold, keys_or_empty. simpl.
  rewrite name_invalid_rule, price_invalid_rule, inStock_invalid_rule.
  unfold push_if.
  destruct (name_rule body), (price_rule body), (inStock_rule body); simpl;
    by rewrite <- ?app_assoc, ?app_nil_r.
Qed.

Lemma validate_partial_obj (bps : list (string * value)) :
  validateProductInput (VObj bps) true = Normal (partial_errors (VObj bps)).
Proof.
  unfold validateProductInput, partial_errors. simpl negb. cbv iota.
  rewrite unknown_fold, keys_or_empty. simpl has_property.
  unfold mbind, completion_bind.
  change (prop (VObj bps)) with (opt_member (VObj bps)).
  rewrite name_invalid_rule, price_invalid_rule, inStock_invalid_rule.
  unfold present, field.
  rewrite !(bool_decide_ext _ _ (assoc_is_Some _ bps)).
  unfold push_if.
  destruct (bool_decide ("name" ∈ bps.*1) && negb (name_rule (VObj bps))),
    (bool_decide ("price" ∈ bps.*1) && negb (price_rule (VObj bps))),
    (bool_decide ("inStock" ∈ bps.*1) && negb (inStock_rule (VObj bps))); simpl;
    by rewrite <- ?app_assoc, ?app_nil_r.
Qed.

Lemma validate_partial_arr (x : value) (l : list value) :
  ∃ errors, validateProductInput (VArr (x :: l)) true = Normal (unknown_error "0" :: errors).
Proof.
  unfold validateProductInput. simpl negb. cbv iota.
  rewrite unknown_fold, keys_or_empty. simpl has_property.
  unfold mbind, completion_bind, push_if.
  change (Object_keys (VArr (x :: l)))
    with ("0" :: (imap ((λ i y, (pretty i, y)) ∘ S) l).*1).
  rewrite filter_cons, decide_True by (by apply (bool_decide_unpack _)).
  simpl. repeat case_match; eauto.
Qed.

(** The bodies partial validation accepts: an object whose fields pass, or
    an empty array. *)
Lemma validate_partial_valid (body : value) :
  validateProductInput body true = Normal [] →
  body = VArr [] ∨ ∃ bps, body = VObj bps ∧ partial_errors (VObj bps) = [].
Proof.
  destruct body as [| |b|n|s|[|x l]|bps]; try done.
  - auto.
  - destruct (validate_partial_arr x l) as [errors ->]. done.
  - rewrite validate_partial_obj. intros [= Hp]. eauto.
Qed.

Lemma errors_empty (errors : list string) :
  negb (bool_decide (length errors = 0%nat)) = false → errors = [].
Proof.
  intros Hb. apply negb_false_iff, bool_decide_eq_true in Hb.
  by destruct errors.
Qed.

Lemma no_unknown_keys (keys : list string) :
  unknown_error <$> filter (λ k, k ∉ allowedKeys) keys = [] →
  Forall (λ k, k ∈ allowedKeys) keys.
Proof.
  intros Hf%fmap_nil_inv. apply Forall_forall. intros k Hk.
  destruct (decide (k ∈ allowedKeys)) as [|Hn]; [done|].
  by destruct (filter_nil_not_elem_of _ _ k Hf Hn).
Qed.

Lemma name_rule_true (body : value) :
  name_rule body = true → ∃ s, field body "name" = Some (VStr s) ∧ trim s ≠ "".
Proof.
  unfold name_rule. destruct (field body "name") as [[| |b|n|s|l|ps]|]; try done.
  intros Hs%negb_true_iff%bool_decide_eq_false. eauto.
Qed.

Lemma price_rule_true (body : value) :
  price_rule body = true → ∃ q, field body "price" = Some (VNum (Fin q)) ∧ (0 ≤ q)%Qc.
Proof.
  unfold price_rule.
  destruct (field body "price") as [[| |b|[| | |q]|s|l|ps]|]; try done.
  intros Hq%bool_decide_eq_true. eauto.
Qed.

Lemma inStock_rule_true (body : value) :
  inStock_rule body = true → ∃ b, field body "inStock" = Some (VBool b).
Proof.
  unfold inStock_rule. destruct (field body "inStock") as [[| |b|n|s|l|ps]|]; try done.
  eauto.
Qed.

(** A body full validation accepts. *)
Lemma full_errors_nil (body : value) :
  full_errors body = [] →
  ∃ bps s q b,
    body = VObj bps ∧ Forall (λ k, k ∈ allowedKeys) bps.*1
    ∧ assoc "name" bps = Some (VStr s) ∧ trim s ≠ ""
    ∧ assoc "price" bps = Some (VNum (Fin q)) ∧ (0 ≤ q)%Qc
    ∧ assoc "inStock" bps = Some (VBool b).
Proof.
  unfold full_errors.
  intros (Hu & (Hn & (Hp & Hi)%app_eq_nil)%app_eq_nil)%app_eq_nil.
  destruct (name_rule body) eqn:Hnr; [|done].
  destruct (price_rule body) eqn:Hpr; [|done].
  destruct (inStock_rule body) eqn:Hir; [|done].
  apply name_rule_true in Hnr as (s & Hs & Hts).
  apply price_rule_true in Hpr as (q & Hq & Hq0).
  apply inStock_rule_true in Hir as (b & Hb).
  destruct body as [| |?|?|?|?|bps]; try done.
  exists bps, s, q, b. repeat split; try done.
  by apply no_unknown_keys.
Qed.

(** An object partial validation accepts. *)
Lemma partial_errors_nil (bps : list (string * value)) :
  partial_errors (VObj bps) = [] →
  Forall (λ k, k ∈ allowedKeys) bps.*1
  ∧ (∀ v, assoc "name" bps = Some v → ∃ s, v = VStr s ∧ trim s ≠ "")
  ∧ (∀ v, assoc "price" bps = Some v → ∃ q, v = VNum (Fin q) ∧ (0 ≤ q)%Qc)
  ∧ (∀ v, assoc "inStock" bps = Some v → ∃ b, v = VBool b).
Proof.
  unfold partial_errors, present.
  intros (Hu & (Hn & (Hp & Hi)%app_eq_nil)%app_eq_nil)%app_eq_nil.
  split; [by apply no_unknown_keys|]. simpl field in *. repeat split.
  - intros v Hv. rewrite bool_decide_eq_true_2 in Hn by (by rewrite Hv).
    destruct (name_rule (VObj bps)) eqn:Hr; [|done].
    apply name_rule_true in Hr as (s & Hs & Hts). simpl in Hs.
    exists s. split; [congruence|done].
  - intros v Hv. rewrite bool_decide_eq_true_2 in Hp by (by rewrite Hv).
    destruct (price_rule (VObj bps)) eqn:Hr; [|done].
    apply price_rule_true in Hr as (q & Hq & Hq0). simpl in Hq.
    exists q. split; [congruence|done].
  - intros v Hv. rewrite bool_decide_eq_true_2 in Hi by (by rewrite Hv).
    destruct (inStock_rule (VObj bps)) eqn:Hr; [|done].
    apply inStock_rule_true in Hr as (b & Hb). simpl in Hb.
    exists b. congruence.
Qed.

(** ** The next id *)

Lemma reduce_max_spec (l : list value) (acc m : number) :
  acc ≠ NaN → reduce_max l acc = Normal m →
  (m = acc ∨ VNum m ∈ id_of <$> l)
  ∧ num_le acc m = true
  ∧ ∀ n, VNum n ∈ id_of <$> l → num_lt m n = false.
Proof.
  revert acc. induction l as [|p l IH]; intros acc Hacc; csimpl.
  - intros [= <-]. split; [auto|]. split; [by apply num_le_refl|].
    intros n Hn. by apply elem_of_nil in Hn.
  - unfold max_step, mbind, completion_bind.
    destruct (member p "id") as [idv|e] eqn:Hm; [|done].
    assert (idv = id_of p) as ->
      by (destruct p; unfold member, id_of in *; simplify_eq; done).
    set (max' := match id_of p with
                 | VNum n => if num_lt acc n then n else acc
                 | _ => acc
                 end).
    assert (max' ≠ NaN ∧ num_le acc max' = true
            ∧ (max' = acc ∨ VNum max' = id_of p)
            ∧ ∀ n, id_of p = VNum n → num_le n max' = true ∨ num_lt acc n = false ∧ max' = acc)
      as (Hnan & Hle & Hor & Hp).
    { unfold max'. destruct (id_of p) as [| |b|n|s|es|ps];
        try (split; [done|]; split; [by apply num_le_refl|]; split; [auto|done]).
      destruct (num_lt acc n) eqn:Hlt.
      - split; [by destruct acc, n|]. split; [by apply num_lt_le|]. split; [auto|].
        intros n' [= <-]. left. apply num_le_refl. by destruct acc, n.
      - split; [done|]. split; [by apply num_le_refl|]. split; [auto|].
        intros n' [= <-]. auto. }
    intros Hr. destruct (IH max' Hnan Hr) as (Hm' & Hle' & Hall).
    split; [|split].
    + rewrite elem_of_cons. destruct Hm' as [->|Hin]; [|auto].
      destruct Hor as [->|Heq]; auto.
    + by apply num_le_trans with max'.
    + intros n. rewrite elem_of_cons. intros [Heq|Hin]; [|by apply Hall].
      destruct (Hp n (eq_sym Heq)) as [Hn|[Hn Hmax]].
      * apply num_le_not_lt. by apply num_le_trans with max'.
      * destruct (num_lt m n) eqn:Hmn; [|done].
        rewrite Hmax in Hle'. by rewrite (num_le_lt_trans _ _ _ Hle' Hmn) in Hn.
Qed.

Lemma reduce_max_total (l : list value) (acc : number) :
  Forall (λ p, p ≠ VNull ∧ p ≠ VUndefined) l → ∃ m, reduce_max l acc = Normal m.
Proof.
  intros Hl. revert acc. induction Hl as [|p l [Hn Hu] _ IH]; intros acc; simpl.
  - by eexists.
  - unfold max_step, mbind, completion_bind.
    destruct p as [| |b|n|s|es|ps]; try done; simpl; apply IH.
Qed.

Lemma reduce_max_is_max (l : list value) (m : number) :
  reduce_max l (num_of_Z 0) = Normal m → is_max_id l m.
Proof.
  intros Hr. by destruct (reduce_max_spec l (num_of_Z 0) m) as (? & ? & ?).
Qed.

(** ** The runtime instance *)

Lemma value_nested_ind (P : value → Prop) :
  P VUndefined → P VNull → (∀ b, P (VBool b)) → (∀ n, P (VNum n)) →
  (∀ s, P (VStr s)) →
  (∀ l, Forall P l → P (VArr l)) →
  (∀ ps, Forall (λ kv, P kv.2) ps → P (VObj ps)) →
  ∀ v, P v.
Proof.
  intros HU HN HB HNum HS HA HO.
  fix IH 1. intros [| |b|n|s|l|ps].
  - exact HU.
  - exact HN.
  - apply HB.
  - apply HNum.
  - apply HS.
  - apply HA. induction l as [|x l IHl]; constructor; [apply IH | exact IHl].
  - apply HO. induction ps as [|[k x] ps IHps]; constructor; [apply IH | exact IHps].
Qed.

Lemma tree_to_value_to_tree (v : value) : tree_to_value (value_to_tree v) = v.
Proof.
  induction v as [| |b|[| | |q]|s|l IHl|ps IHps] using value_nested_ind;
    simpl; try done.
  - f_equal. induction IHl as [|x l Hx _ IH]; csimpl; [done|]. by rewrite Hx, IH.
  - f_equal. induction IHps as [|[k x] ps Hx _ IH]; csimpl; [done|].
    simpl in Hx. by rewrite Hx, IH.
Qed.

Lemma bits_to_pos_to_bits (p : positive) : bits_to_pos (pos_to_bits p) = Some p.
Proof. induction p as [p IH|p IH|]; simpl; [| |done]; by rewrite IH. Qed.

Lemma ref_parse_stringify (v : value) : ref_parse (ref_stringify v) = Some v.
Proof.
  unfold ref_parse, ref_stringify. simpl.
  rewrite bits_to_pos_to_bits. simpl. rewrite decode_encode. simpl.
  by rewrite tree_to_value_to_tree.
Qed.

Lemma ref_parse_blank (s : string) : trim s = "" → ref_parse s = None.
Proof.
  intros Hs. destruct s as [|c r]; [done|]. simpl.
  destruct (decide (c = "J"%char)) as [->|]; [|done].
  by pose proof (trim_blank_first _ _ Hs eq_refl).
Qed.

#[global] Instance ref_runtime : JsonRuntime := {|
  JSON_parse := ref_parse;
  JSON_stringify := ref_stringify;
  JSON_parse_blank := ref_parse_blank;
  JSON_parse_stringify := λ v _, ref_parse_stringify v
|}.

Lemma ref_add_exact (a b : Z) :
  (Z.abs a ≤ SAFE_LIMIT)%Z → (Z.abs b ≤ SAFE_LIMIT)%Z →
  (Z.abs (a + b) ≤ SAFE_LIMIT)%Z →
  ref_add (num_of_Z a) (num_of_Z b) = num_of_Z (a + b).
Proof.
  intros _ _ Hab.
  change (ref_add (num_of_Z a) (num_of_Z b))
    with (ref_add_finite (Q2Qc (inject_Z a)) (Q2Qc (inject_Z b))).
  unfold ref_add_finite. rewrite Qcplus_Z. cbv zeta. rewrite this_of_Z.
  by rewrite bool_decide_eq_true_2.
Qed.

Lemma ref_add_rounds :
  ref_add (num_of_Z SAFE_LIMIT) (num_of_Z 1) = num_of_Z SAFE_LIMIT.
Proof. by vm_compute. Qed.

Lemma ref_add_one_finite (x : Qc) :
  isFinite (ref_add (Fin x) (num_of_Z 1)) = true.
Proof.
  change (ref_add (Fin x) (num_of_Z 1))
    with (ref_add_finite x (Q2Qc (inject_Z 1))).
  unfold ref_add_finite. cbv zeta.
  destruct (bool_decide (_ ∧ _)); [done|].
  destruct (round_double _); [done|].
  change (huge (Q2Qc (inject_Z 1))) with false. by rewrite andb_false_r.
Qed.

#[global] Instance ref_arithmetic : Arithmetic := {|
  num_add := ref_add;
  num_add_exact := ref_add_exact;
  num_add_rounds := ref_add_rounds;
  num_add_one_finite := ref_add_one_finite
|}.

(** Sums of the instance: around [2^53]; [0.1 + 0.2], which is
    [0.30000000000000004]; the greatest double plus one, and plus itself. *)
Example sums_of_doubles :
  num_add (num_of_Z (SAFE_LIMIT + 2)) (num_of_Z 1) = num_of_Z (SAFE_LIMIT + 4)
  ∧ num_add (num_of_Z (SAFE_LIMIT + 4)) (num_of_Z 1) = num_of_Z (SAFE_LIMIT + 4)
  ∧ num_add (num_of_Z (SAFE_LIMIT - 1)) (num_of_Z 1) = num_of_Z SAFE_LIMIT
  ∧ num_add (Fin (Q2Qc (1 # 2))) (num_of_Z 1) = Fin (Q2Qc (3 # 2))
  ∧ num_add (Fin (Q2Qc (3602879701896397 # 36028797018963968)))
            (Fin (Q2Qc (3602879701896397 # 18014398509481984)))
    = Fin (Q2Qc (1351079888211149 # 4503599627370496))
  ∧ num_add (num_of_Z (2 ^ 1024 - 2 ^ 971)) (num_of_Z 1) = num_of_Z (2 ^ 1024 - 2 ^ 971)
  ∧ num_add (num_of_Z (2 ^ 1024 - 2 ^ 971)) (num_of_Z (2 ^ 1024 - 2 ^ 971)) = PosInf.
Proof. by vm_compute. Qed.

(** The handlers on the sample data. *)
Example create_in_empty_world :
  let b := VObj [("name", VStr " Widget "); ("price", VNum (Fin (Q2Qc (999 # 100))));
                 ("inStock", VBool true)] in
  let after := post_products (Request NaN b) w_empty in
  after.1 = Responds (Response 201 (Json (product 1 "Widget" (Q2Qc (999 # 100)) true)))
  ∧ persisted after.2 = [product 1 "Widget" (Q2Qc (999 # 100)) true]
  ∧ trace after.2
    = [EvReadFile DATA_FILE;
       EvWriteFile TEMP_FILE
         (JSON_stringify (VArr [product 1 "Widget" (Q2Qc (999 # 100)) true]));
       EvRename TEMP_FILE DATA_FILE]
  ∧ files after.2 !! TEMP_FILE = None.
Proof. by vm_compute. Qed.

Example update_absent_id :
  let w := (writeProducts sample_products w_empty).2 in
  let after := put_product (Request (num_of_Z 9) (VObj [("price", VNum (num_of_Z 1))])) w in
  after.1 = Responds (Response 404 (Json (message_body "Product not found")))
  ∧ files after.2 = files w.
Proof. by vm_compute. Qed.

Example delete_first_product :
  let w := (writeProducts sample_products w_empty).2 in
  let after := delete_product (Request (num_of_Z 1) VUndefined) w in
  after.1 = Responds (Response 200 (Json (message_body "Product deleted successfully")))
  ∧ persisted after.2 = [product 2 "B" (Q2Qc (7 # 2)) false].
Proof. by vm_compute. Qed.

Example save_fails_at_rename :
  let w := World ∅ None None (Some EACCES) [] in
  let after := post_products
                 (Request NaN (VObj [("name", VStr "A"); ("price", VNum (num_of_Z 1));
                                     ("inStock", VBool false)])) w in
  status_of after.1 = Some 500%nat
  ∧ files after.2 !! DATA_FILE = None
  ∧ is_Some (files after.2 !! TEMP_FILE).
Proof. vm_compute. repeat split. by eexists. Qed.

(** A write that fails once the temporary file is open leaves a part of
    the new text there; the data file is as it was. *)
Example save_fails_in_the_write :
  let w0 := (writeProducts sample_products w_empty).2 in
  let w := World (files w0) None (Some (WriteFailure ENOSPC (Some 4%nat))) None [] in
  let after := delete_product (Request (num_of_Z 1) VUndefined) w in
  status_of after.1 = Some 500%nat
  ∧ persisted after.2 = sample_products
  ∧ files after.2 !! TEMP_FILE
    = Some (String.substring 0 4
              (JSON_stringify (VArr [product 2 "B" (Q2Qc (7 # 2)) false]))).
Proof. by vm_compute. Qed.

(** Over a collection whose greatest id is [2^53], a create answers 201
    with the id [2^53] once more. *)
Example create_at_the_limit :
  let w := (writeProducts [product SAFE_LIMIT "A" (Q2Qc 5) true] w_empty).2 in
  let b := VObj [("name", VStr "B"); ("price", VNum (num_of_Z 3));
                 ("inStock", VBool false)] in
  let after := post_products (Request NaN b) w in
  after.1 = Responds (Response 201 (Json (product SAFE_LIMIT "B" (Q2Qc 3) false)))
  ∧ persisted after.2
    = [product SAFE_LIMIT "A" (Q2Qc 5) true; product SAFE_LIMIT "B" (Q2Qc 3) false].
Proof. by vm_compute. Qed.

(** ** The store *)

Section StoreFacts.
Context `{JsonRuntime}.

Lemma fault_not_ENOENT (f : fault) (path : string) :
  bool_decide (err_code (fault_error f path) = Some "ENOENT") = false.
Proof. by destruct f. Qed.

Lemma parse_products_malformed (data : string) :
  malformed data → parse_products data = [].
Proof.
  unfold parse_products. intros Hm.
  destruct (negb (truthy (VStr data)) || bool_decide (trim data = "")) eqn:Hb; [done|].
  apply orb_false_iff in Hb as [_ Hb]. apply bool_decide_eq_false in Hb.
  destruct Hm as [Hm|[Hm|(v & Hv & Harr)]]; [done| |].
  - by rewrite Hm.
  - by rewrite Hv, Harr.
Qed.

Lemma parse_products_array (data : string) (l : list value) :
  trim data ≠ "" → JSON_parse data = Some (VArr l) → parse_products data = l.
Proof.
  intros Hb Hp. unfold parse_products.
  assert (data ≠ "") as Hd by (by intros ->).
  simpl. rewrite (bool_decide_eq_false_2 (data = "")) by done.
  rewrite (bool_decide_eq_false_2 (trim data = "")) by done.
  simpl. by rewrite Hp.
Qed.

Lemma parse_products_stringify (products : list value) :
  forallb json_value products = true →
  parse_products (JSON_stringify (VArr products)) = products.
Proof.
  intros Hj.
  assert (JSON_parse (JSON_stringify (VArr products)) = Some (VArr products)) as Hp
    by (by apply JSON_parse_stringify).
  apply parse_products_array; [|done].
  intros Hb. apply JSON_parse_blank in Hb. congruence.
Qed.

Lemma write_fault_log (ev : fs_event) (w : world) :
  write_fault (log ev w) = write_fault w.
Proof. reflexivity. Qed.

Lemma rename_fault_log (ev : fs_event) (w : world) :
  rename_fault (log ev w) = rename_fault w.
Proof. reflexivity. Qed.

Lemma readProducts_eq (w : world) :
  readProducts w =
    (match read_fault w with
     | Some f => Throw (fault_error f DATA_FILE)
     | None => Normal (persisted w)
     end, log (EvReadFile DATA_FILE) w).
Proof.
  unfold readProducts, fs_readFile, persisted.
  destruct (read_fault w) as [f|].
  - by rewrite fault_not_ENOENT.
  - by destruct (files w !! DATA_FILE).
Qed.

Lemma writeProducts_eq (products : list value) (w : world) :
  let json := JSON_stringify (VArr products) in
  let w1 := log (EvWriteFile TEMP_FILE json) w in
  writeProducts products w =
    match write_fault w with
    | Some wf =>
        (Throw (fault_error (write_error wf) TEMP_FILE),
         match written wf with
         | Some n => set_files (<[TEMP_FILE := String.substring 0 n json]> (files w)) w1
         | None => w1
         end)
    | None =>
        let w2 := log (EvRename TEMP_FILE DATA_FILE)
                      (set_files (<[TEMP_FILE := json]> (files w)) w1) in
        match rename_fault w with
        | Some f => (Throw (fault_error f TEMP_FILE), w2)
        | None =>
            (Normal (),
             set_files (<[DATA_FILE := json]> (delete TEMP_FILE (<[TEMP_FILE := json]> (files w)))) w2)
        end
    end.
Proof.
  intros json w1. unfold writeProducts, mbind, io_bind, fs_writeFile, fs_rename.
  fold json. fold w1.
  destruct (write_fault w) as [f|]; [done|].
  simpl. destruct (rename_fault w) as [f|]; [done|].
  by rewrite lookup_insert_eq.
Qed.

(** A save that succeeds leaves the text of the collection in the data
    file. *)
Lemma writeProducts_ok (products : list value) (w w' : world) :
  writeProducts products w = (Normal (), w') →
  files w' !! DATA_FILE = Some (JSON_stringify (VArr products))
  ∧ read_fault w' = read_fault w ∧ write_fault w' = write_fault w
  ∧ rename_fault w' = rename_fault w.
Proof.
  rewrite writeProducts_eq. simpl.
  destruct (write_fault w) as [f|] eqn:Hw; [done|].
  destruct (rename_fault w) as [f|] eqn:Hr; [done|].
  intros [= <-]. simpl. by rewrite lookup_insert_eq.
Qed.

Lemma writeProducts_persisted (products : list value) (w w' : world) :
  forallb json_value products = true →
  writeProducts products w = (Normal (), w') →
  persisted w' = products.
Proof.
  intros Hj Hw. apply writeProducts_ok in Hw as (Hf & _).
  unfold persisted. rewrite Hf. by apply parse_products_stringify.
Qed.

End StoreFacts.

(** ** The handlers: which status comes from where *)

Section HandlerFacts.
Context `{JsonRuntime} `{Arithmetic}.

Lemma in_stock_spec (p : value) : in_stock p = stock_true p.
Proof.
  destruct p as [| |b|n|s|l|ps]; unfold in_stock, stock_true; simpl;
    rewrite ?andb_false_r; try done.
  destruct (assoc "inStock" ps) as [[| |[|]|n|s|l|qs]|]; done.
Qed.

Lemma filter_ext_bool (f g : value → bool) (l : list value) :
  (∀ x, f x = g x) → List.filter f l = List.filter g l.
Proof. intros Hfg. induction l as [|x l IH]; simpl; [done|]. by rewrite Hfg, IH. Qed.

Lemma filter_sublist (f : value → bool) (l : list value) :
  sublist (List.filter f l) l.
Proof.
  induction l as [|x l IH]; simpl; [constructor|].
  destruct (f x); by constructor.
Qed.

Lemma findIndex_Some (f : value → bool) (l : list value) (i : nat) :
  findIndex f l = Some i → ∃ x, l !! i = Some x ∧ f x = true.
Proof.
  revert i. induction l as [|y l IH]; intros i; simpl; [done|].
  destruct (f y) eqn:Hy.
  - intros [= <-]. eauto.
  - destruct (findIndex f l) as [j|]; [|done]. intros [= <-].
    destruct (IH j eq_refl) as (x & Hx & Hf). eauto.
Qed.

Lemma findIndex_None (f : value → bool) (l : list value) :
  findIndex f l = None ↔ existsb f l = false.
Proof.
  induction l as [|y l IH]; simpl; [done|].
  destruct (f y); simpl; [done|].
  rewrite <- IH. by destruct (findIndex f l).
Qed.

Lemma post_try_eq (b : value) (w : world) :
  let w1 := log (EvReadFile DATA_FILE) w in
  post_try b w =
    match read_fault w with
    | Some f => (Throw (fault_error f DATA_FILE), w1)
    | None =>
        match reduce_max (persisted w) (num_of_Z 0) with
        | Throw e => (Throw e, w1)
        | Normal maxId =>
            match member b "name" ≫= trim_method with
            | Throw e => (Throw e, w1)
            | Normal name =>
                match member b "price" with
                | Throw e => (Throw e, w1)
                | Normal price =>
                    match member b "inStock" with
                    | Throw e => (Throw e, w1)
                    | Normal inStock =>
                        let newProduct :=
                          VObj [("id", VNum (num_add maxId (num_of_Z 1)));
                                ("name", name); ("price", price);
                                ("inStock", inStock)] in
                        match writeProducts (persisted w ++ [newProduct]) w1 with
                        | (Normal _, w2) => (Normal (Response 201 (Json newProduct)), w2)
                        | (Throw e, w2) => (Throw e, w2)
                        end
                    end
                end
            end
        end
    end.
Proof.
  intros w1. unfold post_try.
  unfold mbind at 1. unfold io_bind at 1. rewrite readProducts_eq. fold w1.
  destruct (read_fault w) as [f|]; [done|].
  unfold mbind at 1, io_bind at 1, lift at 1.
  destruct (reduce_max (persisted w) (num_of_Z 0)) as [maxId|e]; [|done].
  unfold mbind at 1, io_bind at 1, lift at 1.
  destruct (member b "name" ≫= trim_method) as [name|e]; [|done].
  unfold mbind at 1, io_bind at 1, lift at 1.
  destruct (member b "price") as [price|e]; [|done].
  unfold mbind at 1, io_bind at 1, lift at 1.
  destruct (member b "inStock") as [inStock|e]; [|done].
  unfold mbind at 1, io_bind at 1.
  by destruct (writeProducts _ w1) as [[[]|e] w2].
Qed.

Lemma put_try_eq (id : number) (b : value) (w : world) :
  let w1 := log (EvReadFile DATA_FILE) w in
  put_try id b w =
    match read_fault w with
    | Some f => (Throw (fault_error f DATA_FILE), w1)
    | None =>
        match findIndex (has_id id) (persisted w) with
        | None => (Normal (Response 404 (Json (message_body "Product not found"))), w1)
        | Some idx =>
            let updated := merge (default VUndefined (persisted w !! idx)) b in
            match writeProducts (<[idx := VObj updated]> (persisted w)) w1 with
            | (Normal _, w2) => (Normal (Response 200 (Json (VObj updated))), w2)
            | (Throw e, w2) => (Throw e, w2)
            end
        end
    end.
Proof.
  intros w1. unfold put_try.
  unfold mbind at 1. unfold io_bind at 1. rewrite readProducts_eq. fold w1.
  destruct (read_fault w) as [f|]; [done|].
  destruct (findIndex (has_id id) (persisted w)) as [idx|]; [|done].
  unfold mbind at 1, io_bind at 1.
  by destruct (writeProducts _ w1) as [[[]|e] w2].
Qed.

Lemma delete_try_eq (id : number) (w : world) :
  let w1 := log (EvReadFile DATA_FILE) w in
  delete_try id w =
    match read_fault w with
    | Some f => (Throw (fault_error f DATA_FILE), w1)
    | None =>
        let remaining := List.filter (other_id id) (persisted w) in
        if bool_decide (length remaining = length (persisted w)) then
          (Normal (Response 404 (Json (message_body "Product not found"))), w1)
        else
          match writeProducts remaining w1 with
          | (Normal _, w2) =>
              (Normal (Response 200 (Json (message_body "Product deleted successfully"))), w2)
          | (Throw e, w2) => (Throw e, w2)
          end
    end.
Proof.
  intros w1. unfold delete_try.
  unfold mbind at 1. unfold io_bind at 1. rewrite readProducts_eq. fold w1.
  destruct (read_fault w) as [f|]; [done|].
  destruct (bool_decide _); [done|].
  unfold mbind at 1, io_bind at 1.
  by destruct (writeProducts _ w1) as [[[]|e] w2].
Qed.

Lemma post_try_status (b : value) (w w' : world) (r : response) :
  post_try b w = (Normal r, w') → status r = 201%nat.
Proof.
  unfold post_try, mbind, io_bind, lift, mret, io_ret.
  intros Hp. repeat case_match; by simplify_eq.
Qed.

Lemma put_try_status (id : number) (b : value) (w w' : world) (r : response) :
  put_try id b w = (Normal r, w') → status r = 404%nat ∨ status r = 200%nat.
Proof.
  unfold put_try, mbind, io_bind, lift, mret, io_ret.
  intros Hp. repeat case_match; simplify_eq; auto.
Qed.

Lemma delete_try_status (id : number) (w w' : world) (r : response) :
  delete_try id w = (Normal r, w') → status r = 404%nat ∨ status r = 200%nat.
Proof.
  unfold delete_try, mbind, io_bind, lift, mret, io_ret.
  intros Hp. repeat case_match; simplify_eq; auto.
Qed.

(** What a create that answers 201 has done. *)
Lemma post_products_201 (req : request) (w w' : world) (r : response) :
  post_products req w = (Responds r, w') → status r = 201%nat →
  ∃ bps s q b maxId,
    body req = VObj bps
    ∧ Forall (λ k, k ∈ allowedKeys) bps.*1
    ∧ assoc "name" bps = Some (VStr s) ∧ trim s ≠ ""
    ∧ assoc "price" bps = Some (VNum (Fin q)) ∧ (0 ≤ q)%Qc
    ∧ assoc "inStock" bps = Some (VBool b)
    ∧ read_fault w = None
    ∧ reduce_max (persisted w) (num_of_Z 0) = Normal maxId
    ∧ let newProduct :=
        VObj [("id", VNum (num_add maxId (num_of_Z 1))); ("name", VStr (trim s));
              ("price", VNum (Fin q)); ("inStock", VBool b)] in
      r = Response 201 (Json newProduct)
      ∧ writeProducts (persisted w ++ [newProduct]) (log (EvReadFile DATA_FILE) w)
        = (Normal (), w').
Proof.
  unfold post_products. rewrite validate_full.
  destruct (negb (bool_decide (length (full_errors (body req)) = 0%nat))) eqn:He.
  { intros [= <- _]. done. }
  apply errors_empty, full_errors_nil in He
    as (bps & s & q & b & Hb & Hk & Hn & Hs & Hp & Hq & Hi).
  rewrite post_try_eq, Hb. simpl.
  destruct (read_fault w) as [f|]; [by intros [= <- _]|].
  destruct (reduce_max (persisted w) (num_of_Z 0)) as [maxId|e]; [|by intros [= <- _]].
  rewrite Hn, Hp, Hi. simpl.
  destruct (writeProducts _ _) as [[[]|e] w2] eqn:Hw; [|by intros [= <- _]].
  intros [= <- <-] _. exists bps, s, q, b, maxId. by repeat split.
Qed.

(** What an update that answers 200 has done. *)
Lemma put_product_200 (req : request) (w w' : world) (r : response) :
  put_product req w = (Responds r, w') → status r = 200%nat →
  invalid_id (param_id req) = false
  ∧ validateProductInput (body req) true = Normal []
  ∧ read_fault w = None
  ∧ ∃ idx stored,
      findIndex (has_id (param_id req)) (persisted w) = Some idx
      ∧ persisted w !! idx = Some stored
      ∧ has_id (param_id req) stored = true
      ∧ r = Response 200 (Json (VObj (merge stored (body req))))
      ∧ writeProducts (<[idx := VObj (merge stored (body req))]> (persisted w))
                      (log (EvReadFile DATA_FILE) w)
        = (Normal (), w').
Proof.
  unfold put_product.
  destruct (invalid_id (param_id req)); [by intros [= <- _]|].
  destruct (validateProductInput (body req) true) as [errors|e]; [|done].
  destruct (negb (bool_decide (length errors = 0%nat))) eqn:He; [by intros [= <- _]|].
  apply errors_empty in He as ->.
  rewrite put_try_eq. simpl.
  destruct (read_fault w) as [f|]; [by intros [= <- _]|].
  destruct (findIndex (has_id (param_id req)) (persisted w)) as [idx|] eqn:Hi;
    [|by intros [= <- _]].
  destruct (findIndex_Some _ _ _ Hi) as (stored & Hl & Hs).
  rewrite Hl. simpl.
  destruct (writeProducts _ _) as [[[]|e] w2] eqn:Hw; [|by intros [= <- _]].
  intros [= <- <-] _. repeat split; try done. by exists idx, stored.
Qed.

(** An update with a well-formed id of a stored record and a body the
    validator accepts succeeds when the file system does not fail. *)
Lemma put_product_succeeds (req : request) (w : world) (idx : nat) (stored : value) :
  invalid_id (param_id req) = false →
  validateProductInput (body req) true = Normal [] →
  read_fault w = None → write_fault w = None → rename_fault w = None →
  findIndex (has_id (param_id req)) (persisted w) = Some idx →
  persisted w !! idx = Some stored →
  let updated := VObj (merge stored (body req)) in
  ∃ w', put_product req w = (Responds (Response 200 (Json updated)), w')
        ∧ files w' !! DATA_FILE
          = Some (JSON_stringify (VArr (<[idx := updated]> (persisted w)))).
Proof.
  intros Hid Hv Hr Hw Hrn Hi Hl updated. unfold put_product.
  rewrite Hid, Hv. simpl. rewrite put_try_eq, Hr, Hi, Hl. simpl.
  rewrite writeProducts_eq, write_fault_log, rename_fault_log, Hw, Hrn.
  eexists. split; [reflexivity|]. simpl. by rewrite lookup_insert_eq.
Qed.

(** What a delete that answers 200 has done. *)
Lemma delete_product_200 (req : request) (w w' : world) (r : response) :
  delete_product req w = (Responds r, w') → status r = 200%nat →
  invalid_id (param_id req) = false
  ∧ read_fault w = None
  ∧ length (List.filter (other_id (param_id req)) (persisted w)) ≠ length (persisted w)
  ∧ writeProducts (List.filter (other_id (param_id req)) (persisted w))
                  (log (EvReadFile DATA_FILE) w)
    = (Normal (), w').
Proof.
  unfold delete_product.
  destruct (invalid_id (param_id req)); [by intros [= <- _]|].
  rewrite delete_try_eq. simpl.
  destruct (read_fault w) as [f|]; [by intros [= <- _]|].
  destruct (bool_decide _) eqn:Hl; [by intros [= <- _]|].
  apply bool_decide_eq_false in Hl.
  destruct (writeProducts _ _) as [[[]|e] w2] eqn:Hw; [|by intros [= <- _]].
  by intros [= <- <-] _.
Qed.

End HandlerFacts.

(* ================================================================== *)
(** * The claims *)

(** ** The store *)

(** C2. [readProducts] never fails on missing or malformed data: when the
    file does not exist, or its text is empty or white space, or is not
    JSON, or is the JSON of a non-array, it resolves with the empty list;
    every other failure of the read rejects with that error. *)
Theorem C2_load_total `{JsonRuntime} :
  (∀ w, read_fault w = None →
        (files w !! DATA_FILE = None
         ∨ ∃ data, files w !! DATA_FILE = Some data ∧ malformed data) →
        (readProducts w).1 = Normal [])
  ∧ (∀ w f, read_fault w = Some f →
            (readProducts w).1 = Throw (fault_error f DATA_FILE)).
Proof.
  split.
  - intros w Hf Hd. rewrite readProducts_eq, Hf. simpl. f_equal.
    unfold persisted. destruct Hd as [->|(data & -> & Hm)]; [done|].
    by apply parse_products_malformed.
  - intros w f Hf. by rewrite readProducts_eq, Hf.
Qed.

Lemma C2_witness :
  (readProducts (World {[DATA_FILE := "  "]} None None None [])).1 = Normal []
  ∧ (readProducts (World {[DATA_FILE := "[]"]} (Some EACCES) None None [])).1
    = Throw (fault_error EACCES DATA_FILE).
Proof.
  split.
  - apply (proj1 C2_load_total); [reflexivity|].
    right. exists "  ". split; [reflexivity|]. left. reflexivity.
  - apply (proj2 C2_load_total). reflexivity.
Defined.

(** Every product of the data model is a value that JSON carries. *)
Lemma is_product_json_value (p : value) : is_product p → json_value p = true.
Proof. intros [id name price inStock _ _ _ _]. by vm_compute. Qed.

(** C8. Round trip of the store: when [writeProducts products] resolves,
    the next [readProducts] resolves with [products] itself, the same
    records with the same fields in the same order; and the save does
    resolve when neither the write nor the rename fails.  [products] is any
    list of values that JSON carries, as every product of the data model
    is. *)
Theorem C8_save_load_round_trip `{JsonRuntime}
    (products : list value) (w : world) :
  forallb json_value products = true →
  (∀ w', writeProducts products w = (Normal (), w') →
         read_fault w' = None →
         (readProducts w').1 = Normal products)
  ∧ (write_fault w = None → rename_fault w = None →
     ∃ w', writeProducts products w = (Normal (), w')).
Proof.
  intros Hj. split.
  - intros w' Hw Hr. rewrite readProducts_eq, Hr. simpl. f_equal.
    by apply (writeProducts_persisted products w).
  - intros Hw Hr. rewrite writeProducts_eq, Hw, Hr. by eexists.
Qed.

Lemma C8_witness :
  (readProducts (writeProducts sample_products w_empty).2).1 = Normal sample_products.
Proof.
  apply (proj1 (C8_save_load_round_trip sample_products w_empty eq_refl)).
  - vm_compute. reflexivity.
  - vm_compute. reflexivity.
Defined.

(** ** The validator *)

(** C5. Full-mode validation reports every failing rule: first one
    [Unknown field] error per key outside the allowed ones, in the order of
    the keys of the input, then the [name], [price] and [inStock] errors in
    that order; a field that is missing gets the message of a field of the
    wrong type; the body [{foo:1}] gets exactly four errors. *)
Theorem C5_full_validation :
  (∀ body, validateProductInput body false = Normal (full_errors body))
  ∧ (∀ body errors, validateProductInput body false = Normal errors →
       ((field body "name" = None
         ∨ ∃ v, field body "name" = Some v ∧ typeof v ≠ "string") →
        name_error ∈ errors)
       ∧ ((field body "price" = None
           ∨ ∃ v, field body "price" = Some v ∧ typeof v ≠ "number") →
          price_error ∈ errors)
       ∧ ((field body "inStock" = None
           ∨ ∃ v, field body "inStock" = Some v ∧ typeof v ≠ "boolean") →
          inStock_error ∈ errors))
  ∧ validateProductInput (VObj [("foo", VNum (num_of_Z 1))]) false
    = Normal [unknown_error "foo"; name_error; price_error; inStock_error].
Proof.
  split; [exact validate_full|]. split; [|reflexivity].
  intros body errors. rewrite validate_full. intros [= <-].
  unfold full_errors. repeat split.
  - intros Hn. assert (name_rule body = false) as ->.
    { unfold name_rule. destruct Hn as [->|(v & -> & Hv)]; [done|]. by destruct v. }
    rewrite !elem_of_app, list_elem_of_singleton. auto.
  - intros Hn. assert (price_rule body = false) as ->.
    { unfold price_rule. destruct Hn as [->|(v & -> & Hv)]; [done|]. by destruct v. }
    rewrite !elem_of_app, (list_elem_of_singleton price_error). auto.
  - intros Hn. assert (inStock_rule body = false) as ->.
    { unfold inStock_rule. destruct Hn as [->|(v & -> & Hv)]; [done|]. by destruct v. }
    rewrite !elem_of_app, (list_elem_of_singleton inStock_error). auto.
Qed.

Lemma C5_witness :
  name_error ∈ [unknown_error "foo"; name_error; price_error; inStock_error].
Proof.
  apply (proj1 (proj1 (proj2 C5_full_validation)
                  (VObj [("foo", VNum (num_of_Z 1))]) _ eq_refl)).
  left. reflexivity.
Defined.

(** C9. In partial mode the validator does not take an absent body for an
    empty object: on [undefined] and on [null] it throws, at the first
    [in], although [Object.keys(body || {})] above it and the full mode next
    to it (with [body?.name]) both allow for such a body; an update with no
    body then ends in an error no handler catches.  With the empty object
    the claim holds: no errors, and the stored record is written back with
    its [name] trimmed. *)
Theorem C9_absent_body_partial_mode `{JsonRuntime} :
  (∃ e, validateProductInput VUndefined true = Throw e)
  ∧ (∃ e, validateProductInput VNull true = Throw e)
  ∧ (∀ w, ∃ e, put_product (Request (num_of_Z 1) VUndefined) w = (Unhandled e, w))
  ∧ validateProductInput VUndefined false
    = Normal [name_error; price_error; inStock_error]
  ∧ validateProductInput (VObj []) true = Normal []
  ∧ (let stored := product 1 " A " (Q2Qc 5) true in
     let w := World {[DATA_FILE := JSON_stringify (VArr [stored])]} None None None [] in
     let after := put_product (Request (num_of_Z 1) (VObj [])) w in
     after.1 = Responds (Response 200 (Json (product 1 "A" (Q2Qc 5) true)))
     ∧ persisted after.2 = [product 1 "A" (Q2Qc 5) true]).
Proof.
  split; [by eexists|]. split; [by eexists|]. split; [intros w; by eexists|].
  split; [done|]. split; [done|].
  intros stored w after.
  assert (persisted w = [stored]) as Hp.
  { unfold persisted, w. simpl. rewrite lookup_singleton_eq.
    by apply parse_products_stringify. }
  destruct (put_product_succeeds (Request (num_of_Z 1) (VObj [])) w 0 stored)
    as (w' & Hput & Hfile); try done; try (by rewrite Hp).
  unfold after. rewrite Hput. split; [done|].
  unfold persisted. simpl. rewrite Hfile, Hp. by apply parse_products_stringify.
Qed.

(** ** The listings and the rejections *)

(** C7. The in-stock listing is the loaded collection filtered, in its
    order, to the records whose [inStock] field is the boolean [true]; a
    record whose [inStock] is [1] or ["yes"] is left out. *)
Theorem C7_instock_filter `{JsonRuntime}
    (req : request) (w w' : world) (products : list value) :
  readProducts w = (Normal products, w') →
  get_instock req w
    = (Responds (Response 200 (Json (VArr (List.filter stock_true products)))), w')
  ∧ sublist (List.filter stock_true products) products
  ∧ (∀ p, p ∈ List.filter stock_true products
          ↔ p ∈ products ∧ field p "inStock" = Some (VBool true))
  ∧ List.filter stock_true
      [VObj [("inStock", VNum (num_of_Z 1))]; VObj [("inStock", VStr "yes")]] = [].
Proof.
  intros Hr. split; [|split; [|split; [|reflexivity]]].
  - unfold get_instock. rewrite Hr.
    by rewrite (filter_ext_bool in_stock stock_true products in_stock_spec).
  - apply filter_sublist.
  - intros p. rewrite !list_elem_of_In, filter_In. unfold stock_true.
    destruct (field p "inStock") as [[| |[|]|n|s|l|qs]|]; intuition congruence.
Qed.

Lemma C7_witness :
  get_instock (Request NaN VUndefined) (writeProducts sample_products w_empty).2
  = (Responds (Response 200 (Json (VArr (List.filter stock_true sample_products)))),
     log (EvReadFile DATA_FILE) (writeProducts sample_products w_empty).2).
Proof.
  apply (C7_instock_filter (Request NaN VUndefined)
           (writeProducts sample_products w_empty).2 _ sample_products).
  vm_compute. reflexivity.
Defined.

(** C10. A create or an update that answers 400 has not touched the store:
    the world after it, with its files and with the list of file system
    calls made, is the world before it. *)
Theorem C10_rejection_touches_nothing `{JsonRuntime} `{Arithmetic}
    (req : request) (w w' : world) (r : response) :
  status r = 400%nat →
  (post_products req w = (Responds r, w') → w' = w)
  ∧ (put_product req w = (Responds r, w') → w' = w).
Proof.
  intros Hs. split.
  - unfold post_products.
    destruct (validateProductInput (body req) false) as [errors|e]; [|done].
    destruct (negb (bool_decide (length errors = 0%nat))); [by intros [= _ <-]|].
    destruct (post_try (body req) w) as [[r'|err] w1] eqn:Hp.
    + intros [= <- <-]. apply post_try_status in Hp. congruence.
    + intros [= <- _]. done.
  - unfold put_product. destruct (invalid_id (param_id req)); [by intros [= _ <-]|].
    destruct (validateProductInput (body req) true) as [errors|e]; [|done].
    destruct (negb (bool_decide (length errors = 0%nat))); [by intros [= _ <-]|].
    destruct (put_try (param_id req) (body req) w) as [[r'|err] w1] eqn:Hp.
    + intros [= <- <-]. apply put_try_status in Hp. destruct Hp; congruence.
    + intros [= <- _]. done.
Qed.

Lemma C10_witness :
  (post_products (Request NaN (VObj [("foo", VNum (num_of_Z 1))])) w_empty).2 = w_empty.
Proof.
  apply (proj1 (C10_rejection_touches_nothing
                  (Request NaN (VObj [("foo", VNum (num_of_Z 1))])) w_empty _
                  (Response 400 (Json (invalid_input
                     [unknown_error "foo"; name_error; price_error; inStock_error])))
                  eq_refl)).
  reflexivity.
Defined.

(** ** The merge of an update *)

Lemma merge_assoc (ps : list (string * value)) (body : value) (k : string) :
  NoDup ps.*1 → NoDup (Object_keys body) →
  assoc k (merge (VObj ps) body)
  = retrim k <$> (match assoc k (own_props body) with
                  | Some v => Some v
                  | None => assoc k ps
                  end).
Proof.
  intros Hps Hb. unfold merge. rewrite spread_copy by done.
  assert (∀ k', assoc k' (spread body ps)
                = match assoc k' (own_props body) with
                  | Some v => Some v
                  | None => assoc k' ps
                  end) as Hsp.
  { intros k'. by apply assoc_foldl_set. }
  rewrite <- (Hsp k). unfold retrim.
  destruct (assoc "name" (spread body ps)) as [v|] eqn:Hn.
  - destruct v as [| |b|n|s|l|qs];
      try (destruct (decide (k = "name")) as [->|]; [by rewrite Hn|by destruct (assoc k _)]).
    rewrite assoc_obj_set. destruct (decide (k = "name")) as [->|Hne].
    + by rewrite decide_True, Hn.
    + rewrite decide_False by done. by destruct (assoc k _).
  - destruct (decide (k = "name")) as [->|]; [by rewrite Hn|by destruct (assoc k _)].
Qed.

(** C4. An update merges the body over the stored record: a field of the
    body replaces the stored one, a field the body lacks keeps its value,
    and [name] is trimmed when it is a string; the record so merged is what
    the handler answers with and what it writes in place of the stored one.
    On [{id:1,name:"A",price:5,inStock:true}] the body [{price:7}] gives
    [{id:1,name:"A",price:7,inStock:true}], as the answer of the update and
    as the stored record. *)
Theorem C4_partial_update_merge `{JsonRuntime} :
  (∀ ps body k,
     NoDup ps.*1 → NoDup (Object_keys body) →
     validateProductInput body true = Normal [] →
     field (VObj (merge (VObj ps) body)) k
     = retrim k <$> (match field body k with
                     | Some v => Some v
                     | None => field (VObj ps) k
                     end))
  ∧ (let stored := product 1 "A" (Q2Qc 5) true in
     let w := World {[DATA_FILE := JSON_stringify (VArr [stored])]} None None None [] in
     let after :=
       put_product (Request (num_of_Z 1) (VObj [("price", VNum (num_of_Z 7))])) w in
     after.1 = Responds (Response 200 (Json (product 1 "A" (Q2Qc 7) true)))
     ∧ persisted after.2 = [product 1 "A" (Q2Qc 7) true])
  ∧ (∀ req w r w',
       put_product req w = (Responds r, w') → status r = 200%nat →
       ∃ idx stored,
         persisted w !! idx = Some stored
         ∧ has_id (param_id req) stored = true
         ∧ sent r = Json (VObj (merge stored (body req)))
         ∧ files w' !! DATA_FILE
           = Some (JSON_stringify
                     (VArr (<[idx := VObj (merge stored (body req))]> (persisted w))))).
Proof.
  split; [|split].
  - intros ps body k Hps Hb Hv. simpl field at 1 3. rewrite merge_assoc by done.
    destruct (validate_partial_valid body Hv) as [->|(bps & -> & _)]; done.
  - intros stored w after.
    assert (persisted w = [stored]) as Hp.
    { unfold persisted, w. simpl. rewrite lookup_singleton_eq.
      by apply parse_products_stringify. }
    destruct (put_product_succeeds
                (Request (num_of_Z 1) (VObj [("price", VNum (num_of_Z 7))])) w 0 stored)
      as (w' & Hput & Hfile); try done; try (by rewrite Hp).
    unfold after. rewrite Hput. split; [done|].
    unfold persisted. simpl. rewrite Hfile, Hp. by apply parse_products_stringify.
  - intros req w r w' Hput Hs.
    destruct (put_product_200 req w w' r Hput Hs)
      as (_ & _ & _ & idx & stored & _ & Hl & Hid & -> & Hw).
    exists idx, stored. repeat split; try done.
    by apply writeProducts_ok in Hw as (Hf & _).
Qed.

Lemma C4_witness :
  field (VObj (merge (product 1 "A" (Q2Qc 5) true)
                 (VObj [("price", VNum (num_of_Z 7))]))) "price"
  = Some (VNum (num_of_Z 7)).
Proof.
  apply (proj1 C4_partial_update_merge
           [("id", VNum (num_of_Z 1)); ("name", VStr "A");
            ("price", VNum (Fin (Q2Qc 5))); ("inStock", VBool true)]
           (VObj [("price", VNum (num_of_Z 7))]) "price").
  - apply (bool_decide_unpack _). vm_compute. exact I.
  - apply (bool_decide_unpack _). vm_compute. exact I.
  - reflexivity.
Defined.

(** ** Deleting *)

Lemma filter_length_all (f : value → bool) (l : list value) :
  length (List.filter f l) = length l ↔ forallb f l = true.
Proof.
  induction l as [|x l IH]; simpl; [done|].
  pose proof (filter_length_le f l) as Hle.
  destruct (f x); simpl; [rewrite <- IH; lia|]. split; [lia|done].
Qed.

Lemma other_id_truthy (id : number) (p : value) :
  truthy p = true → other_id id p = negb (has_id id p).
Proof. unfold other_id, has_id. by intros ->. Qed.

Lemma filter_other_id (id : number) (l : list value) :
  Forall (λ p, truthy p = true) l →
  List.filter (other_id id) l = List.filter (λ p, negb (has_id id p)) l.
Proof.
  induction 1 as [|p l Hp _ IH]; simpl; [done|].
  by rewrite (other_id_truthy id p Hp), IH.
Qed.

Lemma forallb_not_existsb (f : value → bool) (l : list value) :
  forallb (λ p, negb (f p)) l = negb (existsb f l).
Proof.
  induction l as [|x l IH]; simpl; [done|]. rewrite IH. by destruct (f x).
Qed.

(** Over a loaded collection whose entries are all truthy (as objects
    are), a delete with a well-formed id keeps exactly the records that do
    not have that id, in their order: if no record has it the answer is 404
    and the files are as they were, otherwise a delete that answers 200 has
    written the other records.  An update with a valid body and an id that
    no record has is answered with 404 and leaves the files as they were,
    over every loaded collection. *)
Lemma delete_and_not_found `{JsonRuntime} (req : request) (w : world) :
  invalid_id (param_id req) = false →
  read_fault w = None →
  let id := param_id req in
  (Forall (λ p, truthy p = true) (persisted w) →
   (existsb (has_id id) (persisted w) = false →
    (delete_product req w).1
      = Responds (Response 404 (Json (message_body "Product not found")))
    ∧ files (delete_product req w).2 = files w)
   ∧ (existsb (has_id id) (persisted w) = true →
      ∀ r w', delete_product req w = (Responds r, w') →
        (status r = 200%nat ∨ status r = 500%nat)
        ∧ (status r = 200%nat →
           files w' !! DATA_FILE
           = Some (JSON_stringify
                     (VArr (List.filter (λ p, negb (has_id id p)) (persisted w)))))))
  ∧ (validateProductInput (body req) true = Normal [] →
     existsb (has_id id) (persisted w) = false →
     (put_product req w).1
       = Responds (Response 404 (Json (message_body "Product not found")))
     ∧ files (put_product req w).2 = files w).
Proof.
  intros Hid Hr id. subst id. split.
  - intros Ht. unfold delete_product. rewrite Hid, delete_try_eq, Hr.
    cbv zeta. rewrite (filter_other_id (param_id req) _ Ht).
    split.
    + intros Hex.
      rewrite bool_decide_eq_true_2; [done|].
      apply filter_length_all. by rewrite forallb_not_existsb, Hex.
    + intros Hex r w'.
      rewrite bool_decide_eq_false_2.
      2:{ rewrite filter_length_all, forallb_not_existsb, Hex. done. }
      destruct (writeProducts _ _) as [[[]|e] w2] eqn:Hw.
      * intros [= <- <-]. split; [by left|]. intros _.
        by apply writeProducts_ok in Hw as (Hf & _).
      * intros [= <- <-]. split; [by right|]. done.
  - intros Hv Hex. unfold put_product. rewrite Hid, Hv. simpl.
    rewrite put_try_eq, Hr.
    by rewrite (proj2 (findIndex_None (has_id (param_id req)) (persisted w)) Hex).
Qed.

(** C6. The delete misses a case.  Over the collection
    [[null, {id:1,...}]] no record has the id 2; the update answers 404 and
    leaves the files alone, as the claim says, but the delete answers 200
    and rewrites the file without the [null] entry: its filter
    [p => p && p.id !== id] drops every falsy entry along with the matching
    records, and the test on the lengths then takes that for a removal. *)
Theorem C6_delete_absent_id_over_null `{JsonRuntime} :
  let stored := product 1 "A" (Q2Qc 5) true in
  let w := World {[DATA_FILE := JSON_stringify (VArr [VNull; stored])]}
                 None None None [] in
  let req := Request (num_of_Z 2) (VObj []) in
  persisted w = [VNull; stored]
  ∧ existsb (has_id (num_of_Z 2)) (persisted w) = false
  ∧ (put_product req w).1
    = Responds (Response 404 (Json (message_body "Product not found")))
  ∧ files (put_product req w).2 = files w
  ∧ (delete_product req w).1
    = Responds (Response 200 (Json (message_body "Product deleted successfully")))
  ∧ persisted (delete_product req w).2 = [stored].
Proof.
  intros stored w req.
  assert (persisted w = [VNull; stored]) as Hp.
  { unfold persisted, w. simpl. rewrite lookup_singleton_eq.
    by apply parse_products_stringify. }
  split; [done|]. split; [by rewrite Hp|].
  destruct (proj2 (delete_and_not_found req w eq_refl eq_refl)) as [Hput Hfiles];
    [done|by rewrite Hp|].
  split; [done|]. split; [done|].
  unfold delete_product.
  change (invalid_id (param_id req)) with false. cbv iota.
  rewrite delete_try_eq, Hp. simpl read_fault. cbv iota zeta.
  change (List.filter (other_id (param_id req)) [VNull; stored]) with [stored].
  simpl bool_decide. cbv iota.
  rewrite writeProducts_eq. simpl. split; [done|].
  unfold persisted. simpl. rewrite lookup_insert_eq.
  by apply parse_products_stringify.
Qed.

(** ** Creating *)

Lemma assoc_elem_of (k : string) (ps : list (string * value)) (v : value) :
  assoc k ps = Some v → (k, v) ∈ ps.
Proof.
  induction ps as [|[k' v'] ps IH]; simpl; [done|].
  destruct (decide (k' = k)) as [->|Hne].
  - intros [= ->]. apply elem_of_cons. auto.
  - intros Hk. apply elem_of_cons. auto.
Qed.

Lemma forallb_elem_of (f : value → bool) (l : list value) (x : value) :
  forallb f l = true → x ∈ l → f x = true.
Proof.
  intros Hf Hx. rewrite forallb_forall in Hf. by apply Hf, list_elem_of_In.
Qed.

Lemma id_finite (l : list value) (n : number) :
  forallb json_value l = true → VNum n ∈ id_of <$> l → isFinite n = true.
Proof.
  intros Hj (p & Hid & Hp)%list_elem_of_fmap.
  pose proof (forallb_elem_of _ _ _ Hj Hp) as Hjp.
  destruct p as [| |b|n'|s|es|ps]; try done.
  unfold id_of in Hid. simpl in Hid, Hjp.
  destruct (assoc "id" ps) as [v|] eqn:Ha; [|done]. simpl in Hid. subst v.
  apply andb_true_iff in Hjp as [Hall _]. rewrite forallb_forall in Hall.
  apply assoc_elem_of, list_elem_of_In in Ha. by apply (Hall _ Ha).
Qed.

Lemma max_id_finite (l : list value) (m : number) :
  forallb json_value l = true → is_max_id l m → ∃ x, m = Fin x.
Proof.
  intros Hj ([->|Hin] & _ & _); [by eexists|].
  apply (id_finite l m Hj) in Hin. destruct m; try done. by eexists.
Qed.

Lemma SAFE_LIMIT_pos : (0 < SAFE_LIMIT)%Z.
Proof. reflexivity. Qed.

Lemma ids_below_mono (b b' : Z) (l : list value) :
  (b ≤ b')%Z → ids_below b l → ids_below b' l.
Proof.
  intros Hb Hl n Hn. destruct (Hl n Hn) as (z & -> & Hz). exists z. split; [done|lia].
Qed.

(** The greatest id of a collection whose ids are integers below [bound]. *)
Lemma max_id_below (bound : Z) (l : list value) (m : number) :
  (0 < bound)%Z → ids_below bound l → is_max_id l m →
  ∃ z, m = num_of_Z z ∧ (0 ≤ z < bound)%Z
       ∧ ∀ n, VNum n ∈ id_of <$> l → ∃ y, n = num_of_Z y ∧ (y ≤ z)%Z.
Proof.
  intros Hb Hl (Hm & Hle & Hmax).
  assert (∃ z, m = num_of_Z z ∧ (z < bound)%Z) as (z & -> & Hz).
  { destruct Hm as [->|Hin]; [|by apply Hl]. exists 0%Z. split; [done|lia]. }
  rewrite num_le_Z in Hle. apply bool_decide_eq_true in Hle.
  exists z. split; [done|]. split; [lia|].
  intros n Hn. destruct (Hl n Hn) as (y & -> & Hy). exists y. split; [done|].
  specialize (Hmax _ Hn). rewrite num_lt_Z in Hmax.
  apply bool_decide_eq_false in Hmax. lia.
Qed.

(** Below [2^53] the next id is the successor of the greatest id, and is
    above every id. *)
Lemma below_next_id `{Arithmetic} (l : list value) (m n : number) :
  ids_below SAFE_LIMIT l → is_max_id l m → VNum n ∈ id_of <$> l →
  num_lt n (num_add m (num_of_Z 1)) = true.
Proof.
  intros Hl Hm Hn.
  destruct (max_id_below SAFE_LIMIT l m SAFE_LIMIT_pos Hl Hm) as (z & -> & Hz & Hall).
  destruct (Hall n Hn) as (y & -> & Hy).
  rewrite num_add_succ by done. rewrite num_lt_Z. apply bool_decide_eq_true. lia.
Qed.

Section CreateFacts.
Context `{JsonRuntime} `{Arithmetic}.

(** One create that succeeds, over a collection that JSON carries. *)
Lemma post_products_step (req : request) (w w' : world) (r : response) :
  post_products req w = (Responds r, w') → status r = 201%nat →
  forallb json_value (persisted w) = true →
  ∃ m s q b,
    is_max_id (persisted w) m
    ∧ trim s ≠ "" ∧ (0 ≤ q)%Qc
    ∧ let newProduct :=
        VObj [("id", VNum (num_add m (num_of_Z 1))); ("name", VStr (trim s));
              ("price", VNum (Fin q)); ("inStock", VBool b)] in
      r = Response 201 (Json newProduct)
      ∧ persisted w' = (persisted w ++ [newProduct])%list
      ∧ forallb json_value (persisted w') = true.
Proof.
  intros Hp Hs Hj.
  destruct (post_products_201 req w w' r Hp Hs)
    as (bps & s & q & b & m & _ & _ & _ & Hts & _ & Hq & _ & _ & Hm & Hr & Hw).
  apply reduce_max_is_max in Hm.
  exists m, s, q, b. split; [done|]. split; [done|]. split; [done|].
  cbv zeta. split; [done|].
  assert (forallb json_value
            (persisted w ++ [VObj [("id", VNum (num_add m (num_of_Z 1)));
                                   ("name", VStr (trim s));
                                   ("price", VNum (Fin q)); ("inStock", VBool b)]])
          = true) as Hj'.
  { rewrite forallb_app, Hj. destruct (max_id_finite _ _ Hj Hm) as [x ->].
    simpl. by rewrite num_add_one_finite. }
  rewrite (writeProducts_persisted _ _ _ Hj' Hw). done.
Qed.

(** A create with a body the validator accepts succeeds when the file
    system does not fail and no entry of the collection is [null]. *)
Lemma post_products_succeeds (req : request) (w : world) :
  full_errors (body req) = [] →
  read_fault w = None → write_fault w = None → rename_fault w = None →
  Forall (λ p, p ≠ VNull ∧ p ≠ VUndefined) (persisted w) →
  ∃ r w', post_products req w = (Responds r, w') ∧ status r = 201%nat.
Proof.
  intros Hfull Hr Hw Hrn Hl. unfold post_products.
  rewrite validate_full, Hfull. simpl.
  destruct (full_errors_nil _ Hfull) as (bps & s & q & b & Hb & _ & Hn & _ & Hp & _ & Hi).
  rewrite post_try_eq, Hr, Hb.
  destruct (reduce_max_total (persisted w) (num_of_Z 0) Hl) as [m ->].
  simpl. rewrite Hn, Hp, Hi. simpl.
  rewrite writeProducts_eq, write_fault_log, rename_fault_log, Hw, Hrn.
  by eexists _, _.
Qed.

End CreateFacts.

(** C3, as worded, fails: ids are reused.  Over the collection
    [[{id:1,...}]], deleting product 1 (the highest id) and creating a
    product assigns the id 1 again. *)
Lemma C3_counterexample : ¬ ids_never_reused.
Proof.
  intros Hc.
  pose (w := (writeProducts [product 1 "A" (Q2Qc 5) true] w_empty).2).
  pose (w1 := (delete_product (Request (num_of_Z 1) VUndefined) w).2).
  pose (b := VObj [("name", VStr "B"); ("price", VNum (num_of_Z 3));
                   ("inStock", VBool false)]).
  apply (Hc ref_runtime ref_arithmetic w w1 (post_products (Request NaN b) w1).2 (num_of_Z 1) b
           (Response 200 (Json (message_body "Product deleted successfully")))
           (Response 201 (Json (product 1 "B" (Q2Qc 3) false)))).
  - vm_compute. reflexivity.
  - reflexivity.
  - vm_compute. reflexivity.
  - reflexivity.
  - vm_compute. reflexivity.
Qed.

(** C3, amended.  A create that succeeds assigns the id [m + 1], the sum
    as doubles add, where [m] is the greatest of zero and the numeric ids of
    the collection it loaded.  Over a collection whose ids are integers
    below [2^53] that sum is exact, so the new id is greater than every id
    of the collection; and creating products one after the other gives
    strictly increasing ids, each greater than every id the collection had,
    as long as the ids stay within [2^53] (the greatest id plus the number
    of creates is at most [2^53]).  At [2^53] the sum is rounded:
    the new id is [2^53] again.  A create with a valid body does succeed
    when the file system does not fail and the collection has no [null]
    entry.  Nothing is said of the ids of deleted products: the next id
    depends on the collection as it is. *)
Theorem C3_create_assigns_next_id `{JsonRuntime} `{Arithmetic} :
  (∀ req w,
     full_errors (body req) = [] →
     read_fault w = None → write_fault w = None → rename_fault w = None →
     Forall (λ p, p ≠ VNull ∧ p ≠ VUndefined) (persisted w) →
     ∃ r w', post_products req w = (Responds r, w') ∧ status r = 201%nat)
  ∧ (∀ req w r w',
     post_products req w = (Responds r, w') → status r = 201%nat →
     ∃ m, is_max_id (persisted w) m
          ∧ created_id (Responds r) = VNum (num_add m (num_of_Z 1))
          ∧ (ids_below SAFE_LIMIT (persisted w) →
             (∃ z, m = num_of_Z z ∧ created_id (Responds r) = VNum (num_of_Z (z + 1)))
             ∧ ∀ n, VNum n ∈ id_of <$> persisted w →
                    num_lt n (num_add m (num_of_Z 1)) = true)
          ∧ (m = num_of_Z SAFE_LIMIT →
             created_id (Responds r) = VNum (num_of_Z SAFE_LIMIT)))
  ∧ (∀ bodies w rs w',
       post_many bodies w = (rs, w') →
       Forall (λ r, status_of r = Some 201%nat) rs →
       forallb json_value (persisted w) = true →
       (Z.of_nat (length bodies) ≤ SAFE_LIMIT)%Z →
       ids_below (SAFE_LIMIT + 1 - Z.of_nat (length bodies)) (persisted w) →
       ∃ ns, created_id <$> rs = VNum <$> ns
             ∧ StronglySorted (λ a b, num_lt a b = true) ns
             ∧ ∀ a n, a ∈ ns → VNum n ∈ id_of <$> persisted w → num_lt n a = true).
Proof.
  split; [exact post_products_succeeds|]. split.
  - intros req w r w' Hp Hs.
    destruct (post_products_201 req w w' r Hp Hs)
      as (bps & s & q & b & m & _ & _ & _ & _ & _ & _ & _ & _ & Hm & -> & _).
    apply reduce_max_is_max in Hm. exists m. split; [done|]. split; [done|].
    split.
    + intros Hl. split; [|intros n Hn; by apply (below_next_id (persisted w))].
      destruct (max_id_below SAFE_LIMIT _ m SAFE_LIMIT_pos Hl Hm) as (z & -> & Hz & _).
      exists z. split; [done|]. cbv zeta. unfold created_id, id_of. simpl.
      by rewrite num_add_succ.
    + intros ->. cbv zeta. unfold created_id, id_of. simpl.
      by rewrite num_add_rounds.
  - induction bodies as [|b bodies IH]; intros w rs w'; simpl length; simpl post_many.
    + intros [= <- <-] _ _ _ _. exists []. split; [done|]. split; [constructor|].
      intros a n Ha. by apply elem_of_nil in Ha.
    + destruct (post_products (Request NaN b) w) as [r w1] eqn:Hp.
      destruct (post_many bodies w1) as [rs' w2] eqn:Hm.
      intros [= <- <-] Hall Hj Hlen Hl. apply Forall_cons in Hall as [Hr Hall].
      destruct r as [r|e]; [|done]. simpl in Hr. injection Hr as Hr.
      destruct (post_products_step _ _ _ _ Hp Hr Hj)
        as (m & s & q & b' & Hmax & _ & _ & -> & Hw1 & Hj1).
      assert (ids_below SAFE_LIMIT (persisted w)) as Hsafe.
      { apply (ids_below_mono (SAFE_LIMIT + 1 - Z.of_nat (S (length bodies))));
          [lia|done]. }
      destruct (max_id_below (SAFE_LIMIT + 1 - Z.of_nat (S (length bodies)))
                  (persisted w) m)
        as (z & Hmz & Hz & Hbelow); [lia|done|done|].
      assert (num_add m (num_of_Z 1) = num_of_Z (z + 1)) as Hnew.
      { rewrite Hmz. apply num_add_succ. lia. }
      assert (ids_below (SAFE_LIMIT + 1 - Z.of_nat (length bodies)) (persisted w1))
        as Hl1.
      { intros n. rewrite Hw1, fmap_app, elem_of_app. intros [Hn|Hn].
        - destruct (Hl n Hn) as (y & -> & Hy). exists y. split; [done|lia].
        - apply list_elem_of_singleton in Hn. unfold id_of in Hn. simpl in Hn.
          injection Hn as ->. exists (z + 1)%Z. split; [done|lia]. }
      destruct (IH w1 rs' w2 Hm Hall Hj1 ltac:(lia) Hl1) as (ns & Hids & Hsorted & Hgt).
      exists (num_add m (num_of_Z 1) :: ns). split; [|split].
      * csimpl. by rewrite Hids.
      * constructor; [done|]. apply Forall_forall. intros a Ha.
        apply (Hgt a _ Ha). rewrite Hw1, fmap_app, elem_of_app. right.
        apply list_elem_of_singleton. reflexivity.
      * intros a n [->|Ha]%elem_of_cons Hn.
        -- by apply (below_next_id (persisted w)).
        -- apply (Hgt a n Ha). rewrite Hw1, fmap_app, elem_of_app. by left.
Qed.

Lemma C3_witness :
  ∃ m, is_max_id (persisted (writeProducts sample_products w_empty).2) m
       ∧ created_id
           (post_products (Request NaN (VObj [("name", VStr "C");
                                             ("price", VNum (num_of_Z 3));
                                             ("inStock", VBool true)]))
              (writeProducts sample_products w_empty).2).1
         = VNum (num_add m (num_of_Z 1))
       ∧ ∀ n, VNum n ∈ id_of <$> persisted (writeProducts sample_products w_empty).2 →
              num_lt n (num_add m (num_of_Z 1)) = true.
Proof.
  pose (w := (writeProducts sample_products w_empty).2).
  pose (req := Request NaN (VObj [("name", VStr "C"); ("price", VNum (num_of_Z 3));
                                  ("inStock", VBool true)])).
  destruct (proj1 (proj2 C3_create_assigns_next_id) req w
              (Response 201 (Json (product 3 "C" (Q2Qc 3) true)))
              (post_products req w).2) as (m & Hm & Hid & Hbelow & _).
  - vm_compute. reflexivity.
  - reflexivity.
  - exists m. split; [exact Hm|]. split; [rewrite <- Hid; vm_compute; reflexivity|].
    apply Hbelow. intros n.
    assert (persisted w = sample_products) as -> by (vm_compute; reflexivity).
    intros [Hn|Hn%list_elem_of_singleton]%elem_of_cons.
    + exists 1%Z. split; [by injection Hn|reflexivity].
    + exists 2%Z. split; [by injection Hn|reflexivity].
Defined.

(** ** The invariant of the collection *)

Lemma valid_partial_props (body : value) :
  validateProductInput body true = Normal [] →
  Forall (λ k, k ∈ allowedKeys) (own_props body).*1
  ∧ (∀ v, assoc "name" (own_props body) = Some v → ∃ s, v = VStr s ∧ trim s ≠ "")
  ∧ (∀ v, assoc "price" (own_props body) = Some v → ∃ q, v = VNum (Fin q) ∧ (0 ≤ q)%Qc)
  ∧ (∀ v, assoc "inStock" (own_props body) = Some v → ∃ b, v = VBool b).
Proof.
  intros [->|(bps & -> & Hp)]%validate_partial_valid.
  - simpl. by repeat split.
  - by apply partial_errors_nil.
Qed.

Lemma product_record_shape (ps : list (string * value)) :
  ps.*1 = ["id"; "name"; "price"; "inStock"] →
  ps = [("id", default VUndefined (assoc "id" ps));
        ("name", default VUndefined (assoc "name" ps));
        ("price", default VUndefined (assoc "price" ps));
        ("inStock", default VUndefined (assoc "inStock" ps))].
Proof.
  destruct ps as [|[k1 v1] [|[k2 v2] [|[k3 v3] [|[k4 v4] [|? ?]]]]]; try done.
  by intros [= -> -> -> ->].
Qed.

Lemma allowed_is_product_key (k : string) :
  k ∈ allowedKeys → k ∈ ["id"; "name"; "price"; "inStock"].
Proof. intros Hk. apply elem_of_cons. by right. Qed.

Lemma merge_keys (ps : list (string * value)) (body : value) :
  NoDup ps.*1 →
  (∀ k, k ∈ (own_props body).*1 → k ∈ ps.*1) →
  (merge (VObj ps) body).*1 = ps.*1.
Proof.
  intros Hps Hin. unfold merge. rewrite spread_copy by done.
  assert ((spread body ps).*1 = ps.*1) as Hk by (by apply foldl_set_keys).
  destruct (assoc "name" (spread body ps)) as [[| |b|n|s|es|qs]|] eqn:Hn; try done.
  rewrite obj_set_keys_in; [done|]. apply assoc_is_Some. by rewrite Hn.
Qed.

(** An update accepted by the validator turns a product into a product
    with the same id. *)
Lemma merge_product (id : Z) (name : string) (price : Qc) (b : bool) (body : value) :
  name ≠ "" → no_outer_ws name → (0 ≤ price)%Qc →
  NoDup (Object_keys body) →
  validateProductInput body true = Normal [] →
  ∃ name' price' b',
    VObj (merge (product id name price b) body) = product id name' price' b'
    ∧ name' ≠ "" ∧ no_outer_ws name' ∧ (0 ≤ price')%Qc.
Proof.
  intros Hne Hws Hprice Hnd Hv.
  destruct (valid_partial_props body Hv) as (Hkeys & Hname & Hpr & Hst).
  set (ps := [("id", VNum (num_of_Z id)); ("name", VStr name);
              ("price", VNum (Fin price)); ("inStock", VBool b)]).
  change (product id name price b) with (VObj ps).
  assert (NoDup ps.*1) as Hps by (by apply (bool_decide_unpack _)).
  assert (assoc "id" (own_props body) = None) as Hid.
  { apply assoc_None. intros Hin. rewrite Forall_forall in Hkeys.
    apply Hkeys in Hin. revert Hin. by apply (bool_decide_unpack _). }
  assert ((merge (VObj ps) body).*1 = ["id"; "name"; "price"; "inStock"]) as Hshape.
  { rewrite merge_keys; [done|done|]. intros k Hk.
    apply allowed_is_product_key. rewrite Forall_forall in Hkeys. by apply Hkeys. }
  rewrite (product_record_shape _ Hshape), !merge_assoc by done.
  rewrite Hid. unfold product.
  destruct (assoc "name" (own_props body)) as [vn|] eqn:Hn;
    [destruct (Hname vn eq_refl) as (s & -> & Hs)|];
  (destruct (assoc "price" (own_props body)) as [vp|] eqn:Hp;
    [destruct (Hpr vp eq_refl) as (q & -> & Hq)|]);
  (destruct (assoc "inStock" (own_props body)) as [vs|] eqn:Hs';
    [destruct (Hst vs eq_refl) as (b' & ->)|]);
  simpl; eexists _, _, _; (split; [reflexivity|]);
  rewrite ?(no_outer_ws_trim name Hws); eauto using trim_no_outer_ws.
Qed.

Lemma id_of_product (id : Z) (name : string) (price : Qc) (b : bool) :
  id_of (product id name price b) = VNum (num_of_Z id).
Proof. reflexivity. Qed.

Lemma collection_json (l : list value) :
  Forall is_product l → forallb json_value l = true.
Proof.
  intros Hl. apply forallb_forall. intros p Hp%list_elem_of_In.
  rewrite Forall_forall in Hl. by apply is_product_json_value, Hl.
Qed.

Lemma filter_sublist_mono (P : Z → Prop) `{!∀ z, Decision (P z)} (l1 l2 : list Z) :
  sublist l1 l2 → sublist (filter P l1) (filter P l2).
Proof.
  induction 1 as [|x l1 l2 _ IH|x l1 l2 _ IH]; [constructor| |].
  - rewrite !filter_cons. case_decide; [by constructor|done].
  - rewrite filter_cons. case_decide; [by constructor|done].
Qed.

Lemma filter_all (P : Z → Prop) `{!∀ z, Decision (P z)} (l : list Z) :
  Forall P l → filter P l = l.
Proof.
  induction 1 as [|x l Hx _ IH]; [done|].
  by rewrite filter_cons_True, IH.
Qed.

Lemma ids_under_app (bound : Z) (l1 l2 : list value) :
  ids_under bound (l1 ++ l2) = (ids_under bound l1 ++ ids_under bound l2)%list.
Proof. unfold ids_under. by rewrite !fmap_app, filter_app. Qed.

Lemma ids_under_product (bound z : Z) (name : string) (price : Qc) (b : bool) :
  ids_under bound [product z name price b] = if decide (z < bound)%Z then [z] else [].
Proof.
  change (ids_under bound [product z name price b])
    with (filter (λ y, y < bound)%Z [integer_of (VNum (num_of_Z z))]).
  rewrite integer_of_Z, filter_cons, filter_nil. by case_decide.
Qed.

Lemma elem_of_ids_under (bound z : Z) (l : list value) :
  Forall is_product l → z ∈ ids_under bound l →
  (z < bound)%Z ∧ VNum (num_of_Z z) ∈ id_of <$> l.
Proof.
  intros Hl [Hz Hin]%list_elem_of_filter. split; [done|].
  apply list_elem_of_fmap in Hin as (v & -> & Hv).
  apply list_elem_of_fmap in Hv as (p & -> & Hp).
  rewrite Forall_forall in Hl. destruct (Hl p Hp) as [id name price b _ _ _ _].
  rewrite id_of_product, integer_of_Z.
  apply list_elem_of_fmap. exists (product id name price b). by rewrite id_of_product.
Qed.

(** When every id is below the limit, the invariant the code keeps is the
    invariant of the specification. *)
Lemma collection_kept_ok (l : list value) :
  collection_kept l → ids_below SAFE_LIMIT l → collection_ok l.
Proof.
  intros (Hall & _ & Hnd) Hl. split; [done|].
  apply (NoDup_fmap_1 integer_of). unfold ids_under in Hnd.
  rewrite filter_all in Hnd; [done|].
  apply Forall_forall. intros z (v & -> & Hv)%list_elem_of_fmap.
  apply list_elem_of_fmap in Hv as (p & -> & Hp).
  rewrite Forall_forall in Hall. destruct (Hall p Hp) as [id name price b _ _ _ _].
  rewrite id_of_product, integer_of_Z.
  destruct (Hl (num_of_Z id)) as (y & Hy & Hlt).
  - apply list_elem_of_fmap. exists (product id name price b). by rewrite id_of_product.
  - by rewrite (num_of_Z_inj _ _ Hy).
Qed.

Section InvariantSteps.
Context `{JsonRuntime} `{Arithmetic}.

(** The id a create assigns over a collection the code keeps: the
    successor of the greatest id, or [2^53] again when that is the greatest
    id. *)
Lemma next_id_kept (l : list value) (m : number) :
  Forall is_product l → ids_below (SAFE_LIMIT + 1) l → is_max_id l m →
  ∃ z, num_add m (num_of_Z 1) = num_of_Z z
       ∧ (0 < z ≤ SAFE_LIMIT)%Z
       ∧ ((z < SAFE_LIMIT)%Z → ∀ y, VNum (num_of_Z y) ∈ id_of <$> l → (y < z)%Z).
Proof.
  intros Hall Hl Hm. pose proof SAFE_LIMIT_pos as Hpos.
  destruct (max_id_below (SAFE_LIMIT + 1) l m) as (z & -> & Hz & Hmax);
    [lia|done|done|].
  destruct (decide (z < SAFE_LIMIT)%Z) as [Hlt|Hge].
  - exists (z + 1)%Z. rewrite num_add_succ by lia. split; [done|]. split; [lia|].
    intros _ y Hy. destruct (Hmax _ Hy) as (y' & Hy' & Hle).
    apply num_of_Z_inj in Hy' as ->. lia.
  - assert (z = SAFE_LIMIT) as -> by lia. exists SAFE_LIMIT.
    rewrite num_add_rounds. split; [done|]. split; lia.
Qed.

Lemma create_preserves (req : request) (w w' : world) (r : response) :
  collection_kept (persisted w) →
  post_products req w = (Responds r, w') → status r = 201%nat →
  collection_kept (persisted w').
Proof.
  intros (Hall & Hl & Hnd) Hp Hs.
  destruct (post_products_step req w w' r Hp Hs (collection_json _ Hall))
    as (m & s & q & b & Hm & Hts & Hq & _ & Hw & _).
  destruct (next_id_kept _ m Hall Hl Hm) as (z & Hz & Hpos & Hnew).
  rewrite Hz in Hw. rewrite Hw.
  change (VObj [("id", VNum (num_of_Z z)); ("name", VStr (trim s));
                ("price", VNum (Fin q)); ("inStock", VBool b)])
    with (product z (trim s) q b).
  split; [|split].
  - apply Forall_app. split; [done|]. apply Forall_singleton.
    apply (IsProduct z (trim s) q b); [lia|done|apply trim_no_outer_ws|done].
  - intros n. rewrite fmap_app, elem_of_app. intros [Hn|Hn]; [by apply Hl|].
    apply list_elem_of_singleton in Hn. rewrite id_of_product in Hn.
    injection Hn as ->. exists z. split; [done|lia].
  - rewrite ids_under_app. apply NoDup_app. split; [done|].
    rewrite ids_under_product.
    destruct (decide (z < SAFE_LIMIT)%Z) as [Hlt|Hge].
    + split; [|apply NoDup_singleton].
      intros y Hy ->%list_elem_of_singleton.
      apply elem_of_ids_under in Hy as [_ Hy]; [|done].
      specialize (Hnew Hlt _ Hy). lia.
    + split; [|constructor]. intros y _ Hy. by apply elem_of_nil in Hy.
Qed.

Lemma update_preserves (req : request) (w w' : world) (r : response) :
  collection_kept (persisted w) →
  NoDup (Object_keys (body req)) →
  put_product req w = (Responds r, w') → status r = 200%nat →
  collection_kept (persisted w') ∧ id_of <$> persisted w' = id_of <$> persisted w.
Proof.
  intros (Hall & Hl & Hnd) Hb Hp Hs.
  destruct (put_product_200 req w w' r Hp Hs)
    as (_ & Hv & _ & idx & stored & _ & Hlk & _ & _ & Hw).
  assert (is_product stored) as Hst.
  { rewrite Forall_forall in Hall. apply Hall. by eapply list_elem_of_lookup_2. }
  destruct Hst as [id name price b Hid Hne Hws Hpr].
  destruct (merge_product id name price b (body req) Hne Hws Hpr Hb Hv)
    as (name' & price' & b' & Hm & Hne' & Hws' & Hpr').
  rewrite Hm in Hw.
  assert (Forall is_product (<[idx := product id name' price' b']> (persisted w))) as Hall'.
  { apply Forall_insert; [done|]. by constructor. }
  rewrite (writeProducts_persisted _ _ _ (collection_json _ Hall') Hw).
  assert (id_of <$> <[idx := product id name' price' b']> (persisted w)
          = id_of <$> persisted w) as Hids.
  { rewrite list_fmap_insert. apply list_insert_id.
    by rewrite list_lookup_fmap, Hlk. }
  split; [|done]. split; [done|]. unfold ids_below, ids_under. by rewrite Hids.
Qed.

Lemma delete_preserves (req : request) (w w' : world) (r : response) :
  collection_kept (persisted w) →
  delete_product req w = (Responds r, w') → status r = 200%nat →
  collection_kept (persisted w').
Proof.
  intros (Hall & Hl & Hnd) Hp Hs.
  destruct (delete_product_200 req w w' r Hp Hs) as (_ & _ & _ & Hw).
  assert (Forall is_product (List.filter (other_id (param_id req)) (persisted w)))
    as Hall'.
  { apply Forall_forall. intros p Hp'%list_elem_of_In%filter_In.
    rewrite Forall_forall in Hall. apply Hall, list_elem_of_In, Hp'. }
  rewrite (writeProducts_persisted _ _ _ (collection_json _ Hall') Hw).
  assert (sublist (id_of <$> List.filter (other_id (param_id req)) (persisted w))
                  (id_of <$> persisted w)) as Hsub
    by apply fmap_sublist, filter_sublist.
  split; [done|]. split.
  - intros n Hn. apply Hl. by apply (elem_of_sublist _ _ _ Hn).
  - apply (sublist_NoDup _ (ids_under SAFE_LIMIT (persisted w))); [done|].
    by apply filter_sublist_mono, fmap_sublist.
Qed.

Lemma reachable_kept (w : world) : reachable w → collection_kept (persisted w).
Proof.
  induction 1 as [w Hw|req w r w' _ IH Hp Hs|req w r w' _ IH Hb Hp Hs
                  |req w r w' _ IH Hp Hs].
  - rewrite Hw. split; [constructor|]. split; [|constructor].
    intros n Hn. by apply elem_of_nil in Hn.
  - by apply (create_preserves req w w' r).
  - by apply (update_preserves req w w' r).
  - by apply (delete_preserves req w w' r).
Qed.

(** *** Reaching the limit

    A collection of one record is taken from id [k] to id [k + 1] by
    creating a product and deleting the one before it; so every id up to
    [2^53] is reached, by requests that all succeed. *)

Lemma invalid_id_Z (z : Z) : (0 < z)%Z → invalid_id (num_of_Z z) = false.
Proof.
  intros Hz. unfold invalid_id. rewrite isInteger_Z, num_le_Z. simpl.
  apply bool_decide_eq_false. lia.
Qed.

Lemma strict_eq_Z (a b : Z) :
  strict_eq (VNum (num_of_Z a)) (VNum (num_of_Z b)) = bool_decide (a = b).
Proof.
  simpl. apply bool_decide_ext. split; [|by intros ->].
  intros Heq. apply num_of_Z_inj. unfold num_of_Z. by rewrite Heq.
Qed.

Lemma max_id_of_one (p : value) (k : Z) (m : number) :
  id_of p = VNum (num_of_Z k) → (0 < k)%Z → is_max_id [p] m → m = num_of_Z k.
Proof.
  intros Hid Hk (Hm & _ & Hmax).
  destruct Hm as [->|Hin].
  - specialize (Hmax (num_of_Z k)). rewrite num_lt_Z in Hmax.
    apply bool_decide_eq_false in Hmax; [lia|].
    csimpl. rewrite Hid. apply list_elem_of_singleton. reflexivity.
  - csimpl in Hin. rewrite Hid in Hin. apply list_elem_of_singleton in Hin.
    by injection Hin.
Qed.

Lemma delete_product_succeeds (req : request) (w : world) :
  invalid_id (param_id req) = false →
  read_fault w = None → write_fault w = None → rename_fault w = None →
  length (List.filter (other_id (param_id req)) (persisted w)) ≠ length (persisted w) →
  ∃ r w', delete_product req w = (Responds r, w') ∧ status r = 200%nat.
Proof.
  intros Hid Hr Hw Hrn Hlen. unfold delete_product. rewrite Hid, delete_try_eq, Hr.
  cbv zeta. rewrite bool_decide_eq_false_2 by done.
  rewrite writeProducts_eq, write_fault_log, rename_fault_log, Hw, Hrn.
  by eexists _, _.
Qed.

Lemma sample_is_product (k : Z) : (0 < k)%Z → is_product (sample_product k).
Proof.
  intros Hk. apply (IsProduct k "A" (Q2Qc 1) true); [done|done| |done].
  split; intros c [= <-]; reflexivity.
Qed.

(** A create with the sample body, over a collection the code keeps, in a
    world where the file system does not fail. *)
Lemma create_sample (w : world) :
  reachable w →
  read_fault w = None → write_fault w = None → rename_fault w = None →
  ∃ m,
    is_max_id (persisted w) m
    ∧ let w' := (post_products (Request NaN sample_body) w).2 in
      reachable w'
      ∧ read_fault w' = None ∧ write_fault w' = None ∧ rename_fault w' = None
      ∧ persisted w'
        = (persisted w ++ [VObj [("id", VNum (num_add m (num_of_Z 1))); ("name", VStr "A");
                                 ("price", VNum (num_of_Z 1)); ("inStock", VBool true)]])%list.
Proof.
  intros Hreach Hr Hwf Hrn.
  pose proof (reachable_kept w Hreach) as (Hall & _ & _).
  set (req := Request NaN sample_body).
  destruct (post_products_succeeds req w eq_refl Hr Hwf Hrn) as (r & w' & Hp & Hs).
  { eapply Forall_impl; [exact Hall|]. intros p Hp. by destruct Hp. }
  destruct (post_products_201 req w w' r Hp Hs)
    as (bps & s & q & b & m & Hb & _ & Hn & _ & Hq & _ & Hi & _ & Hm & Hr1 & Hw).
  injection Hb as <-. injection Hn as <-. injection Hq as <-. injection Hi as <-.
  change (trim "A") with "A" in Hr1.
  apply writeProducts_ok in Hw as (_ & Hr' & Hwf' & Hrn').
  destruct (post_products_step req w w' r Hp Hs (collection_json _ Hall))
    as (m' & s' & q' & b' & _ & _ & _ & Hr2 & Hpers & _).
  apply reduce_max_is_max in Hm. exists m. split; [done|].
  cbv zeta. rewrite Hp. simpl snd.
  split; [by apply (reach_create req w r w')|].
  split; [by rewrite Hr'|]. split; [by rewrite Hwf'|]. split; [by rewrite Hrn'|].
  rewrite Hpers. do 2 f_equal. unfold num_of_Z in *. congruence.
Qed.

Lemma other_id_sample (k j : Z) :
  other_id (num_of_Z k) (sample_product j) = negb (bool_decide (j = k)).
Proof.
  unfold other_id, sample_product, product, prop. simpl assoc. simpl default.
  simpl truthy. by rewrite strict_eq_Z.
Qed.

(** One round takes the collection of the one product of id [k] to the
    collection of the one product of id [k + 1]. *)
Lemma one_round (w : world) (k : Z) :
  reachable w →
  read_fault w = None → write_fault w = None → rename_fault w = None →
  persisted w = [sample_product k] → (0 < k < SAFE_LIMIT)%Z →
  let w' := (create_then_delete (k, w)).2 in
  reachable w'
  ∧ read_fault w' = None ∧ write_fault w' = None ∧ rename_fault w' = None
  ∧ persisted w' = [sample_product (k + 1)].
Proof.
  intros Hreach Hr Hwf Hrn Hw Hk. unfold create_then_delete. simpl fst. simpl snd.
  destruct (create_sample w Hreach Hr Hwf Hrn)
    as (m & Hm & Hreach1 & Hr1 & Hwf1 & Hrn1 & Hw1).
  set (w1 := (post_products (Request NaN sample_body) w).2) in *.
  rewrite Hw in Hm, Hw1.
  rewrite (max_id_of_one (sample_product k) k m eq_refl) in Hw1 by (done || lia).
  rewrite num_add_succ in Hw1 by lia.
  change (persisted w1 = [sample_product k; sample_product (k + 1)]) in Hw1.
  assert (List.filter (other_id (num_of_Z k)) (persisted w1) = [sample_product (k + 1)])
    as Hfilter.
  { rewrite Hw1. unfold List.filter. rewrite !other_id_sample.
    rewrite (bool_decide_eq_true_2 (k = k)) by done.
    by rewrite (bool_decide_eq_false_2 (k + 1 = k)%Z) by lia. }
  set (req := Request (num_of_Z k) VUndefined).
  destruct (delete_product_succeeds req w1) as (r & w2 & Hd & Hs);
    [by apply invalid_id_Z; lia|done|done|done| |].
  { simpl param_id. rewrite Hfilter, Hw1. done. }
  destruct (delete_product_200 req w1 w2 r Hd Hs) as (_ & _ & _ & Hwr).
  simpl param_id in Hwr. rewrite Hfilter in Hwr.
  cbv zeta. rewrite Hd. simpl snd.
  pose proof Hwr as Hwr'. apply writeProducts_ok in Hwr' as (_ & Hr2 & Hwf2 & Hrn2).
  split; [by apply (reach_delete req w1 r w2)|].
  split; [by rewrite Hr2|]. split; [by rewrite Hwf2|]. split; [by rewrite Hrn2|].
  apply (writeProducts_persisted _ _ _ ) in Hwr; [done|].
  apply collection_json, Forall_singleton, sample_is_product. lia.
Qed.

(** After [n] rounds the collection is the one product of id [n + 1]. *)
Lemma world_after_rounds (n : N) :
  (Z.of_N n < SAFE_LIMIT)%Z →
  reachable (world_after n)
  ∧ read_fault (world_after n) = None ∧ write_fault (world_after n) = None
  ∧ rename_fault (world_after n) = None
  ∧ persisted (world_after n) = [sample_product (Z.of_N n + 1)].
Proof.
  unfold world_after.
  set (start := (1%Z, (post_products (Request NaN sample_body) w_empty).2)).
  intros Hn.
  assert ((N.iter n create_then_delete start).1 = (Z.of_N n + 1)%Z
          ∧ reachable (N.iter n create_then_delete start).2
          ∧ read_fault (N.iter n create_then_delete start).2 = None
          ∧ write_fault (N.iter n create_then_delete start).2 = None
          ∧ rename_fault (N.iter n create_then_delete start).2 = None
          ∧ persisted (N.iter n create_then_delete start).2
            = [sample_product (Z.of_N n + 1)]) as (_ & Hall); [|exact Hall].
  revert Hn. induction n as [|n IH] using N.peano_ind; intros Hn.
  - change (N.iter 0 create_then_delete start) with start.
    destruct (create_sample w_empty) as (m & Hm & Hreach & Hr & Hwf & Hrn & Hw);
      [by apply reach_empty|done..|].
    change (persisted w_empty) with (@nil value) in *.
    destruct Hm as ([->|Hin] & _); [|by apply elem_of_nil in Hin].
    rewrite num_add_succ in Hw by (pose proof SAFE_LIMIT_pos; lia).
    split; [done|]. by repeat split.
  - rewrite N.iter_succ.
    destruct IH as (Hk & Hreach & Hr & Hwf & Hrn & Hw); [lia|].
    destruct (N.iter n create_then_delete start) as [k w] eqn:Hs.
    simpl fst in Hk. simpl snd in *. subst k.
    pose proof (one_round w (Z.of_N n + 1) Hreach Hr Hwf Hrn Hw ltac:(lia)) as Hstep.
    cbv zeta in Hstep. rewrite N2Z.inj_succ.
    replace (Z.succ (Z.of_N n) + 1)%Z with (Z.of_N n + 1 + 1)%Z by lia.
    split; [done|exact Hstep].
Qed.

(** At the limit the id of the record is assigned once more. *)
Lemma ids_repeat_at_the_limit :
  let w := (post_products (Request NaN sample_body) world_at_limit).2 in
  reachable w
  ∧ persisted w = [sample_product SAFE_LIMIT; sample_product SAFE_LIMIT].
Proof.
  unfold world_at_limit.
  destruct (world_after_rounds 9007199254740991) as (Hreach & Hr & Hwf & Hrn & Hw);
    [reflexivity|].
  generalize dependent (world_after 9007199254740991). intros w Hreach Hr Hwf Hrn Hw.
  change (Z.of_N 9007199254740991 + 1)%Z with SAFE_LIMIT in Hw.
  destruct (create_sample w Hreach Hr Hwf Hrn) as (m & Hm & Hreach1 & _ & _ & _ & Hw1).
  rewrite Hw in Hm, Hw1.
  rewrite (max_id_of_one (sample_product SAFE_LIMIT) SAFE_LIMIT m eq_refl
             SAFE_LIMIT_pos Hm), num_add_rounds in Hw1.
  cbv zeta. split; [done|exact Hw1].
Qed.

End InvariantSteps.

(** C1, as worded, fails: the ids are doubles, and the successor of [2^53]
    is [2^53].  From the empty collection, create a product, then [2^53 - 1]
    times create a product and delete the one before it ([world_at_limit]):
    the collection is the one product of id [2^53], every request has
    succeeded, and the next create assigns the id [2^53] a second time. *)
Lemma C1_counterexample : ¬ ids_always_unique.
Proof.
  intros Hc.
  destruct (ids_repeat_at_the_limit (H := ref_runtime) (H0 := ref_arithmetic))
    as (Hreach & Hw).
  apply Hc in Hreach. rewrite Hw in Hreach.
  apply NoDup_cons in Hreach as [Hnin _]. apply Hnin.
  apply list_elem_of_singleton. reflexivity.
Qed.

(** C1, amended.  From an empty collection, after any creates, updates and
    deletes that succeed, every record of the persisted collection is a
    product of the data model (a positive integer id; a name that is a
    string, not empty, with no white space at either end; a finite price
    that is not negative; a boolean inStock), no id is beyond [2^53], and
    the ids below [2^53] are distinct: as long as every id is below [2^53]
    no two records have the same id.  An update leaves the id of every
    record as it was. *)
Theorem C1_collection_invariant `{JsonRuntime} `{Arithmetic} (w : world) :
  reachable w →
  collection_kept (persisted w)
  ∧ (ids_below SAFE_LIMIT (persisted w) → collection_ok (persisted w))
  ∧ ∀ req r w',
      NoDup (Object_keys (body req)) →
      put_product req w = (Responds r, w') → status r = 200%nat →
      id_of <$> persisted w' = id_of <$> persisted w.
Proof.
  intros Hreach. pose proof (reachable_kept w Hreach) as Hok.
  split; [done|]. split; [by apply collection_kept_ok|].
  intros req r w' Hb Hp Hs. by apply (update_preserves req w w' r).
Qed.

Lemma C1_witness :
  collection_ok
    (persisted
       (post_products (Request NaN (VObj [("name", VStr " Widget ");
                                          ("price", VNum (num_of_Z 3));
                                          ("inStock", VBool true)])) w_empty).2).
Proof.
  apply (C1_collection_invariant
           (post_products (Request NaN (VObj [("name", VStr " Widget ");
                                              ("price", VNum (num_of_Z 3));
                                              ("inStock", VBool true)])) w_empty).2).
  - apply (reach_create
             (Request NaN (VObj [("name", VStr " Widget "); ("price", VNum (num_of_Z 3));
                                 ("inStock", VBool true)]))
             w_empty (Response 201 (Json (product 1 "Widget" (Q2Qc 3) true)))).
    + apply reach_empty. reflexivity.
    + vm_compute. reflexivity.
    + reflexivity.
  - assert (persisted
              (post_products (Request NaN (VObj [("name", VStr " Widget ");
                                                 ("price", VNum (num_of_Z 3));
                                                 ("inStock", VBool true)])) w_empty).2
            = [product 1 "Widget" (Q2Qc 3) true]) as -> by (vm_compute; reflexivity).
    intros n Hn. exists 1%Z. split; [|reflexivity].
    apply list_elem_of_singleton in Hn. by injection Hn.
Defined.

(* ================================================================== *)
(** * Further properties of the code *)

(** ** The store *)

Section StoreMore.
Context `{JsonRuntime}.

Lemma temp_is_not_data : TEMP_FILE ≠ DATA_FILE.
Proof. done. Qed.

(** A save that fails leaves the data file as it was. *)
Lemma writeProducts_fail_data (products : list value) (w w' : world) (e : js_error) :
  writeProducts products w = (Throw e, w') →
  files w' !! DATA_FILE = files w !! DATA_FILE.
Proof.
  rewrite writeProducts_eq. cbv zeta.
  destruct (write_fault w) as [[f [n|]]|].
  - intros [= _ <-]. simpl. by rewrite lookup_insert_ne by apply temp_is_not_data.
  - by intros [= _ <-].
  - destruct (rename_fault w) as [f|]; [|done].
    intros [= _ <-]. simpl. by rewrite lookup_insert_ne by apply temp_is_not_data.
Qed.

End StoreMore.

(** X1. [writeProducts] writes the temporary file and renames it over the
    data file.  When it resolves, the data file holds the new text and no
    temporary file is left.  When it rejects, the data file is as it was and
    no file but the temporary one has changed: a write that fails before the
    file is opened changes nothing, a write that fails later leaves the
    temporary file with the part of the new text written until then, a
    failed rename leaves the whole new text in the temporary file. *)
Theorem X1_save_is_atomic `{JsonRuntime} (products : list value) (w : world) :
  match writeProducts products w with
  | (Normal _, w') =>
      write_fault w = None ∧ rename_fault w = None
      ∧ files w' = <[DATA_FILE := text_of products]> (delete TEMP_FILE (files w))
      ∧ files w' !! TEMP_FILE = None
  | (Throw e, w') =>
      files w' !! DATA_FILE = files w !! DATA_FILE
      ∧ delete TEMP_FILE (files w') = delete TEMP_FILE (files w)
      ∧ match write_fault w with
        | Some wf =>
            e = fault_error (write_error wf) TEMP_FILE
            ∧ match written wf with
              | None => files w' = files w
              | Some n =>
                  files w' !! TEMP_FILE = Some (String.substring 0 n (text_of products))
              end
        | None =>
            files w' !! TEMP_FILE = Some (text_of products)
            ∧ ∃ f, rename_fault w = Some f ∧ e = fault_error f TEMP_FILE
        end
  end.
Proof.
  rewrite writeProducts_eq. cbv zeta. unfold text_of.
  destruct (write_fault w) as [[f [n|]]|] eqn:Hw.
  - simpl. split; [by rewrite lookup_insert_ne by apply temp_is_not_data|].
    split; [by rewrite delete_insert_eq|]. split; [done|].
    by rewrite lookup_insert_eq.
  - by repeat split.
  - destruct (rename_fault w) as [f|] eqn:Hr; simpl.
    + split; [by rewrite lookup_insert_ne by apply temp_is_not_data|].
      split; [by rewrite delete_insert_eq|].
      split; [by rewrite lookup_insert_eq|]. by exists f.
    + split; [done|]. split; [done|]. split; [by rewrite delete_insert_eq|].
      rewrite lookup_insert_ne by (by intros ?). by rewrite lookup_delete_eq.
Qed.

(** X2. [readProducts] does not look into the array it reads: when the text
    of the file is the JSON of an array, it resolves with the elements of
    that array, whatever they are, in their order. *)
Theorem X2_load_returns_the_array `{JsonRuntime}
    (w : world) (data : string) (l : list value) :
  read_fault w = None →
  files w !! DATA_FILE = Some data →
  trim data ≠ "" →
  JSON_parse data = Some (VArr l) →
  readProducts w = (Normal l, log (EvReadFile DATA_FILE) w).
Proof.
  intros Hr Hf Hb Hp. rewrite readProducts_eq, Hr. do 2 f_equal.
  unfold persisted. rewrite Hf. by apply parse_products_array.
Qed.

Lemma X2_witness :
  readProducts (World {[DATA_FILE := JSON_stringify (VArr [VNull; VStr "x"])]}
                      None None None [])
  = (Normal [VNull; VStr "x"],
     log (EvReadFile DATA_FILE)
       (World {[DATA_FILE := JSON_stringify (VArr [VNull; VStr "x"])]}
              None None None [])).
Proof.
  apply (X2_load_returns_the_array _ (JSON_stringify (VArr [VNull; VStr "x"]))).
  - reflexivity.
  - reflexivity.
  - vm_compute. discriminate.
  - vm_compute. reflexivity.
Defined.

(** ** The listings *)

Lemma get_products_eq `{JsonRuntime} (req : request) (w : world) :
  get_products req w
  = (match read_fault w with
     | None => Responds (Response 200 (Json (VArr (persisted w))))
     | Some f =>
         Responds (Response 500
           (Json (failure_body "Failed to read products" (fault_error f DATA_FILE))))
     end, log (EvReadFile DATA_FILE) w).
Proof. unfold get_products. rewrite readProducts_eq. by destruct (read_fault w). Qed.

Lemma get_instock_eq `{JsonRuntime} (req : request) (w : world) :
  get_instock req w
  = (match read_fault w with
     | None => Responds (Response 200 (Json (VArr (List.filter in_stock (persisted w)))))
     | Some f =>
         Responds (Response 500
           (Json (failure_body "Failed to read products" (fault_error f DATA_FILE))))
     end, log (EvReadFile DATA_FILE) w).
Proof. unfold get_instock. rewrite readProducts_eq. by destruct (read_fault w). Qed.

(** X3. [GET /products] answers 200 with the collection of the data file as
    it is, or 500 with the message of the error when the read fails; a
    missing file and a malformed text are answered with 200 and the empty
    list, as no products and not as an error.  All the handler does to the
    world is one read of the data file. *)
Theorem X3_list_all `{JsonRuntime} (req : request) (w : world) :
  (get_products req w).2 = log (EvReadFile DATA_FILE) w
  ∧ (get_products req w).1
    = match read_fault w with
      | None => Responds (Response 200 (Json (VArr (persisted w))))
      | Some f =>
          Responds (Response 500
            (Json (VObj [("message", VStr "Failed to read products");
                         ("error", VStr (err_message (fault_error f DATA_FILE)))])))
      end
  ∧ (read_fault w = None →
     (files w !! DATA_FILE = None
      ∨ ∃ data, files w !! DATA_FILE = Some data ∧ malformed data) →
     (get_products req w).1 = Responds (Response 200 (Json (VArr [])))).
Proof.
  rewrite get_products_eq. split; [done|]. split; [done|].
  intros Hr Hd. simpl. rewrite Hr. do 4 f_equal.
  unfold persisted. destruct Hd as [->|(data & -> & Hm)]; [done|].
  by apply parse_products_malformed.
Qed.

Lemma X3_witness :
  (get_products (Request NaN VUndefined)
     (World {[DATA_FILE := "{not json"]} None None None [])).1
  = Responds (Response 200 (Json (VArr []))).
Proof.
  apply (X3_list_all (Request NaN VUndefined)
           (World {[DATA_FILE := "{not json"]} None None None [])).
  - reflexivity.
  - right. exists "{not json". split; [reflexivity|]. right. left. reflexivity.
Defined.

(** X4. The two listings change no file, and a listing asked again gives
    the same answer, whichever of the two listings was answered before. *)
Theorem X4_listings_are_idempotent `{JsonRuntime} (req req' : request) (w : world) :
  files (get_products req w).2 = files w
  ∧ files (get_instock req w).2 = files w
  ∧ (get_products req' (get_products req w).2).1 = (get_products req w).1
  ∧ (get_instock req' (get_instock req w).2).1 = (get_instock req w).1
  ∧ (get_instock req' (get_products req w).2).1 = (get_instock req w).1
  ∧ (get_products req' (get_instock req w).2).1 = (get_products req w).1.
Proof. by rewrite !get_products_eq, !get_instock_eq. Qed.

(** ** The validator *)

Lemma push_if_app (c : bool) (msg : string) (errors : list string) :
  push_if c msg errors = (errors ++ if c then [msg] else [])%list.
Proof. unfold push_if. destruct c; [done|by rewrite app_nil_r]. Qed.

(** In either mode the errors start with the unknown fields. *)
Lemma validate_unknown_prefix (body : value) (isPartial : bool) (errors : list string) :
  validateProductInput body isPartial = Normal errors →
  ∃ rest,
    errors = ((unknown_error <$> filter (λ k, k ∉ allowedKeys) (Object_keys body))
              ++ rest)%list.
Proof.
  unfold validateProductInput. rewrite unknown_fold, keys_or_empty.
  destruct isPartial; simpl negb; cbv iota.
  - unfold mbind, completion_bind.
    destruct (has_property "name" body) as [hn|]; [|done].
    destruct (has_property "price" body) as [hp|]; [|done].
    destruct (has_property "inStock" body) as [hi|]; [|done].
    rewrite !push_if_app, <- !app_assoc. intros [= <-]. by eexists.
  - rewrite !push_if_app, <- !app_assoc. intros [= <-]. by eexists.
Qed.

Lemma validate_partial_throws (body : value) :
  is_object body = false → ∃ e, validateProductInput body true = Throw e.
Proof. destruct body; try done; intros _; by eexists. Qed.

Lemma validate_partial_normal (body : value) :
  is_object body = true → ∃ errors, validateProductInput body true = Normal errors.
Proof. destruct body; try done; intros _; by eexists. Qed.

(** X5. In partial mode the validator throws exactly on a body that is not
    an object (a primitive, [null], [undefined]); an update with a
    well-formed id and such a body ends in an uncaught error, with nothing
    read or written.  In full mode the validator never throws. *)
Theorem X5_partial_mode_needs_an_object :
  (∀ body, (∃ e, validateProductInput body true = Throw e) ↔ is_object body = false)
  ∧ (∀ body, ∃ errors, validateProductInput body false = Normal errors)
  ∧ (∀ `{JsonRuntime} req w,
       invalid_id (param_id req) = false → is_object (body req) = false →
       ∃ e, put_product req w = (Unhandled e, w)).
Proof.
  split; [|split].
  - intros body. split; [|apply validate_partial_throws].
    intros [e He]. destruct (is_object body) eqn:Ho; [|done].
    destruct (validate_partial_normal body Ho) as [errors Hn]. congruence.
  - intros body. rewrite validate_full. by eexists.
  - intros J req w Hid Ho. unfold put_product. rewrite Hid.
    destruct (validate_partial_throws _ Ho) as [e ->]. by eexists.
Qed.

Lemma X5_witness :
  ∃ e, put_product (Request (num_of_Z 3) (VStr "abc")) w_empty = (Unhandled e, w_empty).
Proof.
  apply (proj2 (proj2 X5_partial_mode_needs_an_object) _
           (Request (num_of_Z 3) (VStr "abc")) w_empty).
  - vm_compute. reflexivity.
  - reflexivity.
Defined.

Lemma rule_piece_sublist (p r : bool) (msg : string) :
  sublist (if p && negb r then [msg] else []) (if r then [] else [msg]).
Proof. destruct p, r; simpl; by repeat constructor. Qed.

(** X6. On an object, the errors of partial mode are among the errors of
    full mode, in the same order: what full mode accepts, partial mode
    accepts.  When the three fields are present the two modes give the same
    errors. *)
Theorem X6_partial_within_full (bps : list (string * value)) :
  ∃ e1 e2,
    validateProductInput (VObj bps) true = Normal e1
    ∧ validateProductInput (VObj bps) false = Normal e2
    ∧ sublist e1 e2
    ∧ (e2 = [] → e1 = [])
    ∧ ("name" ∈ bps.*1 → "price" ∈ bps.*1 → "inStock" ∈ bps.*1 → e1 = e2).
Proof.
  exists (partial_errors (VObj bps)), (full_errors (VObj bps)).
  split; [apply validate_partial_obj|]. split; [apply validate_full|].
  assert (sublist (partial_errors (VObj bps)) (full_errors (VObj bps))) as Hsub.
  { unfold partial_errors, full_errors.
    repeat (apply sublist_app; [|]); try done; apply rule_piece_sublist. }
  split; [done|]. split.
  - intros He. rewrite He in Hsub. by apply sublist_nil_r in Hsub.
  - intros Hn Hp Hi. unfold partial_errors, full_errors, present, field.
    rewrite !bool_decide_eq_true_2 by (by apply assoc_is_Some).
    simpl. by destruct (name_rule _), (price_rule _), (inStock_rule _).
Qed.

Lemma X6_witness :
  ∃ e1 e2,
    validateProductInput (VObj [("name", VStr "A"); ("price", VNum (num_of_Z 1));
                                ("inStock", VBool true)]) true = Normal e1
    ∧ validateProductInput (VObj [("name", VStr "A"); ("price", VNum (num_of_Z 1));
                                  ("inStock", VBool true)]) false = Normal e2
    ∧ e1 = e2.
Proof.
  destruct (X6_partial_within_full
              [("name", VStr "A"); ("price", VNum (num_of_Z 1)); ("inStock", VBool true)])
    as (e1 & e2 & H1 & H2 & _ & _ & Heq).
  exists e1, e2. split; [exact H1|]. split; [exact H2|].
  apply Heq; apply (bool_decide_unpack _); vm_compute; exact I.
Defined.

(** X7. A key outside [name], [price], [inStock] is always an error, in
    either mode: a body that carries [id], or any other extra key, is
    answered with 400 by the create, and by the update of a well-formed id,
    and nothing is read or written. *)
Theorem X7_unknown_keys_are_rejected `{JsonRuntime} `{Arithmetic}
    (req : request) (w : world) (k : string) :
  k ∈ Object_keys (body req) → k ∉ allowedKeys →
  (∀ isPartial errors,
     validateProductInput (body req) isPartial = Normal errors →
     unknown_error k ∈ errors)
  ∧ (∃ errors, unknown_error k ∈ errors
       ∧ post_products req w
         = (Responds (Response 400 (Json (invalid_input errors))), w))
  ∧ (invalid_id (param_id req) = false → is_object (body req) = true →
     ∃ errors, unknown_error k ∈ errors
       ∧ put_product req w
         = (Responds (Response 400 (Json (invalid_input errors))), w)).
Proof.
  intros Hk Hna.
  assert (∀ isPartial errors,
            validateProductInput (body req) isPartial = Normal errors →
            unknown_error k ∈ errors) as Hv.
  { intros isPartial errors [rest ->]%validate_unknown_prefix.
    apply elem_of_app. left. apply list_elem_of_fmap. exists k. split; [done|].
    by apply list_elem_of_filter. }
  split; [done|]. split.
  - unfold post_products.
    destruct (validateProductInput (body req) false) as [errors|e] eqn:He.
    + pose proof (Hv _ _ He) as Hin.
      destruct errors as [|e0 errors]; [by apply elem_of_nil in Hin|].
      simpl. by eexists.
    + rewrite validate_full in He. done.
  - intros Hid Ho. unfold put_product. rewrite Hid.
    destruct (validate_partial_normal _ Ho) as [errors He]. rewrite He.
    pose proof (Hv _ _ He) as Hin.
    destruct errors as [|e0 errors]; [by apply elem_of_nil in Hin|].
    simpl. by eexists.
Qed.

Lemma X7_witness :
  ∃ errors, unknown_error "id" ∈ errors
    ∧ post_products
        (Request NaN (VObj [("id", VNum (num_of_Z 7)); ("name", VStr "A");
                            ("price", VNum (num_of_Z 1)); ("inStock", VBool true)]))
        w_empty
      = (Responds (Response 400 (Json (invalid_input errors))), w_empty).
Proof.
  apply (X7_unknown_keys_are_rejected
           (Request NaN (VObj [("id", VNum (num_of_Z 7)); ("name", VStr "A");
                               ("price", VNum (num_of_Z 1)); ("inStock", VBool true)]))
           w_empty "id").
  - apply (bool_decide_unpack _). vm_compute. exact I.
  - apply (bool_decide_unpack _). vm_compute. exact I.
Defined.

(** ** The id of a route *)

Lemma invalid_id_false (n : number) :
  invalid_id n = false ↔ ∃ z, (0 < z)%Z ∧ n = num_of_Z z.
Proof.
  unfold invalid_id. rewrite orb_false_iff, negb_false_iff. split.
  - intros [Hint Hle]. destruct n as [| | |q]; try done.
    simpl in Hint. apply bool_decide_eq_true in Hint.
    change (num_of_Z 0) with (Fin (Q2Qc (inject_Z 0))) in Hle.
    rewrite num_le_Fin in Hle. apply bool_decide_eq_false, Qcnot_le_lt in Hle.
    destruct q as [[a d] Hc]. simpl in Hint. subst d. exists a. split.
    + unfold Qclt, Qlt in Hle. simpl in Hle. lia.
    + unfold num_of_Z. f_equal. apply Qc_is_canon. simpl.
      by rewrite Qred_correct.
  - intros (z & Hz & ->). split; [apply isInteger_Z|].
    unfold num_le. apply orb_false_iff. split.
    + rewrite num_lt_Z. apply bool_decide_eq_false. lia.
    + apply bool_decide_eq_false. intros Heq.
      assert (num_of_Z z = num_of_Z 0) as Hz0 by (unfold num_of_Z; by rewrite Heq).
      apply num_of_Z_inj in Hz0. lia.
Qed.

(** X8. The id of an update or a delete is accepted exactly when it is a
    positive integer; with any other id (zero, a negative number, a
    fraction, [NaN], an infinity) both handlers answer 400 with the message
    [Invalid id], whatever the body, and nothing is read or written. *)
Theorem X8_id_must_be_a_positive_integer `{JsonRuntime} (req : request) (w : world) :
  (invalid_id (param_id req) = false ↔ ∃ z, (0 < z)%Z ∧ param_id req = num_of_Z z)
  ∧ (invalid_id (param_id req) = true →
     put_product req w
       = (Responds (Response 400 (Json (VObj [("message", VStr "Invalid id")]))), w)
     ∧ delete_product req w
       = (Responds (Response 400 (Json (VObj [("message", VStr "Invalid id")]))), w)).
Proof.
  split; [apply invalid_id_false|].
  intros Hid. unfold put_product, delete_product. by rewrite Hid.
Qed.

Lemma X8_witness :
  delete_product (Request (Fin (Q2Qc (3 # 2))) VUndefined) w_empty
  = (Responds (Response 400 (Json (VObj [("message", VStr "Invalid id")]))), w_empty).
Proof.
  apply (proj2 (X8_id_must_be_a_positive_integer
                  (Request (Fin (Q2Qc (3 # 2))) VUndefined) w_empty)).
  vm_compute. reflexivity.
Defined.

(** ** The answers of the handlers *)

Section AnswerFacts.
Context `{JsonRuntime} `{Arithmetic}.

Lemma persisted_same_data (w w' : world) :
  files w' !! DATA_FILE = files w !! DATA_FILE → persisted w' = persisted w.
Proof. unfold persisted. by intros ->. Qed.

Lemma post_try_fail_data (b : value) (w w' : world) (e : js_error) :
  post_try b w = (Throw e, w') → files w' !! DATA_FILE = files w !! DATA_FILE.
Proof.
  rewrite post_try_eq. cbv zeta.
  destruct (read_fault w); [by intros [= _ <-]|].
  destruct (reduce_max _ _); [|by intros [= _ <-]].
  destruct (member b "name" ≫= trim_method); [|by intros [= _ <-]].
  destruct (member b "price"); [|by intros [= _ <-]].
  destruct (member b "inStock"); [|by intros [= _ <-]].
  destruct (writeProducts _ _) as [[[]|e'] w2] eqn:Hw; [done|].
  intros [= _ <-]. by rewrite (writeProducts_fail_data _ _ _ _ Hw).
Qed.

Lemma put_try_fail_data (id : number) (b : value) (w w' : world) (e : js_error) :
  put_try id b w = (Throw e, w') → files w' !! DATA_FILE = files w !! DATA_FILE.
Proof.
  rewrite put_try_eq. cbv zeta.
  destruct (read_fault w); [by intros [= _ <-]|].
  destruct (findIndex _ _); [|done].
  destruct (writeProducts _ _) as [[[]|e'] w2] eqn:Hw; [done|].
  intros [= _ <-]. by rewrite (writeProducts_fail_data _ _ _ _ Hw).
Qed.

Lemma delete_try_fail_data (id : number) (w w' : world) (e : js_error) :
  delete_try id w = (Throw e, w') → files w' !! DATA_FILE = files w !! DATA_FILE.
Proof.
  rewrite delete_try_eq. cbv zeta.
  destruct (read_fault w); [by intros [= _ <-]|].
  destruct (bool_decide _); [done|].
  destruct (writeProducts _ _) as [[[]|e'] w2] eqn:Hw; [done|].
  intros [= _ <-]. by rewrite (writeProducts_fail_data _ _ _ _ Hw).
Qed.

Lemma put_try_404 (id : number) (b : value) (w w' : world) (r : response) :
  put_try id b w = (Normal r, w') → status r = 404%nat →
  read_fault w = None ∧ existsb (has_id id) (persisted w) = false
  ∧ w' = log (EvReadFile DATA_FILE) w.
Proof.
  rewrite put_try_eq. cbv zeta.
  destruct (read_fault w); [done|].
  destruct (findIndex _ _) as [idx|] eqn:Hi.
  - destruct (writeProducts _ _) as [[[]|e'] w2]; [|done]. by intros [= <- _].
  - intros [= _ <-] _. by apply findIndex_None in Hi.
Qed.

Lemma delete_try_404 (id : number) (w w' : world) (r : response) :
  delete_try id w = (Normal r, w') → status r = 404%nat →
  read_fault w = None ∧ forallb (other_id id) (persisted w) = true
  ∧ w' = log (EvReadFile DATA_FILE) w.
Proof.
  rewrite delete_try_eq. cbv zeta.
  destruct (read_fault w); [done|].
  destruct (bool_decide _) eqn:Hl.
  - intros [= _ <-] _. apply bool_decide_eq_true in Hl. by apply filter_length_all in Hl.
  - destruct (writeProducts _ _) as [[[]|e'] w2]; [|done]. by intros [= <- _].
Qed.

End AnswerFacts.

(** X9. Every handler answers only with the statuses of its route: a create
    with 201, 400 or 500, an update and a delete with 200, 400, 404 or 500.
    A create and a delete always answer; an update answers whenever its body
    is an object. *)
Theorem X9_statuses_of_the_routes `{JsonRuntime} `{Arithmetic} (req : request) (w : world) :
  (∃ r, (post_products req w).1 = Responds r
        ∧ (status r = 201 ∨ status r = 400 ∨ status r = 500)%nat)
  ∧ (∃ r, (delete_product req w).1 = Responds r
          ∧ (status r = 200 ∨ status r = 400 ∨ status r = 404 ∨ status r = 500)%nat)
  ∧ (∀ r, (put_product req w).1 = Responds r →
          (status r = 200 ∨ status r = 400 ∨ status r = 404 ∨ status r = 500)%nat)
  ∧ (is_object (body req) = true → ∃ r, (put_product req w).1 = Responds r).
Proof.
  split; [|split; [|split]].
  - unfold post_products. rewrite validate_full.
    destruct (negb _); [eexists; split; [done|]; simpl; auto|].
    destruct (post_try (body req) w) as [[r|e] w'] eqn:Hp.
    + exists r. split; [done|]. left. by apply post_try_status in Hp.
    + eexists. split; [done|]. simpl. auto.
  - unfold delete_product.
    destruct (invalid_id _); [eexists; split; [done|]; simpl; auto|].
    destruct (delete_try (param_id req) w) as [[r|e] w'] eqn:Hp.
    + exists r. split; [done|]. apply delete_try_status in Hp. destruct Hp; auto.
    + eexists. split; [done|]. simpl. auto 6.
  - intros r. unfold put_product.
    destruct (invalid_id _); [intros [= <-]; simpl; auto|].
    destruct (validateProductInput (body req) true) as [errors|e]; [|done].
    destruct (negb _); [intros [= <-]; simpl; auto|].
    destruct (put_try (param_id req) (body req) w) as [[r'|e] w'] eqn:Hp.
    + intros [= <-]. apply put_try_status in Hp. destruct Hp; auto.
    + intros [= <-]. simpl. auto 6.
  - intros Ho. unfold put_product.
    destruct (invalid_id _); [by eexists|].
    destruct (validate_partial_normal _ Ho) as [errors ->].
    destruct (negb _); [by eexists|].
    destruct (put_try (param_id req) (body req) w) as [[r'|e] w']; by eexists.
Qed.

Lemma X9_witness :
  ∃ r, (put_product (Request (num_of_Z 1) (VObj [])) w_empty).1 = Responds r.
Proof.
  apply (proj2 (proj2 (proj2 (X9_statuses_of_the_routes
                                (Request (num_of_Z 1) (VObj [])) w_empty)))).
  reflexivity.
Defined.

(** X10. A create, an update or a delete that does not succeed leaves the
    collection as it was: whatever the status (400, 404, 500), and also when
    the save fails half way, the data file has the text it had. *)
Theorem X10_failure_keeps_the_collection `{JsonRuntime} `{Arithmetic}
    (req : request) (w w' : world) (r : response) :
  (post_products req w = (Responds r, w') → status r ≠ 201%nat →
   files w' !! DATA_FILE = files w !! DATA_FILE ∧ persisted w' = persisted w)
  ∧ (put_product req w = (Responds r, w') → status r ≠ 200%nat →
     files w' !! DATA_FILE = files w !! DATA_FILE ∧ persisted w' = persisted w)
  ∧ (delete_product req w = (Responds r, w') → status r ≠ 200%nat →
     files w' !! DATA_FILE = files w !! DATA_FILE ∧ persisted w' = persisted w).
Proof.
  assert (∀ v v' : world, files v' !! DATA_FILE = files v !! DATA_FILE →
            files v' !! DATA_FILE = files v !! DATA_FILE ∧ persisted v' = persisted v)
    as Hboth by (intros v v' Hf; split; [done|by apply persisted_same_data]).
  split; [|split].
  - unfold post_products. rewrite validate_full.
    destruct (negb _); [intros [= _ <-] _; by apply Hboth|].
    destruct (post_try (body req) w) as [[r'|e] w1] eqn:Hp.
    + intros [= <- <-] Hs. by apply post_try_status in Hp.
    + intros [= _ <-] _. by apply Hboth, (post_try_fail_data (body req) w w1 e).
  - unfold put_product.
    destruct (invalid_id _); [intros [= _ <-] _; by apply Hboth|].
    destruct (validateProductInput (body req) true) as [errors|e]; [|done].
    destruct (negb _); [intros [= _ <-] _; by apply Hboth|].
    destruct (put_try (param_id req) (body req) w) as [[r'|e] w1] eqn:Hp.
    + intros [= <- <-] Hs.
      destruct (put_try_status _ _ _ _ _ Hp) as [H404|H200]; [|done].
      destruct (put_try_404 _ _ _ _ _ Hp H404) as (_ & _ & ->). by apply Hboth.
    + intros [= _ <-] _. by apply Hboth, (put_try_fail_data (param_id req) (body req) w w1 e).
  - unfold delete_product.
    destruct (invalid_id _); [intros [= _ <-] _; by apply Hboth|].
    destruct (delete_try (param_id req) w) as [[r'|e] w1] eqn:Hp.
    + intros [= <- <-] Hs.
      destruct (delete_try_status _ _ _ _ Hp) as [H404|H200]; [|done].
      destruct (delete_try_404 _ _ _ _ Hp H404) as (_ & _ & ->). by apply Hboth.
    + intros [= _ <-] _. by apply Hboth, (delete_try_fail_data (param_id req) w w1 e).
Qed.

Lemma X10_witness :
  let w := World {[DATA_FILE := JSON_stringify (VArr sample_products)]}
                 None None (Some EIO) [] in
  persisted (delete_product (Request (num_of_Z 1) VUndefined) w).2 = persisted w.
Proof.
  intros w.
  apply (proj2 (proj2 (X10_failure_keeps_the_collection
                         (Request (num_of_Z 1) VUndefined) w
                         (delete_product (Request (num_of_Z 1) VUndefined) w).2
                         (Response 500
                            (Json (failure_body "Failed to delete product"
                                     (fault_error EIO TEMP_FILE))))))).
  - vm_compute. reflexivity.
  - discriminate.
Defined.

(** ** Creating, updating and deleting *)

Lemma reduce_max_null (l : list value) (acc : number) :
  VNull ∈ l → ∃ e, reduce_max l acc = Throw e.
Proof.
  revert acc. induction l as [|p l IH]; intros acc; [by intros ?%elem_of_nil|].
  intros [<-|Hin]%elem_of_cons; simpl; [by eexists|].
  unfold mbind, completion_bind.
  destruct (max_step acc p) as [m|e]; [by apply IH|by eexists].
Qed.

(** X11. A [null] entry in the collection makes every create fail: reading
    its [id] throws inside the [try] block, and a body that is valid is
    answered with 500 and the message [Failed to save product], after one
    read and no write. *)
Theorem X11_create_over_a_null_entry `{JsonRuntime} `{Arithmetic} (req : request) (w : world) :
  validateProductInput (body req) false = Normal [] →
  read_fault w = None →
  VNull ∈ persisted w →
  ∃ e, post_products req w
       = (Responds (Response 500
            (Json (VObj [("message", VStr "Failed to save product");
                         ("error", VStr (err_message e))]))),
          log (EvReadFile DATA_FILE) w).
Proof.
  intros Hv Hr Hn. unfold post_products. rewrite Hv. simpl.
  rewrite post_try_eq, Hr. cbv zeta.
  destruct (reduce_max_null _ (num_of_Z 0) Hn) as [e ->]. by exists e.
Qed.

Lemma X11_witness :
  ∃ e, post_products
         (Request NaN (VObj [("name", VStr "A"); ("price", VNum (num_of_Z 1));
                             ("inStock", VBool true)]))
         (World {[DATA_FILE := JSON_stringify (VArr [product 1 "B" (Q2Qc 2) true; VNull])]}
                None None None [])
       = (Responds (Response 500
            (Json (VObj [("message", VStr "Failed to save product");
                         ("error", VStr (err_message e))]))),
          log (EvReadFile DATA_FILE)
            (World {[DATA_FILE :=
                       JSON_stringify (VArr [product 1 "B" (Q2Qc 2) true; VNull])]}
                   None None None [])).
Proof.
  apply (X11_create_over_a_null_entry
           (Request NaN (VObj [("name", VStr "A"); ("price", VNum (num_of_Z 1));
                               ("inStock", VBool true)]))).
  - reflexivity.
  - reflexivity.
  - assert (persisted
              (World {[DATA_FILE :=
                         JSON_stringify (VArr [product 1 "B" (Q2Qc 2) true; VNull])]}
                     None None None [])
            = [product 1 "B" (Q2Qc 2) true; VNull]) as ->
      by (vm_compute; reflexivity).
    apply elem_of_cons. right. apply elem_of_cons. by left.
Defined.

(** X12. When an update or a delete answers 404 it has read the data file
    once and done nothing else.  The delete answers 404 exactly when the id
    is well formed, the read succeeds and its filter keeps every entry; the
    update, exactly when moreover its body passes the validator and no
    entry has the id. *)
Theorem X12_not_found `{JsonRuntime} (req : request) (w : world) :
  (status_of (delete_product req w).1 = Some 404%nat
   ↔ invalid_id (param_id req) = false ∧ read_fault w = None
     ∧ forallb (other_id (param_id req)) (persisted w) = true)
  ∧ (status_of (put_product req w).1 = Some 404%nat
     ↔ invalid_id (param_id req) = false
       ∧ validateProductInput (body req) true = Normal []
       ∧ read_fault w = None
       ∧ existsb (has_id (param_id req)) (persisted w) = false)
  ∧ (status_of (delete_product req w).1 = Some 404%nat →
     (delete_product req w).2 = log (EvReadFile DATA_FILE) w)
  ∧ (status_of (put_product req w).1 = Some 404%nat →
     (put_product req w).2 = log (EvReadFile DATA_FILE) w).
Proof.
  assert (status_of (delete_product req w).1 = Some 404%nat →
          (invalid_id (param_id req) = false ∧ read_fault w = None
           ∧ forallb (other_id (param_id req)) (persisted w) = true)
          ∧ (delete_product req w).2 = log (EvReadFile DATA_FILE) w) as Hdel.
  { unfold delete_product. destruct (invalid_id _); [done|].
    destruct (delete_try (param_id req) w) as [[r|e] w1] eqn:Hp; [|done].
    simpl. intros [= Hs]. by destruct (delete_try_404 _ _ _ _ Hp Hs) as (? & ? & ->). }
  assert (status_of (put_product req w).1 = Some 404%nat →
          (invalid_id (param_id req) = false
           ∧ validateProductInput (body req) true = Normal []
           ∧ read_fault w = None
           ∧ existsb (has_id (param_id req)) (persisted w) = false)
          ∧ (put_product req w).2 = log (EvReadFile DATA_FILE) w) as Hput.
  { unfold put_product. destruct (invalid_id _); [done|].
    destruct (validateProductInput (body req) true) as [errors|e]; [|done].
    destruct (negb _) eqn:He; [done|]. apply errors_empty in He as ->.
    destruct (put_try (param_id req) (body req) w) as [[r|e] w1] eqn:Hp; [|done].
    simpl. intros [= Hs]. by destruct (put_try_404 _ _ _ _ _ Hp Hs) as (? & ? & ->). }
  split; [|split; [|split]].
  - split; [intros Hs; apply (proj1 (Hdel Hs))|]. intros (Hid & Hr & Hall).
    unfold delete_product. rewrite Hid, delete_try_eq, Hr. cbv zeta.
    by rewrite bool_decide_eq_true_2 by (by apply filter_length_all).
  - split; [intros Hs; apply (proj1 (Hput Hs))|]. intros (Hid & Hv & Hr & Hex).
    unfold put_product. rewrite Hid, Hv. simpl. rewrite put_try_eq, Hr.
    by rewrite (proj2 (findIndex_None _ _) Hex).
  - intros Hs. apply (proj2 (Hdel Hs)).
  - intros Hs. apply (proj2 (Hput Hs)).
Qed.

Lemma X12_witness :
  (delete_product (Request (num_of_Z 9) VUndefined)
     (writeProducts sample_products w_empty).2).2
  = log (EvReadFile DATA_FILE) (writeProducts sample_products w_empty).2.
Proof.
  apply (proj1 (proj2 (proj2 (X12_not_found (Request (num_of_Z 9) VUndefined)
                                (writeProducts sample_products w_empty).2)))).
  vm_compute. reflexivity.
Defined.

Lemma forallb_filter_same (f : value → bool) (l : list value) :
  forallb f (List.filter f l) = true.
Proof.
  apply forallb_forall. intros x Hx. by apply filter_In in Hx as [_ Hx].
Qed.

Lemma forallb_filter_keeps (f g : value → bool) (l : list value) :
  forallb g l = true → forallb g (List.filter f l) = true.
Proof.
  rewrite !forallb_forall. intros Hg x Hx. apply Hg. by apply filter_In in Hx as [Hx _].
Qed.

Lemma other_id_excludes (id : number) (l : list value) :
  forallb (other_id id) l = true → existsb (has_id id) l = false.
Proof.
  intros Hall. apply not_true_iff_false. intros (x & Hx & Hid)%existsb_exists.
  rewrite forallb_forall in Hall. specialize (Hall x Hx).
  unfold other_id, has_id in *.
  destruct (truthy x); [|done]. simpl in *. by rewrite Hid in Hall.
Qed.

(** X13. After a delete that succeeds, over a collection that JSON carries,
    the collection is the entries its filter keeps, no entry has the id any
    more, and deleting the same id again is answered with 404. *)
Theorem X13_delete_twice `{JsonRuntime} (req : request) (w w' : world) (r : response) :
  delete_product req w = (Responds r, w') → status r = 200%nat →
  forallb json_value (persisted w) = true →
  persisted w' = List.filter (other_id (param_id req)) (persisted w)
  ∧ existsb (has_id (param_id req)) (persisted w') = false
  ∧ (delete_product req w').1
    = Responds (Response 404 (Json (VObj [("message", VStr "Product not found")]))).
Proof.
  intros Hd Hs Hj.
  destruct (delete_product_200 req w w' r Hd Hs) as (Hid & Hr & _ & Hw).
  assert (persisted w' = List.filter (other_id (param_id req)) (persisted w)) as Hp.
  { apply (writeProducts_persisted _ _ _ (forallb_filter_keeps _ _ _ Hj) Hw). }
  apply writeProducts_ok in Hw as (_ & Hr' & _).
  split; [done|]. rewrite Hp. split.
  - apply other_id_excludes, forallb_filter_same.
  - unfold delete_product. rewrite Hid, delete_try_eq, Hr', Hp. simpl read_fault.
    rewrite Hr. cbv zeta.
    by rewrite bool_decide_eq_true_2
      by (apply filter_length_all, forallb_filter_same).
Qed.

Lemma X13_witness :
  (delete_product (Request (num_of_Z 1) VUndefined)
     (delete_product (Request (num_of_Z 1) VUndefined)
        (writeProducts sample_products w_empty).2).2).1
  = Responds (Response 404 (Json (VObj [("message", VStr "Product not found")]))).
Proof.
  apply (X13_delete_twice (Request (num_of_Z 1) VUndefined)
           (writeProducts sample_products w_empty).2 _
           (Response 200 (Json (message_body "Product deleted successfully")))).
  - vm_compute. reflexivity.
  - reflexivity.
  - vm_compute. reflexivity.
Defined.

(** X14. After a create that succeeds, over a collection that JSON
    carries, the listing answers with the collection as it was followed by
    the record the create answered with. *)
Theorem X14_create_then_list `{JsonRuntime} `{Arithmetic}
    (req req' : request) (w w' : world) (r : response) :
  post_products req w = (Responds r, w') → status r = 201%nat →
  forallb json_value (persisted w) = true →
  ∃ p, sent r = Json p
       ∧ persisted w' = (persisted w ++ [p])%list
       ∧ (get_products req' w').1
         = Responds (Response 200 (Json (VArr (persisted w ++ [p])))).
Proof.
  intros Hp Hs Hj.
  destruct (post_products_201 req w w' r Hp Hs)
    as (bps & s0 & q0 & b0 & m0 & _ & _ & _ & _ & _ & _ & _ & Hr & _ & _ & Hw).
  destruct (post_products_step req w w' r Hp Hs Hj)
    as (m & s & q & b & _ & _ & _ & -> & Hw' & _).
  eexists. split; [reflexivity|]. split; [done|].
  rewrite get_products_eq. simpl.
  apply writeProducts_ok in Hw as (_ & Hr' & _). simpl in Hr'.
  by rewrite Hr', Hr, Hw'.
Qed.

Lemma X14_witness :
  ∃ p, persisted
         (post_products
            (Request NaN (VObj [("name", VStr "C"); ("price", VNum (num_of_Z 3));
                                ("inStock", VBool true)]))
            (writeProducts sample_products w_empty).2).2
       = (sample_products ++ [p])%list.
Proof.
  destruct (X14_create_then_list
              (Request NaN (VObj [("name", VStr "C"); ("price", VNum (num_of_Z 3));
                                  ("inStock", VBool true)]))
              (Request NaN VUndefined)
              (writeProducts sample_products w_empty).2
              (post_products
                 (Request NaN (VObj [("name", VStr "C"); ("price", VNum (num_of_Z 3));
                                     ("inStock", VBool true)]))
                 (writeProducts sample_products w_empty).2).2
              (Response 201 (Json (product 3 "C" (Q2Qc 3) true))))
    as (p & _ & Hp & _).
  - vm_compute. reflexivity.
  - reflexivity.
  - vm_compute. reflexivity.
  - exists p. rewrite Hp. vm_compute. reflexivity.
Defined.

Lemma num_eq_true (a b : number) : num_eq a b = true → a = b.
Proof.
  destruct a as [| | |x], b as [| | |y]; try done.
  simpl. by intros ->%bool_decide_eq_true.
Qed.

Lemma findIndex_first (f : value → bool) (l : list value) (i : nat) :
  findIndex f l = Some i → ∀ j x, (j < i)%nat → l !! j = Some x → f x = false.
Proof.
  revert i. induction l as [|y l IH]; intros i; simpl; [done|].
  destruct (f y) eqn:Hy.
  - intros [= <-] j x Hj. lia.
  - destruct (findIndex f l) as [k|]; [|done]. intros [= <-] j x Hj.
    destruct j as [|j]; simpl; [by intros [= <-]|].
    apply (IH k eq_refl). lia.
Qed.

Lemma has_id_object (id : number) (p : value) :
  has_id id p = true → ∃ ps, p = VObj ps ∧ assoc "id" ps = Some (VNum id).
Proof.
  unfold has_id. intros [_ Heq]%andb_true_iff.
  destruct p as [| |b|n|s|es|ps]; try done. exists ps. split; [done|].
  simpl in Heq. destruct (assoc "id" ps) as [[| |b|n|s|es|qs]|]; try done.
  simpl in Heq. by apply num_eq_true in Heq as ->.
Qed.

(** X15. An update never changes an id, whatever the stored record holds:
    the record it answers with has the id of the request, as the stored one
    had, and the record it replaces is the first of the collection with
    that id.  (The stored records and the body are objects of the language,
    with distinct property names.) *)
Theorem X15_update_keeps_the_id `{JsonRuntime}
    (req : request) (w w' : world) (r : response) :
  put_product req w = (Responds r, w') → status r = 200%nat →
  NoDup (Object_keys (body req)) →
  forallb json_value (persisted w) = true →
  ∃ idx stored updated,
    persisted w !! idx = Some stored
    ∧ sent r = Json updated
    ∧ id_of stored = VNum (param_id req)
    ∧ id_of updated = VNum (param_id req)
    ∧ (∀ j x, (j < idx)%nat → persisted w !! j = Some x →
              has_id (param_id req) x = false)
    ∧ files w' !! DATA_FILE
      = Some (text_of (<[idx := updated]> (persisted w))).
Proof.
  intros Hp Hs Hb Hj.
  destruct (put_product_200 req w w' r Hp Hs)
    as (_ & Hv & _ & idx & stored & Hi & Hl & Hid & -> & Hw).
  destruct (has_id_object _ _ Hid) as (ps & -> & Hps).
  assert (NoDup ps.*1) as Hnd.
  { pose proof (forallb_elem_of _ _ _ Hj (list_elem_of_lookup_2 _ _ _ Hl)) as Hjs.
    simpl in Hjs. by apply andb_true_iff in Hjs as [_ ?%bool_decide_eq_true]. }
  assert (assoc "id" (own_props (body req)) = None) as Hnone.
  { destruct (valid_partial_props _ Hv) as (Hkeys & _).
    apply assoc_None. intros Hin. rewrite Forall_forall in Hkeys.
    apply Hkeys in Hin. revert Hin. by apply (bool_decide_unpack _). }
  exists idx, (VObj ps), (VObj (merge (VObj ps) (body req))).
  split; [done|]. split; [done|]. split; [by unfold id_of; simpl; rewrite Hps|].
  split.
  - unfold id_of. simpl. rewrite merge_assoc by done. by rewrite Hnone, Hps.
  - split; [by apply findIndex_first|].
    by apply writeProducts_ok in Hw as (Hf & _).
Qed.

Lemma X15_witness :
  ∃ idx stored updated,
    persisted (writeProducts sample_products w_empty).2 !! idx = Some stored
    ∧ id_of stored = VNum (num_of_Z 2)
    ∧ id_of updated = VNum (num_of_Z 2).
Proof.
  destruct (X15_update_keeps_the_id
              (Request (num_of_Z 2) (VObj [("name", VStr " Bee ")]))
              (writeProducts sample_products w_empty).2
              (put_product (Request (num_of_Z 2) (VObj [("name", VStr " Bee ")]))
                 (writeProducts sample_products w_empty).2).2
              (Response 200 (Json (product 2 "Bee" (Q2Qc (7 # 2)) false))))
    as (idx & stored & updated & Hl & _ & H1 & H2 & _).
  - vm_compute. reflexivity.
  - reflexivity.
  - apply (bool_decide_unpack _). vm_compute. exact I.
  - vm_compute. reflexivity.
  - by exists idx, stored, updated.
Defined.

(** X16. A create that succeeds answers with, and appends to the
    collection, a record of exactly four fields in the order [id], [name],
    [price], [inStock]: the name of the body trimmed, its price and its
    inStock as they are; nothing else of the body is kept. *)
Theorem X16_created_record `{JsonRuntime} `{Arithmetic}
    (req : request) (w w' : world) (r : response) :
  post_products req w = (Responds r, w') → status r = 201%nat →
  ∃ n s q b,
    field (body req) "name" = Some (VStr s)
    ∧ field (body req) "price" = Some (VNum (Fin q))
    ∧ field (body req) "inStock" = Some (VBool b)
    ∧ let created := VObj [("id", VNum n); ("name", VStr (trim s));
                           ("price", VNum (Fin q)); ("inStock", VBool b)] in
      sent r = Json created
      ∧ files w' !! DATA_FILE = Some (text_of (persisted w ++ [created])).
Proof.
  intros Hp Hs.
  destruct (post_products_201 req w w' r Hp Hs)
    as (bps & s & q & b & m & Hb & _ & Hn & _ & Hpr & _ & Hi & _ & _ & -> & Hw).
  exists (num_add m (num_of_Z 1)), s, q, b. rewrite Hb. simpl.
  split; [done|]. split; [done|]. split; [done|]. split; [done|].
  by apply writeProducts_ok in Hw as (Hf & _).
Qed.

Lemma X16_witness :
  ∃ n s q b,
    sent (Response 201 (Json (product 1 "Widget" (Q2Qc 3) true)))
    = Json (VObj [("id", VNum n); ("name", VStr (trim s));
                  ("price", VNum (Fin q)); ("inStock", VBool b)]).
Proof.
  destruct (X16_created_record
              (Request NaN (VObj [("name", VStr " Widget "); ("price", VNum (num_of_Z 3));
                                  ("inStock", VBool true)]))
              w_empty
              (post_products
                 (Request NaN (VObj [("name", VStr " Widget ");
                                     ("price", VNum (num_of_Z 3));
                                     ("inStock", VBool true)])) w_empty).2
              (Response 201 (Json (product 1 "Widget" (Q2Qc 3) true))))
    as (n & s & q & b & _ & _ & _ & Hsent & _).
  - vm_compute. reflexivity.
  - reflexivity.
  - by exists n, s, q, b.
Defined.

(** ** When the handlers succeed, and what they ask of the file system *)

Section SuccessFacts.
Context `{JsonRuntime} `{Arithmetic}.

Lemma writeProducts_normal (products : list value) (w : world) :
  (∃ w', writeProducts products w = (Normal (), w'))
  ↔ write_fault w = None ∧ rename_fault w = None.
Proof.
  rewrite writeProducts_eq. cbv zeta.
  destruct (write_fault w) as [f|]; [split; [by intros [? ?]|by intros [? ?]]|].
  destruct (rename_fault w) as [f|]; [split; [by intros [? ?]|by intros [? ?]]|].
  split; [done|]. intros _. by eexists.
Qed.

Lemma reduce_max_normal (l : list value) (acc m : number) :
  reduce_max l acc = Normal m → Forall (λ p, p ≠ VNull ∧ p ≠ VUndefined) l.
Proof.
  revert acc. induction l as [|p l IH]; intros acc; simpl; [by constructor|].
  unfold mbind, completion_bind.
  destruct (max_step acc p) as [m'|e] eqn:Hstep; [|done].
  intros Hr. constructor; [|by apply (IH m')].
  by destruct p.
Qed.

Lemma writeProducts_trace (products : list value) (w w' : world) (c : completion ()) :
  writeProducts products w = (c, w') →
  trace w' = (trace w ++ [EvWriteFile TEMP_FILE (text_of products)])%list
  ∨ trace w' = (trace w ++ [EvWriteFile TEMP_FILE (text_of products);
                            EvRename TEMP_FILE DATA_FILE])%list.
Proof.
  rewrite writeProducts_eq. cbv zeta. unfold text_of.
  destruct (write_fault w) as [[f [n|]]|]; [intros [= _ <-]; by left..|].
  destruct (rename_fault w); intros [= _ <-]; right; simpl;
    by rewrite <- app_assoc.
Qed.

End SuccessFacts.

(** X17. The conditions of success.  A create answers 201 exactly when its
    body passes full validation, the read, the write and the rename do not
    fail, and no entry of the collection is [null]; an update answers 200
    exactly when its id is well formed, its body passes partial validation,
    the file system does not fail and some entry has the id; a delete
    answers 200 exactly when its id is well formed, the file system does not
    fail and its filter drops some entry. *)
Theorem X17_conditions_of_success `{JsonRuntime} `{Arithmetic} (req : request) (w : world) :
  (status_of (post_products req w).1 = Some 201%nat
   ↔ validateProductInput (body req) false = Normal []
     ∧ read_fault w = None ∧ write_fault w = None ∧ rename_fault w = None
     ∧ Forall (λ p, p ≠ VNull ∧ p ≠ VUndefined) (persisted w))
  ∧ (status_of (put_product req w).1 = Some 200%nat
     ↔ invalid_id (param_id req) = false
       ∧ validateProductInput (body req) true = Normal []
       ∧ read_fault w = None ∧ write_fault w = None ∧ rename_fault w = None
       ∧ existsb (has_id (param_id req)) (persisted w) = true)
  ∧ (status_of (delete_product req w).1 = Some 200%nat
     ↔ invalid_id (param_id req) = false
       ∧ read_fault w = None ∧ write_fault w = None ∧ rename_fault w = None
       ∧ forallb (other_id (param_id req)) (persisted w) = false).
Proof.
  split; [|split].
  - split.
    + destruct (post_products req w) as [[r|e] w'] eqn:Hp; [|done].
      simpl. intros [= Hs].
      destruct (post_products_201 req w w' r Hp Hs)
        as (bps & s & q & b & m & _ & _ & _ & _ & _ & _ & _ & Hr & Hm & _ & Hw).
      destruct (proj1 (writeProducts_normal _ _) (ex_intro _ w' Hw)) as [Hwf Hrf].
      rewrite write_fault_log in Hwf. rewrite rename_fault_log in Hrf.
      split.
      { unfold post_products in Hp.
        destruct (validateProductInput (body req) false) as [errors|] eqn:Hv; [|done].
        destruct (negb _) eqn:He; [by simplify_eq|].
        by apply errors_empty in He as ->. }
      repeat split; try done. by apply reduce_max_normal in Hm.
    + intros (Hv & Hr & Hwf & Hrf & Hall).
      rewrite validate_full in Hv. injection Hv as Hv.
      destruct (post_products_succeeds req w Hv Hr Hwf Hrf Hall) as (r & w' & -> & Hs).
      simpl. by rewrite Hs.
  - split.
    + destruct (put_product req w) as [[r|e] w'] eqn:Hp; [|done].
      simpl. intros [= Hs].
      destruct (put_product_200 req w w' r Hp Hs)
        as (Hid & Hv & Hr & idx & stored & Hi & _ & _ & _ & Hw).
      destruct (proj1 (writeProducts_normal _ _) (ex_intro _ w' Hw)) as [Hwf Hrf].
      rewrite write_fault_log in Hwf. rewrite rename_fault_log in Hrf.
      repeat split; try done.
      destruct (existsb _ _) eqn:Hex; [done|].
      apply findIndex_None in Hex. congruence.
    + intros (Hid & Hv & Hr & Hwf & Hrf & Hex).
      destruct (findIndex (has_id (param_id req)) (persisted w)) as [idx|] eqn:Hi.
      2:{ apply findIndex_None in Hi. congruence. }
      destruct (findIndex_Some _ _ _ Hi) as (stored & Hl & _).
      destruct (put_product_succeeds req w idx stored Hid Hv Hr Hwf Hrf Hi Hl)
        as (w' & -> & _). done.
  - split.
    + destruct (delete_product req w) as [[r|e] w'] eqn:Hp; [|done].
      simpl. intros [= Hs].
      destruct (delete_product_200 req w w' r Hp Hs) as (Hid & Hr & Hlen & Hw).
      destruct (proj1 (writeProducts_normal _ _) (ex_intro _ w' Hw)) as [Hwf Hrf].
      rewrite write_fault_log in Hwf. rewrite rename_fault_log in Hrf.
      repeat split; try done.
      destruct (forallb _ _) eqn:Hall; [|done].
      by apply filter_length_all in Hall.
    + intros (Hid & Hr & Hwf & Hrf & Hall).
      unfold delete_product. rewrite Hid, delete_try_eq, Hr. cbv zeta.
      rewrite bool_decide_eq_false_2.
      2:{ rewrite filter_length_all. by rewrite Hall. }
      by rewrite writeProducts_eq, write_fault_log, rename_fault_log, Hwf, Hrf.
Qed.

Lemma X17_witness :
  status_of (delete_product (Request (num_of_Z 2) VUndefined)
               (writeProducts sample_products w_empty).2).1 = Some 200%nat.
Proof.
  apply (proj2 (proj2 (X17_conditions_of_success (Request (num_of_Z 2) VUndefined)
                         (writeProducts sample_products w_empty).2))).
  repeat split; vm_compute; reflexivity.
Defined.

Section TraceFacts.
Context `{JsonRuntime} `{Arithmetic}.

Lemma calls_after_read (products : list value) (w w' : world) (c : completion ()) :
  writeProducts products (log (EvReadFile DATA_FILE) w) = (c, w') →
  ∃ evs, trace w' = (trace w ++ evs)%list ∧ store_calls evs.
Proof.
  intros [Ht|Ht]%writeProducts_trace; rewrite Ht; simpl; rewrite <- app_assoc;
    eexists; (split; [reflexivity|]); unfold store_calls; simpl; eauto 6.
Qed.

Lemma calls_none (w : world) : ∃ evs, trace w = (trace w ++ evs)%list ∧ store_calls evs.
Proof. exists []. split; [by rewrite app_nil_r|by left]. Qed.

Lemma calls_read (w : world) :
  ∃ evs, trace (log (EvReadFile DATA_FILE) w) = (trace w ++ evs)%list ∧ store_calls evs.
Proof. eexists. split; [reflexivity|]. right. by left. Qed.

End TraceFacts.

(** X18. What the handlers ask of the file system.  Every handler adds to
    the calls made one of: nothing; one read of the data file; the read and
    a write of the temporary file; the read, the write and the rename of
    the temporary file onto the data file.  So the data file is read at
    most once, never written in place, and replaced only by the rename. *)
Theorem X18_calls_of_the_handlers `{JsonRuntime} `{Arithmetic} (req : request) (w : world) :
  (∃ evs, trace (get_products req w).2 = (trace w ++ evs)%list ∧ store_calls evs)
  ∧ (∃ evs, trace (get_instock req w).2 = (trace w ++ evs)%list ∧ store_calls evs)
  ∧ (∃ evs, trace (post_products req w).2 = (trace w ++ evs)%list ∧ store_calls evs)
  ∧ (∃ evs, trace (put_product req w).2 = (trace w ++ evs)%list ∧ store_calls evs)
  ∧ (∃ evs, trace (delete_product req w).2 = (trace w ++ evs)%list ∧ store_calls evs)
  ∧ (∃ evs, trace (get_root req w).2 = (trace w ++ evs)%list ∧ store_calls evs).
Proof.
  split; [|split; [|split; [|split; [|split]]]].
  - rewrite get_products_eq. apply calls_read.
  - rewrite get_instock_eq. apply calls_read.
  - unfold post_products.
    destruct (validateProductInput (body req) false); [|apply calls_none].
    destruct (negb _); [apply calls_none|].
    rewrite post_try_eq. cbv zeta.
    destruct (read_fault w); [apply calls_read|].
    destruct (reduce_max _ _); [|apply calls_read].
    destruct (member (body req) "name" ≫= trim_method); [|apply calls_read].
    destruct (member (body req) "price"); [|apply calls_read].
    destruct (member (body req) "inStock"); [|apply calls_read].
    destruct (writeProducts _ _) as [[[]|e] w2] eqn:Hw; simpl;
      by apply calls_after_read in Hw.
  - unfold put_product.
    destruct (invalid_id _); [apply calls_none|].
    destruct (validateProductInput (body req) true); [|apply calls_none].
    destruct (negb _); [apply calls_none|].
    rewrite put_try_eq. cbv zeta.
    destruct (read_fault w); [apply calls_read|].
    destruct (findIndex _ _); [|apply calls_read].
    destruct (writeProducts _ _) as [[[]|e] w2] eqn:Hw; simpl;
      by apply calls_after_read in Hw.
  - unfold delete_product.
    destruct (invalid_id _); [apply calls_none|].
    rewrite delete_try_eq. cbv zeta.
    destruct (read_fault w); [apply calls_read|].
    destruct (bool_decide _); [apply calls_read|].
    destruct (writeProducts _ _) as [[[]|e] w2] eqn:Hw; simpl;
      by apply calls_after_read in Hw.
  - apply calls_none.
Qed.
